(** * go-jira-scraper: request client, disk cache and sync orchestrator

    A shallow embedding of [pkg/jira/client.go], [pkg/cache/disk.go] and the
    scraper package, with the properties of their retry, pagination, cache
    and bookkeeping logic.

    Conventions.
    - Go's [int] and [time.Duration] are [Z]; where a value can leave the
      64-bit range the wrap-around is written out with [wrap64].
    - Go's [error] is the inductive type [Error]; a function returning
      [(T, error)] returns [Result T].
    - The network, the clock and the operating system are oracles of an
      environment [Env]; the program state is a [World] that counts the
      oracle calls made, holds the cache directory and records the
      observable events (HTTP exchanges, sleeps, warnings on stderr).
    - [log.Printf] lines are not recorded: they do not influence control. *)

From Stdlib Require Import ZArith Lia List Bool.
From Stdlib Require Import Strings.String Strings.Ascii.
From stdpp Require Import base option list strings gmap pretty sorting.

Set Warnings "-register-all".

Open Scope string_scope.
Open Scope Z_scope.

(* ===================================================================== *)
(** ** Machine integers and durations *)

(** Two's-complement reduction of an integer to the signed 64-bit range. *)
Definition wrap64 (z : Z) : Z := (z + 2 ^ 63) mod 2 ^ 64 - 2 ^ 63.

Definition MaxInt64 : Z := 2 ^ 63 - 1.
Definition MinInt64 : Z := - 2 ^ 63.

(** [time.Duration] counts nanoseconds in an [int64]. *)
Definition Millisecond : Z := 1000000.
Definition Second : Z := 1000000000.

(** [time.Duration(1<<uint(attempt+1)) * time.Second]: the shift and the
    product are both taken in [int64]. *)
Definition backoff (attempt : Z) : Z :=
  wrap64 (wrap64 (Z.shiftl 1 (attempt + 1)) * Second).

(** [time.Duration(seconds) * time.Second]. *)
Definition seconds_duration (seconds : Z) : Z := wrap64 (seconds * Second).

(* ===================================================================== *)
(** ** strconv.Atoi

    Go's [strconv.Atoi] accepts an optional sign followed by one or more
    decimal digits and fails when the value does not fit an [int]. *)

Definition digit_of (c : ascii) : option Z :=
  let n := Z.of_N (N_of_ascii c) in
  if (48 <=? n) && (n <=? 57) then Some (n - 48) else None.

Fixpoint digits_value (s : string) (acc : Z) : option Z :=
  match s with
  | EmptyString => Some acc
  | String c rest =>
      match digit_of c with
      | Some d => digits_value rest (acc * 10 + d)
      | None => None
      end
  end.

Definition unsigned_value (s : string) : option Z :=
  match s with
  | EmptyString => None
  | _ => digits_value s 0
  end.

Definition in_int64 (z : Z) : bool := (MinInt64 <=? z) && (z <=? MaxInt64).

Definition Atoi (s : string) : option Z :=
  let signed :=
    match s with
    | String "-" rest => option_map Z.opp (unsigned_value rest)
    | String "+" rest => unsigned_value rest
    | _ => unsigned_value s
    end in
  match signed with
  | Some z => if in_int64 z then Some z else None
  | None => None
  end.

(* ===================================================================== *)
(** ** Data model (package models) *)

Record User := { user_Name : string; user_Key : string; DisplayName : string }.
Record Status := { status_ID : string; status_Name : string }.
Record Priority := { priority_ID : string; priority_Name : string }.
Record IssueType := { issuetype_ID : string; issuetype_Name : string }.

Record IssueFields := {
  Summary : string;
  Description : string;
  IssueType_ : option IssueType;
  Status_ : option Status;
  Priority_ : option Priority;
  Assignee : option User;
  Creator : option User;
  Created : string;
  Updated : string;
  ResolutionDate : option string
}.

Record Issue := {
  ID : string;
  Key : string;
  Self : string;
  Fields : option IssueFields
}.

Record HistoryItem := {
  Field : string;
  FieldType : string;
  From_ : option string;
  FromString : option string;
  To : option string;
  ToString : option string
}.

Record History := {
  history_ID : string;
  Author : option User;
  history_Created : string;
  Items : list HistoryItem
}.

Record Changelog := {
  changelog_StartAt : Z;
  changelog_MaxResults : Z;
  changelog_Total : Z;
  Histories : list History
}.

(** [IssueWithHistory] embeds [Issue]. *)
Record IssueWithHistory := {
  to_Issue : Issue;
  Changelog_ : option Changelog
}.

Record CacheMetadata := {
  FetchedAt : Z;               (* wall-clock instant, nanoseconds *)
  FetchedBy : string;
  APICallDurationMS : Z
}.

Record CachedIssue := {
  CacheMetadata_ : CacheMetadata;
  JiraData : IssueWithHistory
}.

(** One page of a search. [Issues] holds the decoded entries of the page
    (the model covers pages without JSON [null] entries). *)
Record SearchResult := {
  StartAt : Z;
  MaxResults : Z;
  Total : Z;
  Issues : list Issue
}.

(* ===================================================================== *)
(** ** Errors *)

Inductive Error :=
| Cause (msg : string)                       (* an error of a library or the OS *)
| Wrapped (context : string) (cause : option Error)
                                             (* fmt.Errorf("context: %w", err) *)
| ErrRateLimit (maxRetries : Z) (body : string)
    (* "rate limit max retries exceeded after %d attempts: %s" *)
| ErrAPIStatus (status : Z) (body : string)  (* "API returned status %d: %s" *)
| ErrNotFound                                (* "issue not found in cache" *).

Inductive Result (A : Type) :=
| Ok (a : A)
| Err (e : Error).
Arguments Ok {A} a.
Arguments Err {A} e.

Definition is_ok {A} (r : Result A) : bool :=
  match r with Ok _ => true | Err _ => false end.

Definition wrap_err (context : string) (e : Error) : Error :=
  Wrapped context (Some e).

(* ===================================================================== *)
(** ** The environment and the world *)

(** An HTTP request as [doRequestWithRetry] builds it: method, base URL
    followed by the path, the query parameters in the order
    [url.Values.Encode] emits them (sorted by key), and the headers. *)
Record Request := {
  req_method : string;
  req_url : string;
  req_query : list (string * string);
  req_headers : list (string * string)
}.

(** What one round trip yields: [Do] fails, reading the body fails, or a
    response arrives with its status, [Retry-After] header ([""] when the
    header is absent, as [Header.Get] reports it) and body. *)
Inductive Outcome :=
| DoFails (cause : string)
| ReadFails (cause : string)
| Response (status : Z) (retryAfter : string) (body : string).

(** Entries of the two cache directories. A symbolic link keeps the
    relative target it was created with. *)
Inductive Node :=
| File (data : string)
| Link (target : string).

(** The cache tree below [getDataPath], by file name: the regular files
    of [by_id] with their contents, and the entries of [by_key]. IDs and
    keys are taken to be plain file names (no path separators), as JIRA
    issues them. *)
Record FS := {
  by_id : gmap string string;
  by_key : gmap string Node
}.

Inductive Event :=
| EvHTTP (r : Request)
| EvSleep (d : Z)               (* time.Sleep, nanoseconds *)
| EvWarn (path : string) (cause : string)   (* the warning on stderr *).

Record Env := {
  (** [http.NewRequest] on a method, a URL and its query: [Some cause]
      when it refuses them. *)
  new_request : string -> string -> list (string * string) -> option string;
  (** The outcome of the n-th round trip, for the request sent. *)
  http_do : nat -> Request -> Outcome;
  (** The n-th reading of the clock. *)
  clock : nat -> Z;
  (** The n-th file-system call of the program: [Some cause] when the OS
      refuses it for a reason outside the cache tree (permissions, a full
      disk, no symbolic links on the platform). *)
  os_fail : nat -> option string
}.

Record World := {
  fs : FS;
  n_http : nat;
  n_clock : nat;
  n_os : nat;
  trace : list Event
}.

(** State-passing computations. *)
Definition M (A : Type) : Type := World -> A * World.

Definition ret {A} (a : A) : M A := fun w => (a, w).
Definition bind {A B} (m : M A) (k : A -> M B) : M B :=
  fun w => let (a, w') := m w in k a w'.

Notation "'let*' x ':=' m 'in' k" := (bind m (fun x => k))
  (at level 10, x name, m at level 100, k at level 200, only parsing).
Notation "m ';;' k" := (bind m (fun _ => k))
  (at level 100, k at level 200, right associativity, only parsing).

Definition emit (e : Event) : M unit :=
  fun w => (tt, {| fs := fs w; n_http := n_http w; n_clock := n_clock w;
                   n_os := n_os w; trace := trace w ++ [e] |}).

Definition Sleep (d : Z) : M unit := emit (EvSleep d).

Definition Now (env : Env) : M Z :=
  fun w => (clock env (n_clock w),
            {| fs := fs w; n_http := n_http w; n_clock := S (n_clock w);
               n_os := n_os w; trace := trace w |}).

(** [c.httpClient.Do(req)] followed by [io.ReadAll(resp.Body)]. *)
Definition round_trip (env : Env) (r : Request) : M Outcome :=
  fun w => (http_do env (n_http w) r,
            {| fs := fs w; n_http := S (n_http w); n_clock := n_clock w;
               n_os := n_os w; trace := trace w ++ [EvHTTP r] |}).

(* ===================================================================== *)
(** ** The request client (pkg/jira/client.go) *)

(** The functions of [encoding/json] the program calls, at the types it
    calls them. *)
Record Json := {
  unmarshal_search : string -> Result SearchResult;
  unmarshal_issue : string -> Result Issue;
  unmarshal_history : string -> Result IssueWithHistory;
  marshal_cached : CachedIssue -> Result string;
  unmarshal_cached : string -> Result CachedIssue
}.

Module jira.

Record Client := {
  baseURL : string;
  token : string;
  batchSize : Z
}.

Definition New (baseURL token : string) : Client :=
  {| baseURL := baseURL; token := token; batchSize := 10 |}.

Definition SetBatchSize (c : Client) (size : Z) : Client :=
  if (0 <? size) && (size <=? 100)
  then {| baseURL := baseURL c; token := token c; batchSize := size |}
  else c.

Definition mkRequest (c : Client) (method path : string)
    (query : list (string * string)) : Request :=
  {| req_method := method;
     req_url := baseURL c +:+ path;
     req_query := query;
     req_headers := [("Authorization", "Bearer " +:+ token c);
                     ("Content-Type", "application/json");
                     ("Accept", "application/json")] |}.

(** The wait a [Retry-After] header asks for; [0] stands for "no valid
    header", as the zero value of [waitTime] does in the source. *)
Definition retry_after_wait (retryAfter : string) : Z :=
  if String.eqb retryAfter "" then 0
  else match Atoi retryAfter with
       | Some seconds => if 0 <? seconds then seconds_duration seconds else 0
       | None => 0
       end.

Definition rate_limit_wait (retryAfter : string) (attempt : Z) : Z :=
  let waitTime := retry_after_wait retryAfter in
  if waitTime =? 0 then backoff attempt else waitTime.

Section Client.
Context (env : Env) (json : Json) (c : Client).

(** The loop of [doRequestWithRetry]. [remaining] counts the iterations
    the loop condition [attempt <= maxRetries] still admits. *)
Fixpoint retry_loop (method path : string) (query : list (string * string))
    (maxRetries : Z) (remaining : nat) (attempt : Z)
    (lastErr : option Error) : M (Result string) :=
  match remaining with
  | O => ret (Err (Wrapped "max retries exceeded" lastErr))
  | S remaining' =>
      match new_request env method (baseURL c +:+ path) query with
      | Some cause =>
          ret (Err (wrap_err "failed to create request" (Cause cause)))
      | None =>
          let* out := round_trip env (mkRequest c method path query) in
          match out with
          | DoFails cause =>
              let lastErr := Some (wrap_err "request failed" (Cause cause)) in
              (if attempt <? maxRetries then Sleep (backoff attempt)
               else ret tt) ;;
              retry_loop method path query maxRetries remaining'
                (attempt + 1) lastErr
          | ReadFails cause =>
              let lastErr :=
                Some (wrap_err "failed to read response body" (Cause cause)) in
              (if attempt <? maxRetries then Sleep (backoff attempt)
               else ret tt) ;;
              retry_loop method path query maxRetries remaining'
                (attempt + 1) lastErr
          | Response status retryAfter body =>
              if (200 <=? status) && (status <? 300) then ret (Ok body)
              else if status =? 429 then
                if attempt >=? maxRetries
                then ret (Err (ErrRateLimit maxRetries body))
                else
                  Sleep (rate_limit_wait retryAfter attempt) ;;
                  retry_loop method path query maxRetries remaining'
                    (attempt + 1) lastErr
              else ret (Err (ErrAPIStatus status body))
          end
      end
  end.

Definition doRequestWithRetry (method path : string)
    (query : list (string * string)) (maxRetries : Z) : M (Result string) :=
  retry_loop method path query maxRetries (Z.to_nat (maxRetries + 1)) 0 None.

Definition doRequest (method path : string)
    (query : list (string * string)) : M (Result string) :=
  doRequestWithRetry method path query 3.

(** [Search]: one page of a JQL query. *)
Definition Search (jql : string) (maxResults startAt : Z)
    : M (Result SearchResult) :=
  let query := [("fields", "id,key,summary,updated");
                ("jql", jql);
                ("maxResults", pretty maxResults);
                ("startAt", pretty startAt)] in
  let* r := doRequest "GET" "/rest/api/2/search" query in
  match r with
  | Err e => ret (Err (wrap_err "search failed" e))
  | Ok body =>
      match unmarshal_search json body with
      | Err e => ret (Err (wrap_err "failed to parse search results" e))
      | Ok result => ret (Ok result)
      end
  end.

Definition issue_path (key : string) : string := "/rest/api/2/issue/" +:+ key.

Definition GetIssue (key : string) : M (Result Issue) :=
  let* r := doRequest "GET" (issue_path key) [] in
  match r with
  | Err e => ret (Err (wrap_err "failed to get issue" e))
  | Ok body =>
      match unmarshal_issue json body with
      | Err e => ret (Err (wrap_err "failed to parse issue" e))
      | Ok issue => ret (Ok issue)
      end
  end.

(** [GetIssueWithHistory]: the issue with its changelog and the time the
    call took. *)
Definition GetIssueWithHistory (key : string)
    : M (Result (IssueWithHistory * Z)) :=
  let* start := Now env in
  let* r := doRequest "GET" (issue_path key) [("expand", "changelog")] in
  match r with
  | Err e => ret (Err (wrap_err "failed to get issue with history" e))
  | Ok body =>
      match unmarshal_history json body with
      | Err e => ret (Err (wrap_err "failed to parse issue" e))
      | Ok issue =>
          let* finish := Now env in
          ret (Ok (issue, finish - start))
      end
  end.

(** The inner loop of [GetAllIssuesInProject] over one page: the keys
    are appended one by one and the limit is tested after each; the flag
    tells whether the limit was reached. *)
Fixpoint collect (limit : Z) (allKeys : list string) (issues : list Issue)
    : list string * bool :=
  match issues with
  | [] => (allKeys, false)
  | i :: rest =>
      let allKeys := (allKeys ++ [Key i])%list in
      if (0 <? limit) && (limit <=? Z.of_nat (length allKeys))
      then (allKeys, true)
      else collect limit allKeys rest
  end.

(** The outer [for] loop. It has no bound of its own: [fuel] bounds the
    number of pages requested, and [None] says the loop is still running
    when the fuel is spent. *)
Fixpoint page_loop (fuel : nat) (jql : string) (limit : Z)
    (allKeys : list string) (startAt : Z)
    : M (option (Result (list string))) :=
  match fuel with
  | O => ret None
  | S fuel' =>
      let* r := Search jql (batchSize c) startAt in
      match r with
      | Err e => ret (Some (Err e))
      | Ok result =>
          let (allKeys, reached) := collect limit allKeys (Issues result) in
          if reached then ret (Some (Ok allKeys))
          else if startAt + Z.of_nat (length (Issues result)) >=? Total result
          then ret (Some (Ok allKeys))
          else
            Sleep (500 * Millisecond) ;;
            page_loop fuel' jql limit allKeys
              (startAt + Z.of_nat (length (Issues result)))
      end
  end.

Definition GetAllIssuesInProject (fuel : nat) (project orderBy : string)
    (limit : Z) : M (option (Result (list string))) :=
  let orderBy := if String.eqb orderBy "" then "updated DESC" else orderBy in
  let jql := "project = " +:+ project +:+ " ORDER BY " +:+ orderBy in
  page_loop fuel jql limit [] 0.

Definition TestConnection : M (option Error) :=
  let* r := doRequest "GET" "/rest/api/2/myself" [] in
  match r with
  | Err e => ret (Some (wrap_err "connection test failed" e))
  | Ok _ => ret None
  end.

End Client.
End jira.

(* ===================================================================== *)
(** ** The disk cache (pkg/cache/disk.go) *)

Module cache.

Record DiskCache := {
  baseDir : string;
  jiraHost : string
}.

Definition New (baseDir : string) : DiskCache :=
  {| baseDir := baseDir; jiraHost := "" |}.

(** [filepath.Join] on components that need no cleaning: the non-empty
    ones, separated by [/]. *)
Fixpoint Join (parts : list string) : string :=
  match parts with
  | [] => ""
  | p :: rest =>
      if String.eqb p "" then Join rest
      else match Join rest with
           | "" => p
           | tail => p +:+ "/" +:+ tail
           end
  end.

Definition getDataPath (d : DiskCache) : string :=
  if negb (String.eqb (jiraHost d) "")
  then Join [baseDir d; "jira"; jiraHost d]
  else baseDir d.

(** *** The file system below the data path *)

(** The by_id file a link target of the form [../by_id/<name>] names. A
    link of [by_key] is resolved from [by_key]; other targets leave the
    cache tree and read as absent. *)
Fixpoint strip_prefix (prefix s : string) : option string :=
  match prefix, s with
  | EmptyString, _ => Some s
  | String a prefix', String b s' =>
      if Ascii.eqb a b then strip_prefix prefix' s' else None
  | String _ _, EmptyString => None
  end.

Definition link_target (target : string) : option string :=
  strip_prefix "../by_id/" target.

(** [os.ReadFile] and [os.Stat] follow symbolic links. *)
Definition read_by_id (t : FS) (name : string) : option string :=
  by_id t !! name.

Definition read_by_key (t : FS) (name : string) : option string :=
  match by_key t !! name with
  | Some (File data) => Some data
  | Some (Link target) =>
      match link_target target with
      | Some file => read_by_id t file
      | None => None
      end
  | None => None
  end.

Section Cache.
Context (env : Env) (json : Json) (d : DiskCache).

(** One mutating file-system call: the OS may refuse it. *)
Definition os_call : M (option string) :=
  fun w => (os_fail env (n_os w),
            {| fs := fs w; n_http := n_http w; n_clock := n_clock w;
               n_os := S (n_os w); trace := trace w |}).

Definition set_fs (t : FS) : M unit :=
  fun w => (tt, {| fs := t; n_http := n_http w; n_clock := n_clock w;
                   n_os := n_os w; trace := trace w |}).

Definition get_fs : M FS := fun w => (fs w, w).

(** [os.WriteFile] into [by_id]: the file is created or overwritten. *)
Definition WriteFile_by_id (name data : string) : M (option string) :=
  let* refused := os_call in
  match refused with
  | Some cause => ret (Some cause)
  | None =>
      let* t := get_fs in
      set_fs {| by_id := <[name := data]> (by_id t);
                by_key := by_key t |} ;;
      ret None
  end.

(** [os.Remove] in [by_key]. *)
Definition Remove_by_key (name : string) : M (option string) :=
  let* refused := os_call in
  match refused with
  | Some cause => ret (Some cause)
  | None =>
      let* t := get_fs in
      match by_key t !! name with
      | None => ret (Some "no such file or directory")
      | Some _ =>
          set_fs {| by_id := by_id t; by_key := delete name (by_key t) |} ;;
          ret None
      end
  end.

(** [os.Symlink] in [by_key]: it never replaces an existing entry. *)
Definition Symlink_by_key (target name : string) : M (option string) :=
  let* refused := os_call in
  match refused with
  | Some cause => ret (Some cause)
  | None =>
      let* t := get_fs in
      match by_key t !! name with
      | Some _ => ret (Some "file exists")
      | None =>
          set_fs {| by_id := by_id t;
                    by_key := <[name := Link target]> (by_key t) |} ;;
          ret None
      end
  end.

(** [WriteIssue]: the envelope goes to [by_id/<ID>.json]; the entry
    [by_key/<Key>.json] is removed and linked anew. *)
Definition WriteIssue (issue : IssueWithHistory) (duration : Z)
    : M (Result string) :=
  let dataPath := getDataPath d in
  let* now := Now env in
  let cached :=
    {| CacheMetadata_ :=
         {| FetchedAt := now;
            FetchedBy := "go-jira-scraper/0.1.0";
            APICallDurationMS := Z.quot duration Millisecond |};
       JiraData := issue |} in
  match marshal_cached json cached with
  | Err e => ret (Err (wrap_err "failed to marshal issue" e))
  | Ok data =>
      let idName := ID (to_Issue issue) +:+ ".json" in
      let idPath := Join [dataPath; "by_id"; idName] in
      let* failed := WriteFile_by_id idName data in
      match failed with
      | Some cause =>
          ret (Err (wrap_err "failed to write issue file" (Cause cause)))
      | None =>
          let keyName := Key (to_Issue issue) +:+ ".json" in
          let keyPath := Join [dataPath; "by_key"; keyName] in
          let relPath := Join [".."; "by_id"; idName] in
          Remove_by_key keyName ;;
          let* failed := Symlink_by_key relPath keyName in
          match failed with
          | Some cause => emit (EvWarn keyPath cause) ;; ret (Ok idPath)
          | None => ret (Ok idPath)
          end
      end
  end.

(** [readIssueFile] on the data [os.ReadFile] found, if any. *)
Definition readIssueFile (data : option string) : Result CachedIssue :=
  match data with
  | None => Err ErrNotFound
  | Some data =>
      match unmarshal_cached json data with
      | Err e => Err (wrap_err "failed to unmarshal issue" e)
      | Ok cached => Ok cached
      end
  end.

Definition GetIssue (key : string) : M (Result CachedIssue) :=
  let* t := get_fs in
  ret (readIssueFile (read_by_key t (key +:+ ".json"))).

Definition GetIssueByID (id : string) : M (Result CachedIssue) :=
  let* t := get_fs in
  ret (readIssueFile (read_by_id t (id +:+ ".json"))).

(** [Exists]: [os.Stat] on the by_key path succeeds. *)
Definition Exists (key : string) : M bool :=
  let* t := get_fs in
  ret (bool_decide (is_Some (read_by_key t (key +:+ ".json")))).

End Cache.

(** *** Listing and timestamps *)

(** [strings.HasSuffix], [strings.TrimSuffix] and [strings.HasPrefix], on
    strings as byte sequences. *)
Definition HasSuffix (s suffix : string) : bool :=
  (String.length suffix <=? String.length s)%nat &&
  String.eqb
    (substring (String.length s - String.length suffix)
       (String.length suffix) s)
    suffix.

Definition TrimSuffix (s suffix : string) : string :=
  if HasSuffix s suffix
  then substring 0 (String.length s - String.length suffix) s
  else s.

Definition HasPrefix (s prefix : string) : bool := String.prefix prefix s.

(** [os.ReadDir] on by_key: the names of the entries, sorted. None of the
    entries is a directory. *)
Definition ReadDir_by_key (t : FS) : list string :=
  merge_sort String.le (map fst (map_to_list (by_key t))).

(** The loop of [ListIssues] over the directory entries. *)
Fixpoint list_keys (entries keys : list string) : list string :=
  match entries with
  | [] => keys
  | name :: rest =>
      if HasSuffix name ".json"
      then list_keys rest (keys ++ [TrimSuffix name ".json"])%list
      else list_keys rest keys
  end.

Definition ListIssues : M (Result (list string)) :=
  let* t := get_fs in
  ret (Ok (list_keys (ReadDir_by_key t) [])).

(** The loop of [ListIssuesForProject]. *)
Fixpoint project_keys (project : string) (allKeys projectKeys : list string)
    : list string :=
  match allKeys with
  | [] => projectKeys
  | key :: rest =>
      if HasPrefix key (project +:+ "-")
      then project_keys project rest (projectKeys ++ [key])%list
      else project_keys project rest projectKeys
  end.

Definition ListIssuesForProject (project : string) : M (Result (list string)) :=
  let* listed := ListIssues in
  match listed with
  | Err e => ret (Err e)
  | Ok allKeys => ret (Ok (project_keys project allKeys []))
  end.

(** The zero [time.Time], instants being nanoseconds since the Unix
    epoch. *)
Definition zero_time : Z := -62135596800 * Second.

Section LastFetched.
Context (json : Json).
(** The modification time [os.Stat] reports for a by_key path. *)
Context (mod_time : FS -> string -> Z).

Definition GetLastFetched (key : string) : M (Result Z) :=
  let* cached := GetIssue json key in
  let fallback : M (Result Z) :=
    let* t := get_fs in
    match read_by_key t (key +:+ ".json") with
    | None => ret (Err ErrNotFound)
    | Some _ => ret (Ok (mod_time t (key +:+ ".json")))
    end in
  match cached with
  | Ok c =>
      if negb (FetchedAt (CacheMetadata_ c) =? zero_time)
      then ret (Ok (FetchedAt (CacheMetadata_ c)))
      else fallback
  | Err _ => fallback
  end.

End LastFetched.
End cache.

(* ===================================================================== *)
(** ** The sync orchestrator (package scraper) *)

Module scraper.

Record Config := {
  Workers : Z;
  FullSync : bool;
  BatchSize : Z;
  Limit : Z
}.

Record ScrapeResult := {
  IssuesProcessed : Z;
  APICalls : Z;
  CacheHits : Z;
  Errors : Z;
  Duration : Z
}.

Record Scraper := {
  client : jira.Client;
  cache_ : cache.DiskCache;
  config : Config
}.

Definition New (client : jira.Client) (cache : cache.DiskCache)
    (config : Config) : Scraper :=
  let config :=
    if Workers config =? 0
    then {| Workers := 4; FullSync := FullSync config;
            BatchSize := BatchSize config; Limit := Limit config |}
    else config in
  let config :=
    if BatchSize config =? 0
    then {| Workers := Workers config; FullSync := FullSync config;
            BatchSize := 100; Limit := Limit config |}
    else config in
  {| client := client; cache_ := cache; config := config |}.

Definition add_CacheHit (r : ScrapeResult) : ScrapeResult :=
  {| IssuesProcessed := IssuesProcessed r; APICalls := APICalls r;
     CacheHits := CacheHits r + 1; Errors := Errors r;
     Duration := Duration r |}.

Definition add_APICall (r : ScrapeResult) : ScrapeResult :=
  {| IssuesProcessed := IssuesProcessed r; APICalls := APICalls r + 1;
     CacheHits := CacheHits r; Errors := Errors r;
     Duration := Duration r |}.

Definition add_Error (r : ScrapeResult) : ScrapeResult :=
  {| IssuesProcessed := IssuesProcessed r; APICalls := APICalls r;
     CacheHits := CacheHits r; Errors := Errors r + 1;
     Duration := Duration r |}.

Definition set_Duration (r : ScrapeResult) (d : Z) : ScrapeResult :=
  {| IssuesProcessed := IssuesProcessed r; APICalls := APICalls r;
     CacheHits := CacheHits r; Errors := Errors r;
     Duration := d |}.

Section Scraper.
Context (env : Env) (json : Json) (s : Scraper).

(** The planning loop: which keys need fetching. *)
Fixpoint plan_loop (issueKeys toFetch : list string) (result : ScrapeResult)
    : M (list string * ScrapeResult) :=
  match issueKeys with
  | [] => ret (toFetch, result)
  | key :: rest =>
      if FullSync (config s) then
        plan_loop rest (toFetch ++ [key])%list result
      else
        let* present := cache.Exists key in
        if negb present then plan_loop rest (toFetch ++ [key])%list result
        else plan_loop rest toFetch (add_CacheHit result)
  end.

(** The fetch loop, one key after the other. *)
Fixpoint fetch_loop (toFetch : list string) (result : ScrapeResult)
    : M ScrapeResult :=
  match toFetch with
  | [] => ret result
  | key :: rest =>
      let* fetched := jira.GetIssueWithHistory env json (client s) key in
      match fetched with
      | Err _ => fetch_loop rest (add_Error result)
      | Ok (issue, duration) =>
          let result := add_APICall result in
          let* written :=
            cache.WriteIssue env json (cache_ s) issue duration in
          match written with
          | Err _ => fetch_loop rest (add_Error result)
          | Ok _ =>
              Sleep (500 * Millisecond) ;;
              fetch_loop rest result
          end
      end
  end.

(** [ScrapeProject]; [fuel] bounds the pages of the enumeration, and
    [None] says the enumeration is still running when it is spent. *)
Definition ScrapeProject (fuel : nat) (project : string)
    : M (option (Result ScrapeResult)) :=
  let* start := Now env in
  let result := {| IssuesProcessed := 0; APICalls := 0; CacheHits := 0;
                   Errors := 0; Duration := 0 |} in
  let* found :=
    jira.GetAllIssuesInProject env json (client s) fuel project
      "updated DESC" (Limit (config s)) in
  match found with
  | None => ret None
  | Some (Err e) => ret (Some (Err (wrap_err "failed to search issues" e)))
  | Some (Ok issueKeys) =>
      let result :=
        {| IssuesProcessed := Z.of_nat (length issueKeys);
           APICalls := APICalls result; CacheHits := CacheHits result;
           Errors := Errors result; Duration := Duration result |} in
      let* planned := plan_loop issueKeys [] result in
      let* result := fetch_loop (fst planned) (snd planned) in
      let* finish := Now env in
      ret (Some (Ok (set_Duration result (finish - start))))
  end.

Definition ScrapeIssue (key : string) : M (option Error) :=
  let* fetched := jira.GetIssueWithHistory env json (client s) key in
  match fetched with
  | Err e => ret (Some (wrap_err "failed to fetch issue" e))
  | Ok (issue, duration) =>
      let* written := cache.WriteIssue env json (cache_ s) issue duration in
      match written with
      | Err e => ret (Some (wrap_err "failed to cache issue" e))
      | Ok _ => ret None
      end
  end.

(** The loop of [ValidateCache] over the listed keys; [errors] counts the
    keys [GetIssue] fails on. *)
Fixpoint validate_loop (keys : list string) (errors : Z) : M Z :=
  match keys with
  | [] => ret errors
  | key :: rest =>
      let* got := cache.GetIssue json key in
      match got with
      | Err _ => validate_loop rest (errors + 1)
      | Ok _ => validate_loop rest errors
      end
  end.

(** [ValidateCache]: the count of the loop goes to the log only. *)
Definition ValidateCache : M (option Error) :=
  let* listed := cache.ListIssues in
  match listed with
  | Err e => ret (Some (wrap_err "failed to list cached issues" e))
  | Ok keys =>
      validate_loop keys 0 ;;
      ret None
  end.

End Scraper.
End scraper.

(* ===================================================================== *)
(** * Vocabulary of the properties *)

Import jira.

(** The error a failed round trip leaves in [lastErr]. *)
Definition transport_error (o : Outcome) : option Error :=
  match o with
  | DoFails cause => Some (wrap_err "request failed" (Cause cause))
  | ReadFails cause =>
      Some (wrap_err "failed to read response body" (Cause cause))
  | Response _ _ _ => None
  end.

(** A wait of the retry loop: a number of seconds taken to nanoseconds in
    64 bits. *)
Definition retry_wait (d : Z) : Prop := exists x, d = wrap64 (x * Second).

(** What a request emits: round trips of that request and waits of the
    retry loop. *)
Definition request_event (r : Request) (e : Event) : Prop :=
  match e with
  | EvHTTP r' => r' = r
  | EvSleep d => retry_wait d
  | EvWarn _ _ => False
  end.

(** What the [j]-th round trip of a run of the loop leads to. The run made
    [n] round trips, emitted [evs] and returned [res]; the round trip was
    made at attempt [a] and had outcome [o]. Either the run stops with this
    round trip as its last event, or a sleep follows and a further round
    trip is made. *)
Definition attempt_post (maxRetries a : Z) (o : Outcome) (j n : nat)
    (evs : list Event) (res : Result string) : Prop :=
  let stops := n = S j /\ length evs = S (2 * j) in
  let retries d := evs !! S (2 * j) = Some (EvSleep d) /\ (S j < n)%nat in
  match o with
  | DoFails _ | ReadFails _ =>
      if a <? maxRetries then retries (backoff a)
      else stops /\
           res = Err (Wrapped "max retries exceeded" (transport_error o))
  | Response status retryAfter body =>
      if (200 <=? status) && (status <? 300) then stops /\ res = Ok body
      else if status =? 429 then
        if a >=? maxRetries
        then stops /\ res = Err (ErrRateLimit maxRetries body)
        else retries (rate_limit_wait retryAfter a)
      else stops /\ res = Err (ErrAPIStatus status body)
  end.

(** The sizes [SetBatchSize] accepts. *)
Definition valid_batch (size : Z) : bool := (0 <? size) && (size <=? 100).

(** An event of the client: a GET below the base URL that carries the
    bearer token and the two JSON headers, or a sleep. *)
Definition client_event (c : Client) (e : Event) : Prop :=
  match e with
  | EvHTTP r =>
      req_method r = "GET" /\
      (exists path, req_url r = baseURL c +:+ path) /\
      req_headers r = [("Authorization", "Bearer " +:+ token c);
                       ("Content-Type", "application/json");
                       ("Accept", "application/json")]
  | EvSleep _ => True
  | EvWarn _ _ => False
  end.

(** From [w] to [w'] by events of the client alone, the cache and the
    count of file-system calls untouched. *)
Definition client_run (c : Client) (w w' : World) : Prop :=
  exists evs,
    trace w' = (trace w ++ evs)%list /\
    Forall (client_event c) evs /\
    fs w' = fs w /\ n_os w' = n_os w.

(** ** Pagination *)

Definition page_keys (p : SearchResult) : list string := map Key (Issues p).

Definition page_length (p : SearchResult) : Z := Z.of_nat (length (Issues p)).

(** The request [Search] sends for a page. *)
Definition search_request (c : Client) (jql : string) (startAt : Z) : Request :=
  mkRequest c "GET" "/rest/api/2/search"
    [("fields", "id,key,summary,updated");
     ("jql", jql);
     ("maxResults", pretty (batchSize c));
     ("startAt", pretty startAt)].

(** [served env json c jql pages startAt w w']: starting in world [w] at
    offset [startAt], successive calls of [Search] received the pages
    [pages], one call per page, each at the offset advanced by the lengths
    of the pages before it and each but the first after a sleep of 500 ms;
    [w'] is the world right after the last call. *)
Fixpoint served (env : Env) (json : Json) (c : Client) (jql : string)
    (pages : list SearchResult) (startAt : Z) (w w' : World) : Prop :=
  match pages with
  | [] => False
  | p :: rest =>
      exists w1,
        Search env json c jql (batchSize c) startAt w = (Ok p, w1) /\
        match rest with
        | [] => w' = w1
        | _ :: _ =>
            served env json c jql rest (startAt + page_length p)
              (snd (Sleep (500 * Millisecond) w1)) w'
        end
  end.

(** None of [pages] ends the loop: after each of them the offset is still
    below the total it reports, and a positive limit is not reached.
    [count] keys were gathered before and [startAt] is the offset. *)
Fixpoint continues (limit : Z) (count startAt : Z) (pages : list SearchResult)
    : Prop :=
  match pages with
  | [] => True
  | p :: rest =>
      startAt + page_length p < Total p /\
      (0 < limit -> count + page_length p < limit) /\
      continues limit (count + page_length p) (startAt + page_length p) rest
  end.

(** Whether a positive limit is reached within a page of [n] issues when
    [count] keys were gathered before. *)
Definition reaches (limit count n : Z) : bool :=
  (0 <? limit) && (limit <=? count + n).

(** ** The cache *)

(** The envelope [WriteIssue] builds at clock reading [now]. *)
Definition envelope (now : Z) (issue : IssueWithHistory) (duration : Z)
    : CachedIssue :=
  {| CacheMetadata_ :=
       {| FetchedAt := now;
          FetchedBy := "go-jira-scraper/0.1.0";
          APICallDurationMS := Z.quot duration Millisecond |};
     JiraData := issue |}.

Definition id_name (issue : IssueWithHistory) : string :=
  ID (to_Issue issue) +:+ ".json".

Definition key_name (issue : IssueWithHistory) : string :=
  Key (to_Issue issue) +:+ ".json".

Definition id_path (d : cache.DiskCache) (issue : IssueWithHistory) : string :=
  cache.Join [cache.getDataPath d; "by_id"; id_name issue].

Definition key_path (d : cache.DiskCache) (issue : IssueWithHistory) : string :=
  cache.Join [cache.getDataPath d; "by_key"; key_name issue].

(** The link [WriteIssue] creates for an issue. *)
Definition key_link (issue : IssueWithHistory) : Node :=
  Link (cache.Join [".."; "by_id"; id_name issue]).

(** ** The orchestrator *)

(** The existence probe on a cache tree. *)
Definition exists_in (t : FS) (key : string) : bool :=
  bool_decide (is_Some (cache.read_by_key t (key +:+ ".json"))).

(** The plan in the words of the specification: every key in full-sync
    mode, the keys the cache does not hold in incremental mode; the keys
    it holds are the cache hits. *)
Definition to_fetch (fullSync : bool) (t : FS) (keys : list string)
    : list string :=
  if fullSync then keys
  else List.filter (fun key => negb (exists_in t key)) keys.

Definition cache_hits (fullSync : bool) (t : FS) (keys : list string) : Z :=
  if fullSync then 0
  else Z.of_nat (length (List.filter (exists_in t) keys)).

(** The request [GetIssueWithHistory] sends for a key. *)
Definition issue_request (c : Client) (key : string) : Request :=
  mkRequest c "GET" (issue_path key) [("expand", "changelog")].

(** The events of the enumeration: round trips to the search resource and
    sleeps. *)
Definition search_event (c : Client) (e : Event) : Prop :=
  match e with
  | EvHTTP r => req_url r = baseURL c +:+ "/rest/api/2/search"
  | EvSleep _ => True
  | EvWarn _ _ => False
  end.

(** The events of fetching and storing one key: round trips for that key,
    waits of the retry loop, and the warning of the cache. *)
Definition fetch_event (c : Client) (key : string) (e : Event) : Prop :=
  match e with
  | EvHTTP r => r = issue_request c key
  | EvSleep d => retry_wait d
  | EvWarn _ _ => True
  end.

(** The delay of the fetch loop. *)
Definition politeness : Event := EvSleep (500 * Millisecond).

(** How the fetch loop left a key. *)
Inductive KeyOutcome :=
| Stored          (* fetched and written *)
| FetchFailed     (* [GetIssueWithHistory] failed *)
| WriteFailed     (* fetched, [WriteIssue] failed *).

Definition stored (o : KeyOutcome) : bool :=
  match o with Stored => true | _ => false end.

Definition fetched (o : KeyOutcome) : bool :=
  match o with FetchFailed => false | _ => true end.

(** The events of one iteration of the fetch loop: those of the key, and
    the delay when the key was stored. *)
Definition render (b : list Event * KeyOutcome) : list Event :=
  (fst b ++ if stored (snd b) then [politeness] else [])%list.

Definition is_politeness (e : Event) : bool :=
  match e with
  | EvSleep d => d =? 500 * Millisecond
  | _ => false
  end.

Definition count_outcomes (p : KeyOutcome -> bool)
    (blocks : list (list Event * KeyOutcome)) : Z :=
  Z.of_nat (length (List.filter (fun b => p (snd b)) blocks)).

(** ** Scripted environments

    Concrete environments for running the program: the network plays a
    script of outcomes, one per round trip, and fails every round trip
    after the script; the clock advances by one second per reading; the
    OS refuses the file-system calls listed. *)

Module Demo.

Definition scripted (outs : list Outcome) (refused : list nat) : Env :=
  {| new_request := fun _ _ _ => None;
     http_do := fun n _ => nth n outs (DoFails "connection refused");
     clock := fun n => Z.of_nat n * Second;
     os_fail := fun n =>
       if existsb (Nat.eqb n) refused then Some "permission denied" else None |}.

(** The same environment with the given clock readings, in order; the
    readings after them are zero. *)
Definition with_clock (readings : list Z) (env : Env) : Env :=
  {| new_request := new_request env;
     http_do := http_do env;
     clock := fun n => nth n readings 0;
     os_fail := os_fail env |}.

Definition client : Client := New "https://jira.example.org" "secret".

Definition disk : cache.DiskCache :=
  {| cache.baseDir := ".data"; cache.jiraHost := "jira.example.org" |}.

Definition empty_fs : FS := {| by_id := ∅; by_key := ∅ |}.

Definition world (t : FS) : World :=
  {| fs := t; n_http := 0; n_clock := 0; n_os := 0; trace := [] |}.

Definition get (path : string) : Request := mkRequest client "GET" path [].

Fixpoint assoc {A : Type} (k : string) (l : list (string * A)) : option A :=
  match l with
  | [] => None
  | (k', a) :: rest => if String.eqb k k' then Some a else assoc k rest
  end.

Definition decode {A : Type} (table : list (string * A)) (body : string)
    : Result A :=
  match assoc body table with
  | Some a => Ok a
  | None => Err (Cause "invalid character looking for beginning of value")
  end.

(** The text an envelope is stored as: the envelope is looked up by it
    when it is read back. *)
Definition envelope_text (e : CachedIssue) : string :=
  "envelope " +:+ ID (to_Issue (JiraData e)) +:+ " " +:+
  Key (to_Issue (JiraData e)) +:+ " fetched_at " +:+
  pretty (FetchedAt (CacheMetadata_ e)).

(** A stand-in for [encoding/json]: bodies are decoded by table. *)
Definition json (pages : list (string * SearchResult))
    (issues : list (string * IssueWithHistory))
    (envelopes : list CachedIssue) : Json :=
  {| unmarshal_search := decode pages;
     unmarshal_issue := decode (map (fun kv => (fst kv, to_Issue (snd kv))) issues);
     unmarshal_history := decode issues;
     marshal_cached := fun e => Ok (envelope_text e);
     unmarshal_cached :=
       decode (map (fun e => (envelope_text e, e)) envelopes) |}.

Definition mk_issue (id key : string) : Issue :=
  {| ID := id; Key := key; Self := ""; Fields := None |}.

Definition mk_history (id key : string) : IssueWithHistory :=
  {| to_Issue := mk_issue id key; Changelog_ := None |}.

Definition mk_page (startAt total : Z) (issues : list Issue) : SearchResult :=
  {| StartAt := startAt; MaxResults := Z.of_nat (length issues);
     Total := total; Issues := issues |}.

Definition jql : string := "project = AAH ORDER BY updated DESC".

(** *** A project of three issues

    The search answers with one page of the three keys. The cache holds
    AAH-1 from an earlier run. The fetch of AAH-2 is answered 404, the
    fetch of AAH-3 with the issue. *)

Definition three_keys : SearchResult :=
  mk_page 0 3 [mk_issue "10001" "AAH-1"; mk_issue "10002" "AAH-2";
               mk_issue "10003" "AAH-3"].

Definition project_json : Json :=
  json [("page", three_keys)]
       [("issue-1", mk_history "10001" "AAH-1");
        ("issue-3", mk_history "10003" "AAH-3")] [].

Definition holds_AAH_1 : FS :=
  {| by_id := <["10001.json" := "envelope of an earlier run"]> ∅;
     by_key := <["AAH-1.json" := Link "../by_id/10001.json"]> ∅ |}.

Definition incremental : scraper.Scraper :=
  scraper.New client disk
    {| scraper.Workers := 0; scraper.FullSync := false;
       scraper.BatchSize := 0; scraper.Limit := 0 |}.

Definition full_sync : scraper.Scraper :=
  scraper.New client disk
    {| scraper.Workers := 0; scraper.FullSync := true;
       scraper.BatchSize := 0; scraper.Limit := 0 |}.

(** The server as the incremental run meets it. *)
Definition incremental_server : Env :=
  scripted [Response 200 "" "page";
            Response 404 "" "Issue Does Not Exist";
            Response 200 "" "issue-3"] [].

End Demo.

(* ===================================================================== *)
(** * Properties *)

Lemma pair_eta {A B} (p : A * B) (a : A) : fst p = a -> p = (a, snd p).
Proof. intros <-. destruct p; reflexivity. Qed.

(** ** Arithmetic of the waits *)

Lemma wrap64_small z : MinInt64 <= z <= MaxInt64 -> wrap64 z = z.
Proof.
  unfold wrap64, MinInt64, MaxInt64. intros Hz.
  rewrite Z.mod_small by lia. lia.
Qed.

(** The exponential schedule is exact as long as the product fits the
    64-bit duration: attempts 0 to 32. *)
Lemma backoff_exact attempt :
  0 <= attempt <= 32 -> backoff attempt = 2 ^ (attempt + 1) * Second.
Proof.
  intros Ha. unfold backoff.
  rewrite Z.shiftl_1_l.
  assert (Hp : 2 ^ 1 <= 2 ^ (attempt + 1) <= 2 ^ 33)
    by (split; apply Z.pow_le_mono_r; lia).
  rewrite (wrap64_small (2 ^ (attempt + 1))).
  - apply wrap64_small. unfold MinInt64, MaxInt64, Second.
    change (2 ^ 1) with 2 in Hp. change (2 ^ 33) with 8589934592 in Hp.
    change (2 ^ 63) with 9223372036854775808. lia.
  - unfold MinInt64, MaxInt64.
    change (2 ^ 1) with 2 in Hp. change (2 ^ 33) with 8589934592 in Hp.
    change (2 ^ 63) with 9223372036854775808. lia.
Qed.

Lemma backoff_nonzero attempt : 0 <= attempt <= 32 -> backoff attempt <> 0.
Proof.
  intros Ha. rewrite backoff_exact by exact Ha.
  assert (0 < 2 ^ (attempt + 1)) by (apply Z.pow_pos_nonneg; lia).
  unfold Second. lia.
Qed.

(** A whole number of seconds is kept as long as it fits the duration. *)
Lemma seconds_duration_exact seconds :
  0 <= seconds <= 9223372036 -> seconds_duration seconds = seconds * Second.
Proof.
  intros Hs. unfold seconds_duration. apply wrap64_small.
  unfold MinInt64, MaxInt64, Second.
  change (2 ^ 63) with 9223372036854775808. lia.
Qed.

(** The wait on a 429 whose [Retry-After] parses to a number of seconds
    in the range of a duration. *)
Lemma rate_limit_wait_header retryAfter seconds attempt :
  Atoi retryAfter = Some seconds ->
  0 < seconds <= 9223372036 ->
  rate_limit_wait retryAfter attempt = seconds * Second.
Proof.
  intros Hparse Hs. unfold rate_limit_wait, retry_after_wait.
  destruct (String.eqb_spec retryAfter "") as [-> | _].
  - discriminate Hparse.
  - rewrite Hparse. destruct (Z.ltb_spec 0 seconds); [|lia].
    rewrite seconds_duration_exact by lia.
    destruct (Z.eqb_spec (seconds * Second) 0) as [H0 | _];
      [unfold Second in H0; lia | reflexivity].
Qed.

(** Without a usable header the wait is the exponential one. *)
Lemma rate_limit_wait_fallback retryAfter attempt :
  retry_after_wait retryAfter = 0 ->
  rate_limit_wait retryAfter attempt = backoff attempt.
Proof. intros H. unfold rate_limit_wait. rewrite H. reflexivity. Qed.

Lemma backoff_retry_wait attempt : retry_wait (backoff attempt).
Proof. unfold retry_wait, backoff. eauto. Qed.

Lemma rate_limit_wait_retry_wait retryAfter attempt :
  retry_wait (rate_limit_wait retryAfter attempt).
Proof.
  unfold rate_limit_wait.
  destruct (retry_after_wait retryAfter =? 0) eqn:Hz;
    [apply backoff_retry_wait|].
  unfold retry_after_wait in *.
  destruct (String.eqb retryAfter ""); [discriminate Hz|].
  destruct (Atoi retryAfter) as [seconds|]; [|discriminate Hz].
  destruct (0 <? seconds); [|discriminate Hz].
  unfold retry_wait, seconds_duration. eauto.
Qed.

(** No wait of the retry loop lasts 500 ms: the waits are multiples of
    512 ns, also after wrapping. *)
Lemma retry_wait_not_500ms d : retry_wait d -> d <> 500 * Millisecond.
Proof.
  intros [x ->] Heq.
  assert (Hdiv : (512 | wrap64 (x * Second))).
  { unfold wrap64.
    assert (H1 : (512 | x * Second + 2 ^ 63)).
    { apply Z.divide_add_r.
      - exists (x * 1953125). unfold Second. lia.
      - exists (2 ^ 54). reflexivity. }
    apply Z.divide_sub_r; [|exists (2 ^ 54); reflexivity].
    rewrite Z.mod_eq by discriminate.
    apply Z.divide_sub_r; [exact H1|].
    apply Z.divide_mul_l. exists (2 ^ 55). reflexivity. }
  rewrite Heq in Hdiv. destruct Hdiv as [k Hk].
  unfold Millisecond in Hk. lia.
Qed.

Lemma retry_after_wait_absent : retry_after_wait "" = 0.
Proof. reflexivity. Qed.

Lemma retry_after_wait_unparsed retryAfter :
  Atoi retryAfter = None -> retry_after_wait retryAfter = 0.
Proof.
  intros H. unfold retry_after_wait. rewrite H.
  destruct (String.eqb retryAfter ""); reflexivity.
Qed.

Lemma retry_after_wait_nonpositive retryAfter seconds :
  Atoi retryAfter = Some seconds -> seconds <= 0 ->
  retry_after_wait retryAfter = 0.
Proof.
  intros H Hs. unfold retry_after_wait. rewrite H.
  destruct (String.eqb retryAfter ""); [reflexivity|].
  destruct (Z.ltb_spec 0 seconds); [lia | reflexivity].
Qed.

Example Atoi_5 : Atoi "5" = Some 5.
Proof. reflexivity. Qed.
Example Atoi_plus : Atoi "+120" = Some 120.
Proof. reflexivity. Qed.
Example Atoi_minus : Atoi "-3" = Some (-3).
Proof. reflexivity. Qed.
Example Atoi_date : Atoi "Wed, 21 Oct 2015 07:28:00 GMT" = None.
Proof. reflexivity. Qed.
Example Atoi_sign_only : Atoi "-" = None.
Proof. reflexivity. Qed.
Example Atoi_too_big : Atoi "9223372036854775808" = None.
Proof. reflexivity. Qed.
Example backoff_schedule :
  map backoff [0; 1; 2] = [2 * Second; 4 * Second; 8 * Second].
Proof. reflexivity. Qed.

(* ===================================================================== *)
(** ** The retry loop *)

Lemma attempt_post_shift maxRetries a o j n evs res e1 e2 :
  attempt_post maxRetries a o j n evs res ->
  attempt_post maxRetries a o (S j) (S n) (e1 :: e2 :: evs) res.
Proof.
  unfold attempt_post.
  replace (2 * S j)%nat with (S (S (2 * j))) by lia.
  cbn [length lookup list_lookup].
  destruct o as [cause | cause | status retryAfter body];
    repeat match goal with
           | |- context [if ?b then _ else _] => destruct b
           end;
    intuition (try lia; auto).
Qed.

Section RetryLoop.
Context (env : Env) (c : Client).
Context (method path : string) (query : list (string * string)).

Let req := mkRequest c method path query.

(** A run of the loop touches nothing but the network and the trace. *)
Lemma retry_loop_frame maxRetries remaining :
  forall attempt lastErr w res w',
    retry_loop env c method path query maxRetries remaining
      attempt lastErr w = (res, w') ->
    exists evs,
      trace w' = (trace w ++ evs)%list /\
      Forall (request_event req) evs /\
      fs w' = fs w /\ n_clock w' = n_clock w /\
      n_os w' = n_os w /\ (n_http w <= n_http w')%nat.
Proof.
  induction remaining as [|remaining IH]; intros attempt lastErr w res w' Hrun.
  - inversion Hrun; subst. exists []. rewrite app_nil_r. auto 10.
  - cbn [retry_loop] in Hrun.
    destruct (new_request env method (baseURL c +:+ path) query).
    { inversion Hrun; subst. exists []. rewrite app_nil_r. auto 10. }
    unfold bind, round_trip in Hrun. fold req in Hrun.
    assert (Hstop : forall r : Result string,
               (r, {| fs := fs w; n_http := S (n_http w);
                      n_clock := n_clock w; n_os := n_os w;
                      trace := (trace w ++ [EvHTTP req])%list |}) = (res, w') ->
               exists evs,
                 trace w' = (trace w ++ evs)%list /\
                 Forall (request_event req) evs /\
                 fs w' = fs w /\ n_clock w' = n_clock w /\
                 n_os w' = n_os w /\ (n_http w <= n_http w')%nat).
    { intros r Hr. inversion Hr; subst. exists [EvHTTP req]. cbn.
      repeat split; auto. repeat constructor. }
    assert (Hnext : forall d a l,
               retry_loop env c method path query maxRetries remaining a l
                 {| fs := fs w; n_http := S (n_http w);
                    n_clock := n_clock w; n_os := n_os w;
                    trace := ((trace w ++ [EvHTTP req]) ++ d)%list |}
               = (res, w') ->
               Forall (request_event req) d ->
               exists evs,
                 trace w' = (trace w ++ evs)%list /\
                 Forall (request_event req) evs /\
                 fs w' = fs w /\ n_clock w' = n_clock w /\
                 n_os w' = n_os w /\ (n_http w <= n_http w')%nat).
    { intros d a l Hr Hd.
      apply IH in Hr as (evs & Ht & Hf & Hfs & Hc & Ho & Hn). cbn in *.
      exists (EvHTTP req :: d ++ evs)%list.
      rewrite Ht, <- !app_assoc. cbn.
      repeat split; auto; try lia.
      constructor; [reflexivity|]. apply Forall_app; auto. }
    destruct (http_do env (n_http w) req) as [cause|cause|status ra body].
    + destruct (attempt <? maxRetries); cbn in Hrun.
      * eapply (Hnext [EvSleep _]); [exact Hrun |].
        repeat constructor. apply backoff_retry_wait.
      * eapply (Hnext []); [rewrite app_nil_r; exact Hrun | constructor].
    + destruct (attempt <? maxRetries); cbn in Hrun.
      * eapply (Hnext [EvSleep _]); [exact Hrun |].
        repeat constructor. apply backoff_retry_wait.
      * eapply (Hnext []); [rewrite app_nil_r; exact Hrun | constructor].
    + destruct ((200 <=? status) && (status <? 300)); [eauto|].
      destruct (status =? 429); [|eauto].
      destruct (attempt >=? maxRetries); [eauto|]. cbn in Hrun.
      eapply (Hnext [EvSleep _]); [exact Hrun |].
      repeat constructor. apply rate_limit_wait_retry_wait.
Qed.

(** The round trips of a run, one by one. *)
Lemma retry_loop_attempts maxRetries remaining :
  forall attempt lastErr w res w',
    new_request env method (baseURL c +:+ path) query = None ->
    maxRetries = attempt + Z.of_nat remaining - 1 ->
    retry_loop env c method path query maxRetries remaining
      attempt lastErr w = (res, w') ->
    exists n evs,
      n_http w' = (n_http w + n)%nat /\
      trace w' = (trace w ++ evs)%list /\
      (n <= remaining)%nat /\ (remaining <> O -> n <> O) /\
      forall j, (j < n)%nat ->
        evs !! (2 * j)%nat = Some (EvHTTP req) /\
        attempt_post maxRetries (attempt + Z.of_nat j)
          (http_do env (n_http w + j) req) j n evs res.
Proof.
  induction remaining as [|remaining IH];
    intros attempt lastErr w res w' Hnew Hmax Hrun.
  - inversion Hrun; subst. exists O, []. rewrite app_nil_r.
    repeat split; auto; try lia; intros; lia.
  - cbn [retry_loop] in Hrun. rewrite Hnew in Hrun.
    unfold bind, round_trip in Hrun. fold req in Hrun.
    assert (Hstop : forall r : Result string,
               (r, {| fs := fs w; n_http := S (n_http w);
                      n_clock := n_clock w; n_os := n_os w;
                      trace := (trace w ++ [EvHTTP req])%list |}) = (res, w') ->
               attempt_post maxRetries attempt
                 (http_do env (n_http w) req) 0 1 [EvHTTP req] r ->
               exists n evs,
                 n_http w' = (n_http w + n)%nat /\
                 trace w' = (trace w ++ evs)%list /\
                 (n <= S remaining)%nat /\ (S remaining <> O -> n <> O) /\
                 forall j, (j < n)%nat ->
                   evs !! (2 * j)%nat = Some (EvHTTP req) /\
                   attempt_post maxRetries (attempt + Z.of_nat j)
                     (http_do env (n_http w + j) req) j n evs res).
    { intros r Hr Hpost. inversion Hr; subst. exists 1%nat, [EvHTTP req].
      cbn. repeat split; auto; try lia.
      - assert (j = O) by lia. subst. reflexivity.
      - assert (j = O) by lia. subst.
        rewrite Nat.add_0_r, Z.add_0_r. exact Hpost. }
    assert (Hnext : forall d l,
               retry_loop env c method path query maxRetries remaining
                 (attempt + 1) l
                 {| fs := fs w; n_http := S (n_http w);
                    n_clock := n_clock w; n_os := n_os w;
                    trace := ((trace w ++ [EvHTTP req]) ++ [EvSleep d])%list |}
               = (res, w') ->
               attempt < maxRetries ->
               (forall n evs r, (1 < n)%nat ->
                  attempt_post maxRetries attempt
                    (http_do env (n_http w) req) 0 n
                    (EvHTTP req :: EvSleep d :: evs) r) ->
               exists n evs,
                 n_http w' = (n_http w + n)%nat /\
                 trace w' = (trace w ++ evs)%list /\
                 (n <= S remaining)%nat /\ (S remaining <> O -> n <> O) /\
                 forall j, (j < n)%nat ->
                   evs !! (2 * j)%nat = Some (EvHTTP req) /\
                   attempt_post maxRetries (attempt + Z.of_nat j)
                     (http_do env (n_http w + j) req) j n evs res).
    { intros d l Hr Hlt Hpost.
      apply IH in Hr as (n & evs & Hn & Ht & Hle & Hpos & Hall);
        [|exact Hnew|lia]. cbn [n_http trace] in Hn, Ht, Hall.
      exists (S n), (EvHTTP req :: EvSleep d :: evs).
      rewrite Ht, <- !app_assoc. cbn [app].
      repeat split; auto; try lia.
      - destruct j as [|j]; [reflexivity|].
        replace (2 * S j)%nat with (S (S (2 * j))) by lia.
        cbn [lookup list_lookup]. apply Hall. lia.
      - destruct j as [|j].
        + rewrite Nat.add_0_r, Z.add_0_r. apply Hpost.
          assert (n <> O) by (apply Hpos; lia). lia.
        + replace (attempt + Z.of_nat (S j)) with (attempt + 1 + Z.of_nat j)
            by lia.
          replace (n_http w + S j)%nat with (S (n_http w) + j)%nat by lia.
          apply attempt_post_shift. apply Hall. lia. }
    unfold attempt_post in Hstop, Hnext.
    destruct (http_do env (n_http w) req) as [cause|cause|status ra body].
    + destruct (Z.ltb_spec attempt maxRetries) as [Hlt|Hge]; cbn in Hrun.
      * eapply Hnext; [exact Hrun | exact Hlt |].
        intros n evs r Hn. cbn. split; [reflexivity | lia].
      * assert (remaining = O) by lia. subst remaining. cbn in Hrun.
        eapply Hstop; [exact Hrun|]. cbn. auto.
    + destruct (Z.ltb_spec attempt maxRetries) as [Hlt|Hge]; cbn in Hrun.
      * eapply Hnext; [exact Hrun | exact Hlt |].
        intros n evs r Hn. cbn. split; [reflexivity | lia].
      * assert (remaining = O) by lia. subst remaining. cbn in Hrun.
        eapply Hstop; [exact Hrun|]. cbn. auto.
    + destruct ((200 <=? status) && (status <? 300)).
      { eapply Hstop; [exact Hrun|]. cbn. auto. }
      destruct (status =? 429).
      2:{ eapply Hstop; [exact Hrun|]. cbn. auto. }
      destruct (Z.geb_spec attempt maxRetries) as [Hge|Hlt].
      { eapply Hstop; [exact Hrun|]. cbn. auto. }
      cbn in Hrun.
      eapply Hnext; [exact Hrun | lia |].
      intros n evs r Hn. cbn. split; [reflexivity | lia].
Qed.

End RetryLoop.

Section DoRequest.
Context (env : Env) (c : Client).
Context (method path : string) (query : list (string * string)).

Let req := mkRequest c method path query.

(** The run of [doRequest]: at most four round trips, each followed by
    what [attempt_post] says for a budget of three retries. *)
Lemma doRequest_attempts w res w' :
  doRequest env c method path query w = (res, w') ->
  exists n evs,
    n_http w' = (n_http w + n)%nat /\
    trace w' = (trace w ++ evs)%list /\
    (n <= 4)%nat /\
    forall j, (j < n)%nat ->
      evs !! (2 * j)%nat = Some (EvHTTP req) /\
      attempt_post 3 (Z.of_nat j) (http_do env (n_http w + j) req) j n evs res.
Proof.
  unfold doRequest, doRequestWithRetry.
  change (Z.to_nat (3 + 1)) with 4%nat. intros Hrun.
  destruct (new_request env method (baseURL c +:+ path) query) eqn:Hnew.
  - cbn [retry_loop] in Hrun. rewrite Hnew in Hrun. inversion Hrun; subst.
    exists O, []. rewrite app_nil_r. repeat split; auto; try lia.
    all: intros; lia.
  - apply retry_loop_attempts in Hrun as (n & evs & Hn & Ht & Hle & _ & Hall);
      [|exact Hnew|reflexivity].
    exists n, evs. repeat split; auto; apply Hall; assumption.
Qed.

(** [doRequest] leaves the cache, the clock and the OS alone. *)
Lemma doRequest_frame w res w' :
  doRequest env c method path query w = (res, w') ->
  exists evs,
    trace w' = (trace w ++ evs)%list /\
    Forall (request_event req) evs /\
    fs w' = fs w /\ n_clock w' = n_clock w /\
    n_os w' = n_os w /\ (n_http w <= n_http w')%nat.
Proof. apply retry_loop_frame. Qed.

End DoRequest.

(** C1. The request primitive makes at most four round trips. A transport
    failure (the connection or the reading of the body fails) at attempt
    [k < 3] is followed by a sleep of [2^(k+1)] seconds and a further round
    trip; a transport failure at attempt 3 ends the run with the error
    "max retries exceeded" wrapping the error of that last failure; a 2xx
    response at any attempt ends the run at once with its body. *)
Theorem doRequest_transport_retry
    (env : Env) (c : Client) (method path : string)
    (query : list (string * string)) (w : World) :
  let req := mkRequest c method path query in
  let run := doRequest env c method path query w in
  exists n evs,
    n_http (snd run) = (n_http w + n)%nat /\
    trace (snd run) = (trace w ++ evs)%list /\
    (n <= 4)%nat /\
    forall k, (k < n)%nat ->
      let o := http_do env (n_http w + k) req in
      evs !! (2 * k)%nat = Some (EvHTTP req) /\
      (forall e, transport_error o = Some e ->
         ((k < 3)%nat ->
            evs !! (2 * k + 1)%nat
              = Some (EvSleep (2 ^ (Z.of_nat k + 1) * Second)) /\
            evs !! (2 * k + 2)%nat = Some (EvHTTP req)) /\
         (k = 3%nat ->
            fst run = Err (Wrapped "max retries exceeded" (Some e)) /\
            n = 4%nat /\ length evs = 7%nat)) /\
      (forall status retryAfter body,
         o = Response status retryAfter body ->
         200 <= status < 300 ->
         fst run = Ok body /\ n = S k /\ length evs = S (2 * k)).
Proof.
  intros req run. subst run.
  destruct (doRequest env c method path query w) as [res w'] eqn:Hrun.
  cbn [fst snd].
  apply doRequest_attempts in Hrun as (n & evs & Hn & Ht & Hle & Hall).
  exists n, evs. split; [exact Hn|]. split; [exact Ht|]. split; [exact Hle|].
  fold req in Hall. intros k Hk. destruct (Hall k Hk) as [Hreq Hpost].
  set (o := http_do env (n_http w + k) req) in *.
  split; [exact Hreq|]. split.
  - intros e He. split.
    + intros Hk3.
      assert (Hnext : (S k < n)%nat ->
                evs !! (2 * k + 2)%nat =
                  Some (EvHTTP (mkRequest c method path query))).
      { intros Hlt. replace (2 * k + 2)%nat with (2 * S k)%nat by lia.
        apply (Hall (S k) Hlt). }
      unfold attempt_post in Hpost.
      destruct o as [cause|cause|? ? ?]; try discriminate.
      all: destruct (Z.ltb_spec (Z.of_nat k) 3); [|lia].
      all: rewrite backoff_exact in Hpost by lia.
      all: replace (2 * k + 1)%nat with (S (2 * k)) by lia.
      all: destruct Hpost; auto.
    + intros ->. unfold attempt_post in Hpost.
      destruct o as [cause|cause|? ? ?]; try discriminate.
      all: cbn in Hpost, He; inversion He; subst.
      all: destruct Hpost as [[Hn4 Hlen] Hres]; auto.
  - intros status retryAfter body Ho [Hlo Hhi].
    unfold attempt_post in Hpost. rewrite Ho in Hpost.
    destruct (Z.leb_spec 200 status); [|lia].
    destruct (Z.ltb_spec status 300); [|lia].
    cbn in Hpost. destruct Hpost as [[Hn4 Hlen] Hres]; auto.
Qed.

(** Four refused connections: the theorem gives the waits of 2, 4 and 8
    seconds and the error of the fourth failure. *)
Lemma doRequest_transport_retry_witness :
  let run := doRequest (Demo.scripted [] []) Demo.client "GET"
               "/rest/api/2/myself" [] (Demo.world Demo.empty_fs) in
  fst run = Err (Wrapped "max retries exceeded"
                   (Some (Wrapped "request failed"
                            (Some (Cause "connection refused"))))) /\
  trace (snd run) !! 1%nat = Some (EvSleep (2 * Second)) /\
  trace (snd run) !! 3%nat = Some (EvSleep (4 * Second)) /\
  trace (snd run) !! 5%nat = Some (EvSleep (8 * Second)).
Proof.
  intros run.
  destruct (doRequest_transport_retry (Demo.scripted [] []) Demo.client "GET"
              "/rest/api/2/myself" [] (Demo.world Demo.empty_fs))
    as (n & evs & Hn & Ht & Hle & Hall).
  fold run in Hn, Ht, Hall.
  change (n_http (snd run)) with 4%nat in Hn.
  change (n_http (Demo.world Demo.empty_fs)) with 0%nat in Hn, Hall.
  change (trace (Demo.world Demo.empty_fs)) with (@nil Event) in Ht.
  cbn [app] in Ht. rewrite Ht.
  assert (Hn4 : n = 4%nat) by lia. subst n.
  destruct (Hall 0%nat ltac:(lia)) as (_ & H0 & _).
  destruct (Hall 1%nat ltac:(lia)) as (_ & H1 & _).
  destruct (Hall 2%nat ltac:(lia)) as (_ & H2 & _).
  destruct (Hall 3%nat ltac:(lia)) as (_ & H3 & _).
  destruct (H0 _ eq_refl) as [H0' _]. destruct (H0' ltac:(lia)) as [S0 _].
  destruct (H1 _ eq_refl) as [H1' _]. destruct (H1' ltac:(lia)) as [S1 _].
  destruct (H2 _ eq_refl) as [H2' _]. destruct (H2' ltac:(lia)) as [S2 _].
  destruct (H3 _ eq_refl) as [_ H3']. destruct (H3' eq_refl) as [R3 _].
  repeat split; assumption.
Defined.

(** C8. A response that is neither 2xx nor 429 ends the run of the request
    primitive at that round trip: the error carries the status and the
    body, no sleep follows and no further round trip is made. *)
Theorem doRequest_fails_fast
    (env : Env) (c : Client) (method path : string)
    (query : list (string * string)) (w : World) :
  let req := mkRequest c method path query in
  let run := doRequest env c method path query w in
  exists n evs,
    n_http (snd run) = (n_http w + n)%nat /\
    trace (snd run) = (trace w ++ evs)%list /\
    forall k status retryAfter body, (k < n)%nat ->
      http_do env (n_http w + k) req = Response status retryAfter body ->
      ~ (200 <= status < 300) -> status <> 429 ->
      fst run = Err (ErrAPIStatus status body) /\
      n = S k /\ last evs = Some (EvHTTP req).
Proof.
  intros req run. subst run.
  destruct (doRequest env c method path query w) as [res w'] eqn:Hrun.
  cbn [fst snd].
  apply doRequest_attempts in Hrun as (n & evs & Hn & Ht & Hle & Hall).
  exists n, evs. split; [exact Hn|]. split; [exact Ht|].
  fold req in Hall.
  intros k status retryAfter body Hk Ho Hnot2xx Hnot429.
  destruct (Hall k Hk) as [Hreq Hpost].
  unfold attempt_post in Hpost. rewrite Ho in Hpost.
  destruct ((200 <=? status) && (status <? 300)) eqn:H2xx.
  { apply andb_true_iff in H2xx as [H1 H2]. lia. }
  destruct (Z.eqb_spec status 429); [contradiction|].
  destruct Hpost as [[Hn' Hlen] Hres].
  repeat split; auto.
  rewrite last_lookup, Hlen. exact Hreq.
Qed.

(** A 404 at the first round trip. *)
Lemma doRequest_fails_fast_witness :
  let run := doRequest (Demo.scripted [Response 404 "" "Issue Does Not Exist"] [])
               Demo.client "GET" "/rest/api/2/issue/AAH-2" []
               (Demo.world Demo.empty_fs) in
  fst run = Err (ErrAPIStatus 404 "Issue Does Not Exist") /\
  n_http (snd run) = 1%nat /\
  exists evs, trace (snd run) = evs /\
              last evs = Some (EvHTTP (Demo.get "/rest/api/2/issue/AAH-2")).
Proof.
  intros run.
  destruct (doRequest_fails_fast
              (Demo.scripted [Response 404 "" "Issue Does Not Exist"] [])
              Demo.client "GET" "/rest/api/2/issue/AAH-2" []
              (Demo.world Demo.empty_fs))
    as (n & evs & Hn & Ht & Hall).
  fold run in Hn, Ht, Hall.
  change (n_http (snd run)) with 1%nat in Hn.
  change (n_http (Demo.world Demo.empty_fs)) with 0%nat in Hn, Hall.
  change (trace (Demo.world Demo.empty_fs)) with (@nil Event) in Ht.
  cbn [app] in Ht.
  destruct (Hall 0%nat 404 "" "Issue Does Not Exist" ltac:(lia) eq_refl
              ltac:(lia) ltac:(lia)) as (Hres & _ & Hlast).
  split; [exact Hres|]. split; [reflexivity|].
  exists evs. split; [exact Ht|exact Hlast].
Defined.

(** X1. The waits and the end of a run on 429 responses: a 429 at attempt
    [k < 3] is followed by a sleep and a further round trip, the sleep
    being the number of seconds of a [Retry-After] header that parses to a
    positive number a duration can hold, and [2^(k+1)] seconds when the
    header is absent, does not parse or is not positive; a 429 at attempt
    3 ends the run with the rate-limit error carrying its body. *)
Theorem doRequest_rate_limited
    (env : Env) (c : Client) (method path : string)
    (query : list (string * string)) (w : World) :
  let req := mkRequest c method path query in
  let run := doRequest env c method path query w in
  exists n evs,
    n_http (snd run) = (n_http w + n)%nat /\
    trace (snd run) = (trace w ++ evs)%list /\
    (n <= 4)%nat /\
    forall k retryAfter body, (k < n)%nat ->
      http_do env (n_http w + k) req = Response 429 retryAfter body ->
      ((k < 3)%nat ->
         evs !! (2 * k + 2)%nat = Some (EvHTTP req) /\
         (forall seconds,
            Atoi retryAfter = Some seconds -> 0 < seconds <= 9223372036 ->
            evs !! (2 * k + 1)%nat = Some (EvSleep (seconds * Second))) /\
         (retryAfter = "" \/ Atoi retryAfter = None \/
          (exists seconds, Atoi retryAfter = Some seconds /\ seconds <= 0) ->
          evs !! (2 * k + 1)%nat
            = Some (EvSleep (2 ^ (Z.of_nat k + 1) * Second)))) /\
      (k = 3%nat ->
         fst run = Err (ErrRateLimit 3 body) /\
         n = 4%nat /\ last evs = Some (EvHTTP req)).
Proof.
  intros req run. subst run.
  destruct (doRequest env c method path query w) as [res w'] eqn:Hrun.
  cbn [fst snd].
  apply doRequest_attempts in Hrun as (n & evs & Hn & Ht & Hle & Hall).
  exists n, evs. split; [exact Hn|]. split; [exact Ht|]. split; [exact Hle|].
  fold req in Hall.
  intros k retryAfter body Hk Ho.
  destruct (Hall k Hk) as [Hreq Hpost].
  unfold attempt_post in Hpost. rewrite Ho in Hpost.
  change ((200 <=? 429) && (429 <? 300)) with false in Hpost.
  change (429 =? 429) with true in Hpost. cbv iota in Hpost.
  split.
  - intros Hk3. destruct (Z.geb_spec (Z.of_nat k) 3); [lia|].
    destruct Hpost as [Hsleep Hmore].
    replace (2 * k + 1)%nat with (S (2 * k)) by lia.
    split; [|split].
    + replace (2 * k + 2)%nat with (2 * S k)%nat by lia.
      apply (Hall (S k) Hmore).
    + intros seconds Hparse Hrange.
      rewrite <- (rate_limit_wait_header retryAfter seconds (Z.of_nat k))
        by assumption.
      exact Hsleep.
    + intros Hheader.
      rewrite <- backoff_exact by lia.
      rewrite <- (rate_limit_wait_fallback retryAfter); [exact Hsleep|].
      destruct Hheader as [-> | [Hnone | (seconds & Hsome & Hle0)]].
      * reflexivity.
      * apply retry_after_wait_unparsed; assumption.
      * eapply retry_after_wait_nonpositive; eassumption.
  - intros ->. cbn in Hpost. destruct Hpost as [[Hn' Hlen] Hres].
    repeat split; auto.
    rewrite last_lookup, Hlen. exact Hreq.
Qed.

(** *** Concrete runs *)

(** Four failed round trips: sleeps of 2, 4 and 8 seconds, then the
    transport error of the last failure. *)
Example doRequest_gives_up :
  doRequest (Demo.scripted [] []) Demo.client "GET" "/rest/api/2/myself" []
    (Demo.world Demo.empty_fs)
  = (Err (Wrapped "max retries exceeded"
            (Some (Wrapped "request failed"
                     (Some (Cause "connection refused"))))),
     {| fs := Demo.empty_fs; n_http := 4; n_clock := 0; n_os := 0;
        trace := [EvHTTP (Demo.get "/rest/api/2/myself");
                  EvSleep (2 * Second);
                  EvHTTP (Demo.get "/rest/api/2/myself");
                  EvSleep (4 * Second);
                  EvHTTP (Demo.get "/rest/api/2/myself");
                  EvSleep (8 * Second);
                  EvHTTP (Demo.get "/rest/api/2/myself")] |}).
Proof. reflexivity. Qed.

(** A 429 with [Retry-After: 5], then a 404. *)
Example doRequest_retry_after_5 :
  doRequest
    (Demo.scripted [Response 429 "5" "slow down"; Response 404 "" "no issue"] [])
    Demo.client "GET" "/rest/api/2/issue/AAH-1" []
    (Demo.world Demo.empty_fs)
  = (Err (ErrAPIStatus 404 "no issue"),
     {| fs := Demo.empty_fs; n_http := 2; n_clock := 0; n_os := 0;
        trace := [EvHTTP (Demo.get "/rest/api/2/issue/AAH-1");
                  EvSleep (5 * Second);
                  EvHTTP (Demo.get "/rest/api/2/issue/AAH-1")] |}).
Proof. reflexivity. Qed.

(** C2. A 429 response carries [Retry-After: 9223372037], a positive
    whole number of seconds. The product with [time.Second] leaves the
    64-bit range of a duration: the client sleeps a negative duration,
    that is not at all, where the header asks for 9223372037 seconds. *)
Theorem doRequest_retry_after_overflow :
  Atoi "9223372037" = Some 9223372037 /\
  doRequest
    (Demo.scripted [Response 429 "9223372037" "slow down";
                    Response 200 "" "done"] [])
    Demo.client "GET" "/rest/api/2/myself" []
    (Demo.world Demo.empty_fs)
  = (Ok "done",
     {| fs := Demo.empty_fs; n_http := 2; n_clock := 0; n_os := 0;
        trace := [EvHTTP (Demo.get "/rest/api/2/myself");
                  EvSleep (-9223372036709551616);
                  EvHTTP (Demo.get "/rest/api/2/myself")] |}).
Proof. split; reflexivity. Qed.

(** A [Retry-After] of [2^55] seconds parses and is positive, and its
    duration wraps to zero: the client takes the header for missing and
    sleeps the two seconds of the exponential schedule. *)
Example doRequest_retry_after_wraps_to_zero :
  Atoi "36028797018963968" = Some (2 ^ 55) /\
  rate_limit_wait "36028797018963968" 0 = 2 * Second.
Proof. split; reflexivity. Qed.

(* ===================================================================== *)
(** ** Pagination *)

(** The inner loop keeps the keys of the page up to the limit. *)
Lemma collect_spec limit issues :
  forall allKeys,
    (0 < limit -> Z.of_nat (length allKeys) < limit) ->
    collect limit allKeys issues =
      if reaches limit (Z.of_nat (length allKeys)) (Z.of_nat (length issues))
      then ((allKeys
               ++ take (Z.to_nat (limit - Z.of_nat (length allKeys)))
                    (map Key issues))%list, true)
      else ((allKeys ++ map Key issues)%list, false).
Proof.
  unfold reaches.
  induction issues as [|i rest IH]; intros allKeys Hbelow.
  - cbn [collect length map]. rewrite app_nil_r.
    destruct (Z.ltb_spec 0 limit); cbn [andb]; [|reflexivity].
    destruct (Z.leb_spec limit (Z.of_nat (length allKeys) + Z.of_nat 0));
      [lia | reflexivity].
  - cbn [collect]. rewrite length_app. cbn [length map].
    destruct (Z.ltb_spec 0 limit) as [Hpos|Hnon]; cbn [andb].
    + specialize (Hbelow Hpos).
      destruct (Z.leb_spec limit (Z.of_nat (length allKeys + 1))) as [Hhit|Hmiss].
      * destruct (Z.leb_spec limit
                    (Z.of_nat (length allKeys) + Z.of_nat (S (length rest))));
          [|lia].
        replace (Z.to_nat (limit - Z.of_nat (length allKeys))) with 1%nat by lia.
        cbn [take]. rewrite take_0. reflexivity.
      * rewrite IH by (rewrite length_app; cbn [length]; lia).
        rewrite length_app. cbn [length].
        destruct (Z.ltb_spec 0 limit); [|lia]. cbn [andb].
        replace (Z.of_nat (length allKeys + 1) + Z.of_nat (length rest))
          with (Z.of_nat (length allKeys) + Z.of_nat (S (length rest))) by lia.
        destruct (Z.leb_spec limit
                    (Z.of_nat (length allKeys) + Z.of_nat (S (length rest)))).
        -- replace (Z.to_nat (limit - Z.of_nat (length allKeys)))
             with (S (Z.to_nat (limit - Z.of_nat (length allKeys + 1)))) by lia.
           cbn [take]. rewrite <- app_assoc. reflexivity.
        -- rewrite <- app_assoc. reflexivity.
    + rewrite IH by lia.
      destruct (Z.ltb_spec 0 limit); [lia|]. cbn [andb].
      rewrite <- app_assoc. reflexivity.
Qed.

Example collect_stops_at_limit :
  collect 2 ["AAH-9"]
    [ {| ID := "1"; Key := "AAH-1"; Self := ""; Fields := None |};
      {| ID := "2"; Key := "AAH-2"; Self := ""; Fields := None |} ]
  = (["AAH-9"; "AAH-1"], true).
Proof. reflexivity. Qed.

Section Pagination.
Context (env : Env) (json : Json) (c : Client) (jql : string) (limit : Z).

(** A finished run of the loop, page by page. *)
Lemma page_loop_pages fuel :
  forall allKeys startAt w keys w',
    page_loop env json c fuel jql limit allKeys startAt w
      = (Some (Ok keys), w') ->
    (0 < limit -> Z.of_nat (length allKeys) < limit) ->
    exists pages last,
      served env json c jql (pages ++ [last]) startAt w w' /\
      continues limit (Z.of_nat (length allKeys)) startAt pages /\
      let got := concat (map page_keys pages) in
      let count := Z.of_nat (length allKeys) + Z.of_nat (length got) in
      if reaches limit count (page_length last)
      then keys = (allKeys ++ got
                     ++ take (Z.to_nat (limit - count)) (page_keys last))%list
      else startAt + Z.of_nat (length got) + page_length last >= Total last /\
           keys = (allKeys ++ got ++ page_keys last)%list.
Proof.
  induction fuel as [|fuel IH]; intros allKeys startAt w keys w' Hrun Hbelow.
  - discriminate Hrun.
  - cbn [page_loop] in Hrun. unfold bind in Hrun.
    destruct (Search env json c jql (batchSize c) startAt w) as [r w1] eqn:Hsearch.
    destruct r as [p|e]; [|discriminate Hrun].
    rewrite (collect_spec limit (Issues p) allKeys Hbelow) in Hrun.
    fold (page_length p) in Hrun.
    destruct (reaches limit (Z.of_nat (length allKeys)) (page_length p)) eqn:Hreach.
    + inversion Hrun; subst. exists [], p. cbn.
      change (Z.of_nat 0) with 0. rewrite !Z.add_0_r, Hreach.
      repeat split; eauto.
    + destruct (Z.geb_spec (startAt + page_length p) (Total p)) as [Hend|Hmore].
      * inversion Hrun; subst. exists [], p. cbn.
        change (Z.of_nat 0) with 0. rewrite !Z.add_0_r, Hreach.
        repeat split; eauto. lia.
      * assert (Hbelow' : 0 < limit ->
                  Z.of_nat (length (allKeys ++ map Key (Issues p))) < limit).
        { intros Hpos. rewrite length_app, length_map.
          unfold reaches, page_length in Hreach.
          destruct (Z.ltb_spec 0 limit); [|lia]. cbn [andb] in Hreach.
          apply Z.leb_gt in Hreach. lia. }
        apply IH in Hrun as (pages & last & Hserved & Hcont & Hkeys);
          [|exact Hbelow'].
        exists (p :: pages), last.
        assert (E1 : Z.of_nat (length (allKeys ++ map Key (Issues p)))
                     = Z.of_nat (length allKeys) + page_length p).
        { rewrite length_app, length_map, Nat2Z.inj_add. reflexivity. }
        assert (E2 : Z.of_nat (length (page_keys p
                                         ++ concat (map page_keys pages)))
                     = page_length p
                       + Z.of_nat (length (concat (map page_keys pages)))).
        { rewrite length_app, Nat2Z.inj_add. unfold page_keys at 1.
          rewrite length_map. reflexivity. }
        cbv zeta in Hkeys. rewrite E1 in Hcont, Hkeys.
        split; [|split].
        -- cbn [served app]. exists w1. split; [exact Hsearch|].
           destruct pages; exact Hserved.
        -- cbn [continues]. split; [lia|]. split; [|exact Hcont].
           intros Hpos. unfold reaches in Hreach.
           destruct (Z.ltb_spec 0 limit); [|lia]. cbn [andb] in Hreach.
           apply Z.leb_gt in Hreach. lia.
        -- cbn [map concat]. cbv zeta. rewrite E2, !Z.add_assoc.
           destruct (reaches limit (_ + _ + _) _).
           ++ rewrite Hkeys, <- !app_assoc. reflexivity.
           ++ destruct Hkeys as [Hge ->]. split; [lia|].
              rewrite <- !app_assoc. reflexivity.
Qed.

End Pagination.

Lemma continues_count limit pages :
  forall count startAt,
    continues limit count startAt pages ->
    0 < limit -> count < limit ->
    count + Z.of_nat (length (concat (map page_keys pages))) < limit.
Proof.
  induction pages as [|p pages IH]; intros count startAt Hcont Hpos Hlt.
  - cbn. lia.
  - cbn [continues] in Hcont. destruct Hcont as (_ & Hp & Hrest).
    cbn [map concat]. rewrite length_app, Nat2Z.inj_add.
    unfold page_keys at 1. rewrite length_map. fold (page_length p).
    specialize (IH _ _ Hrest Hpos (Hp Hpos)). lia.
Qed.

(** C4, as the code has it. A finished enumeration received its pages from
    successive searches, each at the offset advanced by the lengths of the
    pages before it. The last page is the first one on which a positive
    limit is reached or on which the offset plus the number of issues of
    the page reaches the total the page reports: no search follows it.
    With a limit [N > 0] at most [N] keys are returned, the keys received
    cut at [N]; otherwise all keys received are returned. *)
Theorem GetAllIssuesInProject_stops
    (env : Env) (json : Json) (c : Client) (fuel : nat)
    (project orderBy : string) (limit : Z) (w w' : World) (keys : list string) :
  GetAllIssuesInProject env json c fuel project orderBy limit w
    = (Some (Ok keys), w') ->
  let jql := "project = " +:+ project +:+ " ORDER BY " +:+
             (if String.eqb orderBy "" then "updated DESC" else orderBy) in
  exists pages last,
    served env json c jql (pages ++ [last]) 0 w w' /\
    continues limit 0 0 pages /\
    let got := concat (map page_keys pages) in
    let count := Z.of_nat (length got) in
    (0 < limit -> Z.of_nat (length keys) <= limit) /\
    if reaches limit count (page_length last)
    then keys = (got ++ take (Z.to_nat (limit - count)) (page_keys last))%list
    else count + page_length last >= Total last /\
         keys = (got ++ page_keys last)%list.
Proof.
  unfold GetAllIssuesInProject. intros Hrun. cbv zeta.
  apply page_loop_pages in Hrun as (pages & last & Hserved & Hcont & Hkeys);
    [|cbn; lia].
  exists pages, last. cbn [length app] in Hcont, Hkeys.
  change (Z.of_nat 0) with 0 in Hcont, Hkeys. cbv zeta in Hkeys.
  rewrite !Z.add_0_l in Hkeys.
  split; [exact Hserved|]. split; [exact Hcont|]. cbv zeta. split.
  - intros Hpos.
    pose proof (continues_count limit pages 0 0 Hcont Hpos Hpos) as Hgot.
    unfold reaches in Hkeys.
    destruct (Z.ltb_spec 0 limit); [|lia]. cbn [andb] in Hkeys.
    destruct (Z.leb_spec limit
                (Z.of_nat (length (concat (map page_keys pages)))
                 + page_length last)) as [Hhit|Hmiss].
    + rewrite Hkeys, length_app, length_take. lia.
    + destruct Hkeys as [_ ->]. rewrite length_app.
      unfold page_keys at 2. rewrite length_map.
      unfold page_length in Hmiss. lia.
  - exact Hkeys.
Qed.

(** C4 as stated fails where the server sends pages shorter than the
    batch size. The batch size is 10; the first page holds one issue of a
    total of two, so that offset plus batch size (0 + 10) has reached the
    total; a second search is made all the same, at offset 1. *)
Lemma GetAllIssuesInProject_short_pages :
  let env := Demo.scripted [Response 200 "" "page-1";
                            Response 200 "" "page-2"] [] in
  let json :=
    Demo.json [("page-1", Demo.mk_page 0 2 [Demo.mk_issue "10001" "AAH-1"]);
               ("page-2", Demo.mk_page 1 2 [Demo.mk_issue "10002" "AAH-2"])]
      [] [] in
  let run := GetAllIssuesInProject env json Demo.client 5 "AAH" "" 0
               (Demo.world Demo.empty_fs) in
  batchSize Demo.client = 10 /\
  0 + batchSize Demo.client >= 2 /\
  fst run = Some (Ok ["AAH-1"; "AAH-2"]) /\
  trace (snd run) =
    [EvHTTP (search_request Demo.client Demo.jql 0);
     EvSleep (500 * Millisecond);
     EvHTTP (search_request Demo.client Demo.jql 1)].
Proof. cbv zeta. repeat split; try reflexivity. cbn. lia. Qed.

Lemma GetAllIssuesInProject_stops_witness :
  let env := Demo.scripted [Response 200 "" "page-1";
                            Response 200 "" "page-2"] [] in
  let json :=
    Demo.json [("page-1", Demo.mk_page 0 3 [Demo.mk_issue "10001" "AAH-1"]);
               ("page-2", Demo.mk_page 1 3 [Demo.mk_issue "10002" "AAH-2";
                                            Demo.mk_issue "10003" "AAH-3"])]
      [] [] in
  let w := Demo.world Demo.empty_fs in
  let run := GetAllIssuesInProject env json Demo.client 5 "AAH" "" 2 w in
  let keys := ["AAH-1"; "AAH-2"] in
  exists pages last,
    served env json Demo.client Demo.jql (pages ++ [last]) 0 w (snd run) /\
    continues 2 0 0 pages /\
    let got := concat (map page_keys pages) in
    let count := Z.of_nat (length got) in
    (0 < 2 -> Z.of_nat (length keys) <= 2) /\
    if reaches 2 count (page_length last)
    then keys = (got ++ take (Z.to_nat (2 - count)) (page_keys last))%list
    else count + page_length last >= Total last /\
         keys = (got ++ page_keys last)%list.
Proof.
  cbv zeta.
  apply (GetAllIssuesInProject_stops
           (Demo.scripted [Response 200 "" "page-1";
                           Response 200 "" "page-2"] [])
           (Demo.json
              [("page-1", Demo.mk_page 0 3 [Demo.mk_issue "10001" "AAH-1"]);
               ("page-2", Demo.mk_page 1 3 [Demo.mk_issue "10002" "AAH-2";
                                            Demo.mk_issue "10003" "AAH-3"])]
              [] [])
           Demo.client 5 "AAH" "" 2 (Demo.world Demo.empty_fs)).
  reflexivity.
Defined.

Section Stall.
Context (env : Env) (json : Json) (c : Client) (jql : string) (limit : Z).

(** A search answered at the first round trip. *)
Lemma Search_answered startAt w status retryAfter body page :
  new_request env "GET" (req_url (search_request c jql startAt))
    (req_query (search_request c jql startAt)) = None ->
  http_do env (n_http w) (search_request c jql startAt)
    = Response status retryAfter body ->
  200 <= status < 300 ->
  unmarshal_search json body = Ok page ->
  Search env json c jql (batchSize c) startAt w
  = (Ok page,
     {| fs := fs w; n_http := S (n_http w); n_clock := n_clock w;
        n_os := n_os w;
        trace := (trace w ++ [EvHTTP (search_request c jql startAt)])%list |}).
Proof.
  intros Hnew Hdo [Hlo Hhi] Hjson.
  unfold Search, doRequest, doRequestWithRetry, bind.
  change (Z.to_nat (3 + 1)) with 4%nat. cbn [retry_loop].
  unfold search_request in Hnew, Hdo. cbn [req_url req_query mkRequest] in Hnew.
  rewrite Hnew. unfold bind, round_trip. rewrite Hdo.
  destruct (Z.leb_spec 200 status); [|lia].
  destruct (Z.ltb_spec status 300); [|lia].
  cbn [andb ret]. rewrite Hjson. reflexivity.
Qed.

(** The loop moves on by the number of issues received. *)
Lemma page_loop_advances fuel allKeys startAt w page w1 keys :
  Search env json c jql (batchSize c) startAt w = (Ok page, w1) ->
  collect limit allKeys (Issues page) = (keys, false) ->
  startAt + page_length page < Total page ->
  page_loop env json c (S fuel) jql limit allKeys startAt w
  = page_loop env json c fuel jql limit keys (startAt + page_length page)
      (snd (Sleep (500 * Millisecond) w1)).
Proof.
  intros Hsearch Hcollect Hmore. cbn [page_loop]. unfold bind at 1.
  rewrite Hsearch, Hcollect. fold (page_length page).
  destruct (Z.geb_spec (startAt + page_length page) (Total page)); [lia|].
  reflexivity.
Qed.

(** As long as the server answers the search at an offset below the total
    with an empty page, the loop searches again at that offset. *)
Lemma page_loop_never_returns allKeys startAt fuel :
  forall w,
    new_request env "GET" (req_url (search_request c jql startAt))
      (req_query (search_request c jql startAt)) = None ->
    (forall m, (n_http w <= m)%nat ->
       exists status retryAfter body page,
         http_do env m (search_request c jql startAt)
           = Response status retryAfter body /\
         200 <= status < 300 /\
         unmarshal_search json body = Ok page /\
         Issues page = [] /\ startAt < Total page) ->
    fst (page_loop env json c fuel jql limit allKeys startAt w) = None.
Proof.
  induction fuel as [|fuel IH]; intros w Hnew Hserver.
  - reflexivity.
  - destruct (Hserver (n_http w) (Nat.le_refl _))
      as (status & retryAfter & body & page & Hdo & H2xx & Hjson & Hempty & Hlt).
    pose proof (Search_answered startAt w status retryAfter body page
                  Hnew Hdo H2xx Hjson) as Hsearch.
    rewrite (page_loop_advances fuel allKeys startAt w page _ allKeys Hsearch).
    + unfold page_length. rewrite Hempty. cbn [length].
      change (Z.of_nat 0) with 0. rewrite Z.add_0_r.
      apply IH; [exact Hnew|].
      intros m Hm. apply Hserver. cbn in Hm. lia.
    + rewrite Hempty. reflexivity.
    + unfold page_length. rewrite Hempty. cbn [length]. lia.
Qed.

End Stall.

(** C9, as the code has it. The loop advances its offset by the number of
    issues of the page received, not by the batch size requested. When a
    page is empty while the offset is below the total, the loop sleeps and
    searches again at the same offset; it never returns if the server goes
    on answering the search at that offset in this way. *)
Theorem pagination_advances_by_page_length
    (env : Env) (json : Json) (c : Client) (jql : string) (limit : Z) :
  (forall fuel allKeys startAt w page w1 keys,
     Search env json c jql (batchSize c) startAt w = (Ok page, w1) ->
     collect limit allKeys (Issues page) = (keys, false) ->
     startAt + page_length page < Total page ->
     page_loop env json c (S fuel) jql limit allKeys startAt w
     = page_loop env json c fuel jql limit keys (startAt + page_length page)
         (snd (Sleep (500 * Millisecond) w1))) /\
  (forall allKeys startAt w,
     new_request env "GET" (req_url (search_request c jql startAt))
       (req_query (search_request c jql startAt)) = None ->
     (forall m, (n_http w <= m)%nat ->
        exists status retryAfter body page,
          http_do env m (search_request c jql startAt)
            = Response status retryAfter body /\
          200 <= status < 300 /\
          unmarshal_search json body = Ok page /\
          Issues page = [] /\ startAt < Total page) ->
     forall fuel,
       fst (page_loop env json c fuel jql limit allKeys startAt w) = None).
Proof.
  split.
  - intros. eapply page_loop_advances; eassumption.
  - intros. apply page_loop_never_returns; assumption.
Qed.

(** A server that answers every search with an empty page of a total of
    five: the enumeration is still running after seven pages. *)
Lemma pagination_advances_by_page_length_witness :
  let env :=
    {| new_request := fun _ _ _ => None;
       http_do := fun _ _ => Response 200 "" "empty";
       clock := fun n => Z.of_nat n * Second;
       os_fail := fun _ => None |} in
  let json := Demo.json [("empty", Demo.mk_page 0 5 [])] [] [] in
  fst (page_loop env json Demo.client 7 Demo.jql 0 [] 0
         (Demo.world Demo.empty_fs)) = None.
Proof.
  cbv zeta.
  refine (proj2 (pagination_advances_by_page_length
                   {| new_request := fun _ _ _ => None;
                      http_do := fun _ _ => Response 200 "" "empty";
                      clock := fun n => Z.of_nat n * Second;
                      os_fail := fun _ => None |}
                   (Demo.json [("empty", Demo.mk_page 0 5 [])] [] [])
                   Demo.client Demo.jql 0)
            [] 0 (Demo.world Demo.empty_fs) _ _ 7%nat).
  - reflexivity.
  - intros m _. exists 200, "", "empty", (Demo.mk_page 0 5 []).
    repeat split; try reflexivity; cbn; lia.
Defined.

(** C9 as stated fails: the first page is empty while the offset (0) is
    below the total (1) and no limit is set; the server answers the
    repeated search with the issue, and the enumeration returns. *)
Lemma pagination_resumes_after_empty_page :
  let env := Demo.scripted [Response 200 "" "empty";
                            Response 200 "" "page"] [] in
  let json :=
    Demo.json [("empty", Demo.mk_page 0 1 []);
               ("page", Demo.mk_page 0 1 [Demo.mk_issue "10001" "AAH-1"])]
      [] [] in
  let run := GetAllIssuesInProject env json Demo.client 2 "AAH" "" 0
               (Demo.world Demo.empty_fs) in
  unmarshal_search json "empty" = Ok (Demo.mk_page 0 1 []) /\
  0 < Total (Demo.mk_page 0 1 []) /\
  fst run = Some (Ok ["AAH-1"]) /\
  trace (snd run) =
    [EvHTTP (search_request Demo.client Demo.jql 0);
     EvSleep (500 * Millisecond);
     EvHTTP (search_request Demo.client Demo.jql 0)].
Proof. cbv zeta. repeat split; try reflexivity. Qed.

(* ===================================================================== *)
(** ** The cache *)

Lemma append_json_nonempty s : String.eqb (s +:+ ".json") "" = false.
Proof. destruct s; reflexivity. Qed.

Lemma Join_rel_path name :
  cache.Join [".."; "by_id"; name +:+ ".json"] = "../by_id/" +:+ name +:+ ".json".
Proof.
  cbn [cache.Join]. rewrite append_json_nonempty. cbn.
  destruct name; reflexivity.
Qed.

Lemma strip_prefix_app prefix s : cache.strip_prefix prefix (prefix +:+ s) = Some s.
Proof.
  induction prefix as [|a prefix IH]; [reflexivity|].
  change (String a prefix +:+ s) with (String a (prefix +:+ s)).
  cbn [cache.strip_prefix]. rewrite Ascii.eqb_refl. exact IH.
Qed.

(** The link of an issue leads to its by_id file. *)
Lemma key_link_target issue :
  cache.link_target (cache.Join [".."; "by_id"; id_name issue])
  = Some (id_name issue).
Proof.
  unfold id_name. rewrite Join_rel_path. unfold cache.link_target.
  apply strip_prefix_app.
Qed.

Example Join_id_path :
  id_path Demo.disk (Demo.mk_history "10001" "AAH-1")
  = ".data/jira/jira.example.org/by_id/10001.json".
Proof. reflexivity. Qed.

Example Join_flat_layout :
  key_path (cache.New "cache") (Demo.mk_history "10001" "AAH-1")
  = "cache/by_key/AAH-1.json".
Proof. reflexivity. Qed.

Section WriteIssue.
Context (env : Env) (json : Json) (d : cache.DiskCache).
Context (issue : IssueWithHistory) (duration : Z) (w : World).

Let cached := envelope (clock env (n_clock w)) issue duration.
Let run := cache.WriteIssue env json d issue duration w.

(** Marshalling fails: nothing is written. *)
Lemma WriteIssue_marshal_fails e :
  marshal_cached json cached = Err e ->
  fst run = Err (wrap_err "failed to marshal issue" e) /\
  fs (snd run) = fs w /\ trace (snd run) = trace w /\ n_os (snd run) = n_os w.
Proof.
  intros Hm. subst run cached. unfold cache.WriteIssue, bind, Now, envelope in *.
  rewrite Hm. cbn. auto.
Qed.

(** The OS refuses the by_id write: nothing is written. *)
Lemma WriteIssue_write_refused data cause :
  marshal_cached json cached = Ok data ->
  os_fail env (n_os w) = Some cause ->
  fst run = Err (wrap_err "failed to write issue file" (Cause cause)) /\
  fs (snd run) = fs w /\ trace (snd run) = trace w /\
  n_os (snd run) = S (n_os w).
Proof.
  intros Hm Hos. subst run cached.
  unfold cache.WriteIssue, bind, Now, envelope in *. rewrite Hm.
  unfold cache.WriteFile_by_id, cache.os_call, bind. cbn. rewrite Hos. cbn.
  auto.
Qed.

(** The by_id write goes through: the call succeeds whatever becomes of
    the by_key entry. *)
Lemma WriteIssue_written data :
  marshal_cached json cached = Ok data ->
  os_fail env (n_os w) = None ->
  fst run = Ok (id_path d issue) /\
  by_id (fs (snd run)) = <[id_name issue := data]> (by_id (fs w)) /\
  n_os (snd run) = S (S (S (n_os w))) /\
  by_key (fs (snd run)) =
    (let removed :=
       match os_fail env (S (n_os w)) with
       | Some _ => by_key (fs w)
       | None => delete (key_name issue) (by_key (fs w))
       end in
     match os_fail env (S (S (n_os w))) with
     | Some _ => removed
     | None =>
         match removed !! key_name issue with
         | Some _ => removed
         | None => <[key_name issue := key_link issue]> removed
         end
     end) /\
  trace (snd run) =
    (trace w ++
     match os_fail env (S (S (n_os w))) with
     | Some cause => [EvWarn (key_path d issue) cause]
     | None =>
         match os_fail env (S (n_os w)), by_key (fs w) !! key_name issue with
         | Some _, Some _ => [EvWarn (key_path d issue) "file exists"]
         | _, _ => []
         end
     end)%list.
Proof.
  intros Hm Hos. subst run cached.
  unfold cache.WriteIssue, bind, Now, envelope in *. rewrite Hm.
  unfold cache.WriteFile_by_id, cache.Remove_by_key, cache.Symlink_by_key,
    cache.os_call, cache.get_fs, cache.set_fs, bind, ret, emit.
  fold (id_name issue) (key_name issue).
  fold (id_path d issue) (key_path d issue). fold (key_link issue).
  generalize (id_path d issue) (key_path d issue) (key_link issue)
    (id_name issue) (key_name issue).
  intros ip kp kl idn kn.
  simpl. rewrite Hos. simpl.
  destruct (os_fail env (S (n_os w))) as [c1|]; simpl.
  - destruct (os_fail env (S (S (n_os w)))) as [c2|]; simpl.
    + auto.
    + destruct (by_key (fs w) !! kn) as [old|] eqn:Hold; simpl.
      * auto.
      * rewrite app_nil_r. auto.
  - destruct (by_key (fs w) !! kn) as [old|] eqn:Hold; simpl.
    + destruct (os_fail env (S (S (n_os w)))) as [c2|]; simpl.
      * auto.
      * rewrite !lookup_delete_eq, app_nil_r. auto.
    + destruct (os_fail env (S (S (n_os w)))) as [c2|]; simpl.
      * rewrite delete_id by exact Hold. auto.
      * rewrite ?Hold, ?lookup_delete_eq, app_nil_r, delete_id by exact Hold.
        auto.
Qed.

End WriteIssue.

(** C6. [WriteIssue] succeeds exactly when the envelope is written to its
    by_id file: the envelope marshals and the OS does not refuse the write,
    which is the first file-system call [WriteIssue] makes. On success the
    by_id file holds the envelope and its path is returned; when the OS
    refuses neither the removal nor the link, the by_key entry, whatever
    it was, is the link to the by_id file and nothing is reported; when
    the link cannot be made (the OS refuses it, or it refused the removal
    and the old entry is in the way), a warning is written and the call
    succeeds all the same. *)
Theorem WriteIssue_succeeds_iff_by_id_written
    (env : Env) (json : Json) (d : cache.DiskCache)
    (issue : IssueWithHistory) (duration : Z) (w : World) :
  let cached := envelope (clock env (n_clock w)) issue duration in
  let run := cache.WriteIssue env json d issue duration w in
  (is_ok (fst run) = true <->
   exists data, marshal_cached json cached = Ok data /\
                os_fail env (n_os w) = None) /\
  (forall data,
     marshal_cached json cached = Ok data -> os_fail env (n_os w) = None ->
     fst run = Ok (id_path d issue) /\
     by_id (fs (snd run)) = <[id_name issue := data]> (by_id (fs w)) /\
     (os_fail env (S (n_os w)) = None ->
      os_fail env (S (S (n_os w))) = None ->
      by_key (fs (snd run))
        = <[key_name issue := key_link issue]> (by_key (fs w)) /\
      trace (snd run) = trace w) /\
     (forall cause,
        os_fail env (S (S (n_os w))) = Some cause ->
        trace (snd run) = (trace w ++ [EvWarn (key_path d issue) cause])%list) /\
     (forall cause old,
        os_fail env (S (n_os w)) = Some cause ->
        os_fail env (S (S (n_os w))) = None ->
        by_key (fs w) !! key_name issue = Some old ->
        by_key (fs (snd run)) = by_key (fs w) /\
        trace (snd run)
        = (trace w ++ [EvWarn (key_path d issue) "file exists"])%list)).
Proof.
  intros cached run. split.
  - destruct (marshal_cached json cached) as [data|e] eqn:Hm.
    + destruct (os_fail env (n_os w)) as [cause|] eqn:Hos.
      * destruct (WriteIssue_write_refused env json d issue duration w
                    data cause Hm Hos) as (Hres & _).
        fold run in Hres. rewrite Hres. cbn. split; [discriminate|].
        intros (data' & _ & Hnone). discriminate Hnone.
      * destruct (WriteIssue_written env json d issue duration w data Hm Hos)
          as (Hres & _).
        fold run in Hres. rewrite Hres. cbn. split; [eauto|reflexivity].
    + destruct (WriteIssue_marshal_fails env json d issue duration w e Hm)
        as (Hres & _).
      fold run in Hres. rewrite Hres. cbn. split; [discriminate|].
      intros (data' & Hok & _). discriminate Hok.
  - intros data Hm Hos.
    destruct (WriteIssue_written env json d issue duration w data Hm Hos)
      as (Hres & Hid & _ & Hkey & Htrace).
    fold run in Hres, Hid, Hkey, Htrace.
    split; [exact Hres|]. split; [exact Hid|]. split; [|split].
    + intros Hrm Hln. rewrite Hrm, Hln in Hkey. rewrite Hrm, Hln in Htrace.
      cbv zeta in Hkey. rewrite lookup_delete_eq in Hkey.
      rewrite insert_delete_eq in Hkey.
      rewrite app_nil_r in Htrace. auto.
    + intros cause Hln. rewrite Hln in Htrace. exact Htrace.
    + intros cause old Hrm Hln Hold.
      rewrite Hrm, Hln in Hkey. rewrite Hrm, Hln, Hold in Htrace.
      cbv zeta in Hkey. rewrite Hold in Hkey. auto.
Qed.

(** The platform refuses symbolic links (the third file-system call): the
    write succeeds, the envelope is in by_id, and the warning is all that
    is reported. *)
Lemma WriteIssue_succeeds_iff_by_id_written_witness :
  let env := Demo.scripted [] [2%nat] in
  let json := Demo.json [] [] [] in
  let issue := Demo.mk_history "10001" "AAH-1" in
  let run := cache.WriteIssue env json Demo.disk issue 0
               (Demo.world Demo.empty_fs) in
  is_ok (fst run) = true /\
  fst run = Ok ".data/jira/jira.example.org/by_id/10001.json" /\
  trace (snd run)
  = [EvWarn ".data/jira/jira.example.org/by_key/AAH-1.json"
       "permission denied"].
Proof.
  intros env json issue run.
  destruct (WriteIssue_succeeds_iff_by_id_written env json Demo.disk issue 0
              (Demo.world Demo.empty_fs)) as [Hiff Hok].
  fold run in Hiff, Hok.
  destruct (Hok _ eq_refl eq_refl) as (Hres & _ & _ & Hwarn & _).
  split; [|split].
  - apply Hiff. eexists. split; reflexivity.
  - exact Hres.
  - exact (Hwarn "permission denied" eq_refl).
Defined.

(** *** Reading back *)

Section ReadBack.
Context (env : Env) (json : Json) (d : cache.DiskCache).

(** The by_key entry of an issue, once it is the link [WriteIssue] makes,
    reads the by_id file of the issue. *)
Lemma read_by_key_link t issue :
  by_key t !! key_name issue = Some (key_link issue) ->
  cache.read_by_key t (key_name issue) = cache.read_by_id t (id_name issue).
Proof.
  intros Hlink. unfold cache.read_by_key. rewrite Hlink.
  unfold key_link. rewrite key_link_target. reflexivity.
Qed.

(** After a successful write the by_id file holds the marshalled
    envelope. *)
Lemma WriteIssue_stores issue duration w path w1 :
  cache.WriteIssue env json d issue duration w = (Ok path, w1) ->
  exists data,
    marshal_cached json (envelope (clock env (n_clock w)) issue duration)
      = Ok data /\
    cache.read_by_id (fs w1) (id_name issue) = Some data.
Proof.
  intros Hrun.
  destruct (marshal_cached json
              (envelope (clock env (n_clock w)) issue duration))
    as [data|e] eqn:Hm.
  - destruct (os_fail env (n_os w)) as [cause|] eqn:Hos.
    + destruct (WriteIssue_write_refused env json d issue duration w
                  data cause Hm Hos) as (Hres & _).
      rewrite Hrun in Hres. discriminate Hres.
    + destruct (WriteIssue_written env json d issue duration w data Hm Hos)
        as (_ & Hid & _).
      rewrite Hrun in Hid. cbn [snd] in Hid.
      exists data. split; [reflexivity|].
      unfold cache.read_by_id. rewrite Hid. apply lookup_insert_eq.
  - destruct (WriteIssue_marshal_fails env json d issue duration w e Hm)
      as (Hres & _).
    rewrite Hrun in Hres. discriminate Hres.
Qed.

End ReadBack.

(** C7, as the code has it. After a successful [WriteIssue] that left the
    by_key entry as the link to the by_id file, [GetIssue] on the key and
    [GetIssueByID] on the id return the same result, read from the same
    by_id file. What is read back is the envelope stamped with the clock
    reading taken by that write: of two writes, the later stores a
    strictly greater timestamp exactly when its clock reading is strictly
    greater. *)
Theorem WriteIssue_read_back
    (env : Env) (json : Json) (d : cache.DiskCache)
    (issue1 issue2 : IssueWithHistory) (duration1 duration2 : Z)
    (w w1 w2 w3 : World) (path1 path2 : string) :
  cache.WriteIssue env json d issue1 duration1 w = (Ok path1, w1) ->
  cache.WriteIssue env json d issue2 duration2 w2 = (Ok path2, w3) ->
  let e1 := envelope (clock env (n_clock w)) issue1 duration1 in
  let e2 := envelope (clock env (n_clock w2)) issue2 duration2 in
  (forall data, marshal_cached json e1 = Ok data ->
                unmarshal_cached json data = Ok e1) ->
  (forall data, marshal_cached json e2 = Ok data ->
                unmarshal_cached json data = Ok e2) ->
  (by_key (fs w1) !! key_name issue1 = Some (key_link issue1) ->
   cache.GetIssue json (Key (to_Issue issue1)) w1
   = cache.GetIssueByID json (ID (to_Issue issue1)) w1) /\
  (by_key (fs w3) !! key_name issue2 = Some (key_link issue2) ->
   cache.GetIssue json (Key (to_Issue issue2)) w3
   = cache.GetIssueByID json (ID (to_Issue issue2)) w3) /\
  cache.GetIssueByID json (ID (to_Issue issue1)) w1 = (Ok e1, w1) /\
  cache.GetIssueByID json (ID (to_Issue issue2)) w3 = (Ok e2, w3) /\
  (FetchedAt (CacheMetadata_ e1) < FetchedAt (CacheMetadata_ e2) <->
   clock env (n_clock w) < clock env (n_clock w2)).
Proof.
  intros Hrun1 Hrun2 e1 e2 Hcodec1 Hcodec2.
  assert (Hlink : forall issue t,
            by_key t !! key_name issue = Some (key_link issue) ->
            forall w0, fs w0 = t ->
            cache.GetIssue json (Key (to_Issue issue)) w0
            = cache.GetIssueByID json (ID (to_Issue issue)) w0).
  { intros issue t Hl w0 <-.
    unfold cache.GetIssue, cache.GetIssueByID, cache.get_fs, bind, ret.
    fold (key_name issue) (id_name issue).
    rewrite (read_by_key_link _ _ Hl). reflexivity. }
  assert (Hread : forall issue duration wa wb path e,
            cache.WriteIssue env json d issue duration wa = (Ok path, wb) ->
            e = envelope (clock env (n_clock wa)) issue duration ->
            (forall data, marshal_cached json e = Ok data ->
                          unmarshal_cached json data = Ok e) ->
            cache.GetIssueByID json (ID (to_Issue issue)) wb = (Ok e, wb)).
  { intros issue duration wa wb path e Hrun -> Hcodec.
    apply WriteIssue_stores in Hrun as (data & Hm & Hfile).
    unfold cache.GetIssueByID, cache.get_fs, bind, ret.
    fold (id_name issue). rewrite Hfile.
    unfold cache.readIssueFile. rewrite (Hcodec data Hm). reflexivity. }
  split; [intros Hl; eapply Hlink; eauto|].
  split; [intros Hl; eapply Hlink; eauto|].
  split; [eapply Hread; eauto|].
  split; [eapply Hread; eauto|].
  reflexivity.
Qed.

Lemma WriteIssue_read_back_witness :
  let issue := Demo.mk_history "10001" "AAH-1" in
  let e1 := envelope (0 * Second) issue 0 in
  let e2 := envelope (1 * Second) issue 0 in
  let env := Demo.scripted [] [] in
  let json := Demo.json [] [] [e1; e2] in
  let w := Demo.world Demo.empty_fs in
  let w1 := snd (cache.WriteIssue env json Demo.disk issue 0 w) in
  let w3 := snd (cache.WriteIssue env json Demo.disk issue 0 w1) in
  (by_key (fs w1) !! key_name issue = Some (key_link issue) ->
   cache.GetIssue json "AAH-1" w1 = cache.GetIssueByID json "10001" w1) /\
  (by_key (fs w3) !! key_name issue = Some (key_link issue) ->
   cache.GetIssue json "AAH-1" w3 = cache.GetIssueByID json "10001" w3) /\
  cache.GetIssueByID json "10001" w1 = (Ok e1, w1) /\
  cache.GetIssueByID json "10001" w3 = (Ok e2, w3) /\
  (FetchedAt (CacheMetadata_ e1) < FetchedAt (CacheMetadata_ e2) <->
   clock env 0 < clock env 1).
Proof.
  intros issue e1 e2 env json w w1 w3.
  assert (Hrun1 : cache.WriteIssue env json Demo.disk issue 0 w
                  = (Ok (id_path Demo.disk issue), w1)).
  { unfold w1. apply pair_eta. vm_compute. reflexivity. }
  assert (Hrun2 : cache.WriteIssue env json Demo.disk issue 0 w1
                  = (Ok (id_path Demo.disk issue), w3)).
  { unfold w3. apply pair_eta. vm_compute. reflexivity. }
  refine (WriteIssue_read_back env json Demo.disk issue issue 0 0 w w1 w1 w3
            (id_path Demo.disk issue) (id_path Demo.disk issue)
            Hrun1 Hrun2 _ _).
  - intros data Hm. inversion Hm; subst. vm_compute. reflexivity.
  - intros data Hm. inversion Hm; subst. vm_compute. reflexivity.
Defined.

(** C7 as stated fails where the clock is set back between two writes of
    the same issue (the timestamp is the wall clock's): both writes
    succeed and establish the by_key link, both paths read the same
    envelope after each, and the timestamp of the second envelope is the
    smaller one. *)
Lemma WriteIssue_timestamp_follows_clock :
  let issue := Demo.mk_history "10001" "AAH-1" in
  let e1 := envelope (2000 * Second) issue 0 in
  let e2 := envelope (1000 * Second) issue 0 in
  let env := Demo.with_clock [2000 * Second; 1000 * Second]
               (Demo.scripted [] []) in
  let json := Demo.json [] [] [e1; e2] in
  let run1 := cache.WriteIssue env json Demo.disk issue 0
                (Demo.world Demo.empty_fs) in
  let run2 := cache.WriteIssue env json Demo.disk issue 0 (snd run1) in
  is_ok (fst run1) = true /\ is_ok (fst run2) = true /\
  by_key (fs (snd run1)) !! "AAH-1.json" = Some (Link "../by_id/10001.json") /\
  by_key (fs (snd run2)) !! "AAH-1.json" = Some (Link "../by_id/10001.json") /\
  fst (cache.GetIssueByID json "10001" (snd run1)) = Ok e1 /\
  fst (cache.GetIssue json "AAH-1" (snd run1)) = Ok e1 /\
  fst (cache.GetIssueByID json "10001" (snd run2)) = Ok e2 /\
  fst (cache.GetIssue json "AAH-1" (snd run2)) = Ok e2 /\
  ~ FetchedAt (CacheMetadata_ e1) < FetchedAt (CacheMetadata_ e2).
Proof.
  cbv zeta. repeat split; try (vm_compute; reflexivity).
  vm_compute. discriminate.
Qed.

(* ===================================================================== *)
(** ** The orchestrator *)

Lemma append_inj_l p a b : p +:+ a = p +:+ b -> a = b.
Proof.
  induction p as [|x p IH]; intros H; [exact H|].
  change (String x (p +:+ a) = String x (p +:+ b)) in H.
  inversion H. auto.
Qed.

(** The URL of an issue is not the URL of the search resource, and it
    tells the key. *)
Lemma issue_url_not_search base key :
  base +:+ issue_path key <> base +:+ "/rest/api/2/search".
Proof.
  intros H. apply append_inj_l in H. unfold issue_path in H.
  inversion H.
Qed.

Lemma issue_url_inj base key key' :
  base +:+ issue_path key = base +:+ issue_path key' -> key = key'.
Proof.
  intros H. apply append_inj_l in H. unfold issue_path in H.
  apply (append_inj_l "/rest/api/2/issue/") in H. exact H.
Qed.

Section Frames.
Context (env : Env) (json : Json) (c : Client).

Lemma Search_frame jql maxResults startAt w res w' :
  Search env json c jql maxResults startAt w = (res, w') ->
  exists evs,
    trace w' = (trace w ++ evs)%list /\
    Forall (search_event c) evs /\
    fs w' = fs w /\ n_os w' = n_os w /\ n_clock w' = n_clock w.
Proof.
  unfold Search, bind. intros Hrun.
  destruct (doRequest env c "GET" "/rest/api/2/search" _ w) as [r w1] eqn:Hdo.
  apply doRequest_frame in Hdo as (evs & Ht & Hev & Hfs & Hc & Ho & _).
  assert (w' = w1) as ->.
  { destruct r as [body|e]; [|inversion Hrun; reflexivity].
    destruct (unmarshal_search json body); inversion Hrun; reflexivity. }
  exists evs. repeat split; auto.
  eapply Forall_impl; [exact Hev|].
  intros [r'|dur|? ?]; cbn; [intros ->; reflexivity|auto|auto].
Qed.

Lemma page_loop_frame jql limit fuel :
  forall allKeys startAt w res w',
    page_loop env json c fuel jql limit allKeys startAt w = (res, w') ->
    exists evs,
      trace w' = (trace w ++ evs)%list /\
      Forall (search_event c) evs /\
      fs w' = fs w /\ n_os w' = n_os w.
Proof.
  induction fuel as [|fuel IH]; intros allKeys startAt w res w' Hrun.
  - inversion Hrun; subst. exists []. rewrite app_nil_r. auto.
  - cbn [page_loop] in Hrun. unfold bind in Hrun.
    destruct (Search env json c jql (batchSize c) startAt w) as [r w1] eqn:Hs.
    apply Search_frame in Hs as (evs & Ht & Hev & Hfs & Ho & _).
    destruct r as [page|e];
      [|inversion Hrun; subst; exists evs; auto].
    destruct (collect limit allKeys (Issues page)) as [keys reached].
    destruct reached; [inversion Hrun; subst; exists evs; auto|].
    destruct (_ >=? _); [inversion Hrun; subst; exists evs; auto|].
    unfold Sleep, emit in Hrun.
    apply IH in Hrun as (evs' & Ht' & Hev' & Hfs' & Ho'). cbn in *.
    exists (evs ++ EvSleep (500 * Millisecond) :: evs')%list.
    rewrite Ht', Ht, <- !app_assoc. cbn.
    repeat split; try congruence.
    apply Forall_app. split; [exact Hev|]. constructor; [exact I|exact Hev'].
Qed.

Lemma GetIssueWithHistory_frame key w res w' :
  GetIssueWithHistory env json c key w = (res, w') ->
  exists evs,
    trace w' = (trace w ++ evs)%list /\
    Forall (fetch_event c key) evs /\
    fs w' = fs w /\ n_os w' = n_os w.
Proof.
  unfold GetIssueWithHistory, bind, Now. intros Hrun.
  match type of Hrun with
  | context [doRequest ?e ?c ?m ?p ?q ?w0] =>
      destruct (doRequest e c m p q w0) as [r w1] eqn:Hdo
  end.
  apply doRequest_frame in Hdo as (evs & Ht & Hev & Hfs & _ & Ho & _).
  cbn in Ht, Hfs, Ho.
  assert (Hw : trace w' = trace w1 /\ fs w' = fs w1 /\ n_os w' = n_os w1).
  { destruct r as [body|e]; [|inversion Hrun; auto].
    destruct (unmarshal_history json body); inversion Hrun; auto. }
  destruct Hw as (Ht' & Hfs' & Ho').
  exists evs. repeat split; try congruence.
  eapply Forall_impl; [exact Hev|].
  intros [r'|dur|? ?]; cbn; auto.
Qed.

End Frames.

Lemma WriteIssue_frame env json d issue duration w res w' :
  cache.WriteIssue env json d issue duration w = (res, w') ->
  exists evs,
    trace w' = (trace w ++ evs)%list /\
    Forall (fun e => exists path cause, e = EvWarn path cause) evs.
Proof.
  intros Hrun.
  destruct (marshal_cached json
              (envelope (clock env (n_clock w)) issue duration))
    as [data|e] eqn:Hm.
  - destruct (os_fail env (n_os w)) as [cause|] eqn:Hos.
    + destruct (WriteIssue_write_refused env json d issue duration w
                  data cause Hm Hos) as (_ & _ & Ht & _).
      rewrite Hrun in Ht. exists []. rewrite app_nil_r. auto.
    + destruct (WriteIssue_written env json d issue duration w data Hm Hos)
        as (_ & _ & _ & _ & Ht).
      rewrite Hrun in Ht. cbn [snd] in Ht. eexists. split; [exact Ht|].
      destruct (os_fail env (S (S (n_os w)))); [repeat constructor; eauto|].
      destruct (os_fail env (S (n_os w))); [|constructor].
      destruct (by_key (fs w) !! key_name issue);
        repeat constructor; eauto.
  - destruct (WriteIssue_marshal_fails env json d issue duration w e Hm)
      as (_ & _ & Ht & _).
    rewrite Hrun in Ht. exists []. rewrite app_nil_r. auto.
Qed.

Lemma fetch_event_not_politeness c key evs :
  Forall (fetch_event c key) evs -> politeness ∉ evs.
Proof.
  intros Hall Hin. rewrite Forall_forall in Hall.
  apply Hall in Hin. cbn in Hin.
  apply retry_wait_not_500ms in Hin. contradiction.
Qed.

Section Orchestrator.
Context (env : Env) (json : Json) (s : scraper.Scraper).

Let c := scraper.client s.

(** The planning loop computes the plan of the specification and leaves
    the world as it is. *)
Lemma plan_loop_spec issueKeys :
  forall toFetch result w,
    exists result',
      scraper.plan_loop s issueKeys toFetch result w
      = ((toFetch ++ to_fetch (scraper.FullSync (scraper.config s)) (fs w)
                       issueKeys)%list, result', w) /\
      scraper.CacheHits result'
      = scraper.CacheHits result
        + cache_hits (scraper.FullSync (scraper.config s)) (fs w) issueKeys /\
      scraper.APICalls result' = scraper.APICalls result /\
      scraper.Errors result' = scraper.Errors result /\
      scraper.IssuesProcessed result' = scraper.IssuesProcessed result.
Proof.
  unfold to_fetch, cache_hits.
  induction issueKeys as [|key rest IH]; intros toFetch result w.
  - exists result. cbn.
    destruct (scraper.FullSync _); rewrite app_nil_r;
      repeat split; reflexivity || lia.
  - cbn [scraper.plan_loop].
    destruct (scraper.FullSync (scraper.config s)) eqn:Hfull.
    + destruct (IH (toFetch ++ [key])%list result w)
        as (result' & Hrun & Hhits & Hrest).
      exists result'. rewrite Hrun, <- app_assoc. cbn. auto.
    + assert (Hprobe : cache.Exists key w = (exists_in (fs w) key, w))
        by reflexivity.
      unfold bind at 1. rewrite Hprobe. cbn [List.filter].
      destruct (exists_in (fs w) key); cbn [negb].
      * destruct (IH toFetch (scraper.add_CacheHit result) w)
          as (result' & Hrun & Hhits & Hrest).
        exists result'. rewrite Hrun. cbn [length] in *. cbn in Hhits, Hrest.
        repeat split; try tauto. lia.
      * destruct (IH (toFetch ++ [key])%list result w)
          as (result' & Hrun & Hhits & Hrest).
        exists result'. rewrite Hrun, <- app_assoc. cbn. auto.
Qed.

(** The fetch loop, key by key. *)
Lemma fetch_loop_blocks toFetch :
  forall result w result' w',
    scraper.fetch_loop env json s toFetch result w = (result', w') ->
    exists blocks,
      trace w' = (trace w ++ concat (map render blocks))%list /\
      Forall2 (fun key b => Forall (fetch_event c key) (fst b)) toFetch blocks /\
      scraper.APICalls result'
      = scraper.APICalls result + count_outcomes fetched blocks /\
      scraper.Errors result'
      = scraper.Errors result
        + count_outcomes (fun o => negb (stored o)) blocks /\
      scraper.CacheHits result' = scraper.CacheHits result /\
      scraper.IssuesProcessed result' = scraper.IssuesProcessed result.
Proof.
  unfold count_outcomes.
  induction toFetch as [|key rest IH]; intros result w result' w' Hrun.
  - inversion Hrun; subst. exists []. cbn. rewrite app_nil_r.
    repeat split; auto; lia.
  - cbn [scraper.fetch_loop] in Hrun. unfold bind in Hrun.
    destruct (GetIssueWithHistory env json (scraper.client s) key w)
      as [got w1] eqn:Hget.
    apply GetIssueWithHistory_frame in Hget as (evs1 & Ht1 & Hev1 & _).
    destruct got as [[issue duration]|e].
    + destruct (cache.WriteIssue env json (scraper.cache_ s) issue duration w1)
        as [written w2] eqn:Hwrite.
      apply WriteIssue_frame in Hwrite as (evs2 & Ht2 & Hev2).
      assert (Hev : Forall (fetch_event c key) (evs1 ++ evs2)).
      { apply Forall_app. split; [exact Hev1|].
        eapply Forall_impl; [exact Hev2|].
        intros e (path & cause & ->). exact I. }
      destruct written as [path|e].
      * unfold Sleep, emit in Hrun.
        apply IH in Hrun as (blocks & Ht & Hall & Hapi & Herr & Hhit & Hproc).
        cbn in Ht, Hapi, Herr, Hhit, Hproc.
        exists (((evs1 ++ evs2)%list, Stored) :: blocks).
        split; [|split; [constructor; assumption|]].
        -- rewrite Ht, Ht2, Ht1. cbn. unfold politeness.
           rewrite <- !app_assoc. reflexivity.
        -- cbn. repeat split; try assumption; lia.
      * apply IH in Hrun as (blocks & Ht & Hall & Hapi & Herr & Hhit & Hproc).
        cbn in Ht, Hapi, Herr, Hhit, Hproc.
        exists (((evs1 ++ evs2)%list, WriteFailed) :: blocks).
        split; [|split; [constructor; assumption|]].
        -- rewrite Ht, Ht2, Ht1. cbn.
           rewrite ?app_nil_r, <- !app_assoc. reflexivity.
        -- cbn. repeat split; try assumption; lia.
    + apply IH in Hrun as (blocks & Ht & Hall & Hapi & Herr & Hhit & Hproc).
      cbn in Ht, Hapi, Herr, Hhit, Hproc.
      exists ((evs1, FetchFailed) :: blocks).
      split; [|split; [constructor; assumption|]].
      * rewrite Ht, Ht1. cbn. rewrite ?app_nil_r, <- !app_assoc. reflexivity.
      * cbn. repeat split; try assumption; lia.
Qed.

End Orchestrator.

Lemma filter_split {A} (p : A -> bool) (l : list A) :
  (length (List.filter (fun a => negb (p a)) l)
   + length (List.filter p l) = length l)%nat.
Proof.
  induction l as [|a l IH]; [reflexivity|].
  cbn [List.filter]. destruct (p a); cbn [negb length]; lia.
Qed.

Lemma count_outcomes_split blocks :
  count_outcomes fetched blocks
  + count_outcomes (fun o => negb (fetched o)) blocks
  = Z.of_nat (length blocks) /\
  count_outcomes (fun o => negb (stored o)) blocks
  = count_outcomes (fun o => negb (fetched o)) blocks
    + count_outcomes (fun o => fetched o && negb (stored o)) blocks /\
  0 <= count_outcomes (fun o => fetched o && negb (stored o)) blocks
    <= count_outcomes fetched blocks.
Proof.
  unfold count_outcomes.
  induction blocks as [|[evs o] blocks IH]; [cbn; lia|].
  cbn [List.filter snd]. destruct o; cbn [fetched stored negb andb length]; lia.
Qed.

Section ScrapeProject.
Context (env : Env) (json : Json) (s : scraper.Scraper).

Let c := scraper.client s.
Let full := scraper.FullSync (scraper.config s).

(** A run of [ScrapeProject] that returns a result: the enumeration, the
    plan, the fetch loop. *)
Lemma ScrapeProject_phases fuel project w r w' :
  scraper.ScrapeProject env json s fuel project w = (Some (Ok r), w') ->
  exists keys w1 result1 r1 w2 evs,
    GetAllIssuesInProject env json c fuel project "updated DESC"
      (scraper.Limit (scraper.config s)) (snd (Now env w))
    = (Some (Ok keys), w1) /\
    trace w1 = (trace w ++ evs)%list /\ Forall (search_event c) evs /\
    fs w1 = fs w /\
    scraper.IssuesProcessed result1 = Z.of_nat (length keys) /\
    scraper.CacheHits result1 = cache_hits full (fs w) keys /\
    scraper.APICalls result1 = 0 /\ scraper.Errors result1 = 0 /\
    scraper.fetch_loop env json s (to_fetch full (fs w) keys) result1 w1
    = (r1, w2) /\
    scraper.IssuesProcessed r = scraper.IssuesProcessed r1 /\
    scraper.CacheHits r = scraper.CacheHits r1 /\
    scraper.APICalls r = scraper.APICalls r1 /\
    scraper.Errors r = scraper.Errors r1 /\
    trace w' = trace w2.
Proof.
  unfold scraper.ScrapeProject. unfold bind at 1. unfold bind at 1.
  intros Hrun. fold c in Hrun.
  destruct (GetAllIssuesInProject env json c fuel project "updated DESC"
              (scraper.Limit (scraper.config s)) (snd (Now env w)))
    as [found w1] eqn:Henum.
  change (Now env w) with
    (clock env (n_clock w), snd (Now env w)) in Hrun.
  cbv iota in Hrun. rewrite Henum in Hrun.
  destruct found as [[keys|e]|]; try discriminate Hrun.
  unfold bind at 1 in Hrun.
  match type of Hrun with
  | context [scraper.plan_loop s keys [] ?r0 w1] =>
      destruct (plan_loop_spec s keys [] r0 w1)
        as (result1 & Hplan & Hhits & Hapi & Herr & Hproc)
  end.
  rewrite Hplan in Hrun. cbn [app fst snd] in Hrun.
  unfold bind at 1 in Hrun.
  destruct (scraper.fetch_loop env json s _ result1 w1) as [r1 w2] eqn:Hfetch.
  unfold bind, Now, ret in Hrun. inversion Hrun; subst. clear Hrun.
  unfold GetAllIssuesInProject in Henum.
  pose proof Henum as Hframe.
  apply page_loop_frame in Hframe as (evs & Ht & Hev & Hfs & _).
  cbn in Ht, Hfs, Hhits, Hapi, Herr, Hproc.
  rewrite Hfs in Hfetch, Hhits.
  exists keys, w1, result1, r1, w2, evs.
  repeat split; try assumption; try reflexivity.
Qed.

End ScrapeProject.

(** C10. A run of [ScrapeProject] that returns a result counts every
    enumerated key once: as a cache hit, as an API call, or as a fetch
    failure. [Errors] counts the fetch failures and the write failures, and
    a write failure belongs to a key already counted as an API call. Hence
    [APICalls + CacheHits <= IssuesProcessed <= APICalls + CacheHits +
    Errors]. *)
Theorem ScrapeProject_counters
    (env : Env) (json : Json) (s : scraper.Scraper) (fuel : nat)
    (project : string) (w w' : World) (r : scraper.ScrapeResult) :
  scraper.ScrapeProject env json s fuel project w = (Some (Ok r), w') ->
  exists keys fetchFailures writeFailures,
    fst (GetAllIssuesInProject env json (scraper.client s) fuel project
           "updated DESC" (scraper.Limit (scraper.config s))
           (snd (Now env w)))
    = Some (Ok keys) /\
    scraper.IssuesProcessed r = Z.of_nat (length keys) /\
    0 <= scraper.CacheHits r /\ 0 <= fetchFailures /\
    0 <= writeFailures <= scraper.APICalls r /\
    scraper.Errors r = fetchFailures + writeFailures /\
    scraper.IssuesProcessed r
    = scraper.CacheHits r + scraper.APICalls r + fetchFailures /\
    scraper.APICalls r + scraper.CacheHits r <= scraper.IssuesProcessed r /\
    scraper.IssuesProcessed r
    <= scraper.APICalls r + scraper.CacheHits r + scraper.Errors r.
Proof.
  intros Hrun.
  apply ScrapeProject_phases in Hrun
    as (keys & w1 & result1 & r1 & w2 & evs & Henum & _ & _ & _ & Hproc1
        & Hhits1 & Hapi1 & Herr1 & Hfetch & Hproc & Hhits & Hapi & Herr & _).
  apply fetch_loop_blocks in Hfetch
    as (blocks & _ & Hall & Hapi' & Herr' & Hhits' & Hproc').
  apply Forall2_length in Hall.
  destruct (count_outcomes_split blocks) as (Hsum & Hneg & Hwf).
  pose proof (filter_split (exists_in (fs w)) keys) as Hsplit.
  assert (Hkeys : Z.of_nat (length (to_fetch
                     (scraper.FullSync (scraper.config s)) (fs w) keys))
                  + cache_hits (scraper.FullSync (scraper.config s)) (fs w) keys
                  = Z.of_nat (length keys) /\
                  0 <= cache_hits (scraper.FullSync (scraper.config s))
                         (fs w) keys).
  { unfold to_fetch, cache_hits.
    destruct (scraper.FullSync (scraper.config s)); lia. }
  exists keys, (count_outcomes (fun o => negb (fetched o)) blocks),
    (count_outcomes (fun o => fetched o && negb (stored o)) blocks).
  rewrite Henum. cbn [fst].
  assert (0 <= count_outcomes (fun o => negb (fetched o)) blocks)
    by (unfold count_outcomes; lia).
  repeat split; try lia; reflexivity.
Qed.

Example ScrapeProject_incremental_run :
  let run := scraper.ScrapeProject Demo.incremental_server Demo.project_json
               Demo.incremental 3 "AAH" (Demo.world Demo.holds_AAH_1) in
  fst run = Some (Ok {| scraper.IssuesProcessed := 3; scraper.APICalls := 1;
                        scraper.CacheHits := 1; scraper.Errors := 1;
                        scraper.Duration := 5 * Second |}) /\
  trace (snd run) =
    [EvHTTP (search_request Demo.client Demo.jql 0);
     EvHTTP (issue_request Demo.client "AAH-2");
     EvHTTP (issue_request Demo.client "AAH-3");
     politeness] /\
  by_id (fs (snd run)) !! "10002.json" = None /\
  by_key (fs (snd run)) !! "AAH-3.json" = Some (Link "../by_id/10003.json").
Proof. cbv zeta. repeat split; vm_compute; reflexivity. Qed.

Lemma ScrapeProject_counters_witness :
  let run := scraper.ScrapeProject Demo.incremental_server Demo.project_json
               Demo.incremental 3 "AAH" (Demo.world Demo.holds_AAH_1) in
  let r := {| scraper.IssuesProcessed := 3; scraper.APICalls := 1;
              scraper.CacheHits := 1; scraper.Errors := 1;
              scraper.Duration := 5 * Second |} in
  exists keys fetchFailures writeFailures,
    fst (GetAllIssuesInProject Demo.incremental_server Demo.project_json
           (scraper.client Demo.incremental) 3 "AAH"
           "updated DESC" (scraper.Limit (scraper.config Demo.incremental))
           (snd (Now Demo.incremental_server (Demo.world Demo.holds_AAH_1))))
    = Some (Ok keys) /\
    scraper.IssuesProcessed r = Z.of_nat (length keys) /\
    0 <= scraper.CacheHits r /\ 0 <= fetchFailures /\
    0 <= writeFailures <= scraper.APICalls r /\
    scraper.Errors r = fetchFailures + writeFailures /\
    scraper.IssuesProcessed r
    = scraper.CacheHits r + scraper.APICalls r + fetchFailures /\
    scraper.APICalls r + scraper.CacheHits r <= scraper.IssuesProcessed r /\
    scraper.IssuesProcessed r
    <= scraper.APICalls r + scraper.CacheHits r + scraper.Errors r.
Proof.
  intros run r.
  refine (ScrapeProject_counters Demo.incremental_server Demo.project_json
            Demo.incremental 3 "AAH" (Demo.world Demo.holds_AAH_1)
            (snd run) r _).
  apply pair_eta. vm_compute. reflexivity.
Defined.

Lemma is_politeness_spec e : is_politeness e = true <-> e = politeness.
Proof.
  unfold politeness. destruct e as [r|d|? ?]; cbn; split;
    try discriminate; intros H.
  - apply Z.eqb_eq in H. congruence.
  - inversion H. apply Z.eqb_refl.
Qed.

Lemma filter_politeness_none evs :
  politeness ∉ evs -> List.filter is_politeness evs = [].
Proof.
  induction evs as [|e evs IH]; intros Hnot; [reflexivity|].
  cbn [List.filter]. destruct (is_politeness e) eqn:He.
  - apply is_politeness_spec in He. subst. exfalso. apply Hnot. left.
  - apply IH. intros Hin. apply Hnot. right. exact Hin.
Qed.

Lemma count_politeness_blocks blocks :
  Forall (fun b => politeness ∉ fst b) blocks ->
  Z.of_nat (length (List.filter is_politeness (concat (map render blocks))))
  = count_outcomes stored blocks.
Proof.
  unfold count_outcomes.
  induction blocks as [|[evs o] blocks IH]; intros Hall; [reflexivity|].
  inversion Hall as [|? ? Hb Hrest]; subst. cbn [fst] in Hb.
  cbn [map concat]. rewrite List.filter_app, length_app.
  unfold render at 1. cbn [fst snd]. rewrite List.filter_app, length_app.
  rewrite (filter_politeness_none evs Hb).
  cbn [List.filter snd]. rewrite Nat2Z.inj_add, Nat2Z.inj_add, (IH Hrest).
  destruct (stored o).
  - change (List.filter is_politeness [politeness]) with [politeness].
    cbn [length]. lia.
  - cbn [List.filter length]. lia.
Qed.

Lemma count_stored blocks :
  count_outcomes stored blocks
  + count_outcomes (fun o => negb (stored o)) blocks
  = Z.of_nat (length blocks).
Proof.
  unfold count_outcomes.
  rewrite <- (filter_split (fun b => stored (snd b)) blocks). lia.
Qed.

(** C5, as the code has it. The events of the fetch loop are, key by key,
    the events of fetching and storing the key, none of them a sleep of
    500 ms, followed by the sleep of 500 ms exactly when the key was
    stored: a failed fetch and a failed write go on to the next key
    without it. The delays made are as many as the keys less the errors
    counted. *)
Theorem fetch_loop_politeness
    (env : Env) (json : Json) (s : scraper.Scraper)
    (toFetch : list string) (result result' : scraper.ScrapeResult)
    (w w' : World) :
  scraper.fetch_loop env json s toFetch result w = (result', w') ->
  exists blocks,
    trace w' = (trace w ++ concat (map render blocks))%list /\
    Forall2 (fun key b => Forall (fetch_event (scraper.client s) key) (fst b) /\
                          politeness ∉ fst b) toFetch blocks /\
    scraper.Errors result'
    = scraper.Errors result + count_outcomes (fun o => negb (stored o)) blocks /\
    Z.of_nat (length (List.filter is_politeness (concat (map render blocks))))
    = Z.of_nat (length toFetch)
      - (scraper.Errors result' - scraper.Errors result).
Proof.
  intros Hrun.
  apply fetch_loop_blocks in Hrun as (blocks & Ht & Hall & _ & Herr & _).
  exists blocks. split; [exact Ht|].
  assert (Hall' : Forall2 (fun key b =>
                    Forall (fetch_event (scraper.client s) key) (fst b) /\
                    politeness ∉ fst b) toFetch blocks).
  { eapply Forall2_impl; [exact Hall|].
    intros key b Hb. split; [exact Hb|].
    eapply fetch_event_not_politeness; exact Hb. }
  split; [exact Hall'|]. split; [exact Herr|].
  rewrite count_politeness_blocks.
  - pose proof (count_stored blocks) as Hsum.
    apply Forall2_length in Hall. lia.
  - clear -Hall'. induction Hall' as [|key b keys blocks [_ Hb] _ IH];
      constructor; assumption.
Qed.

Lemma fetch_loop_politeness_witness :
  let result := {| scraper.IssuesProcessed := 2; scraper.APICalls := 0;
                   scraper.CacheHits := 0; scraper.Errors := 0;
                   scraper.Duration := 0 |} in
  let result' := {| scraper.IssuesProcessed := 2; scraper.APICalls := 1;
                    scraper.CacheHits := 0; scraper.Errors := 1;
                    scraper.Duration := 0 |} in
  let env := Demo.scripted [Response 404 "" "Issue Does Not Exist";
                            Response 200 "" "issue-3"] [] in
  let w := Demo.world Demo.empty_fs in
  let w' := snd (scraper.fetch_loop env Demo.project_json Demo.incremental
                   ["AAH-2"; "AAH-3"] result w) in
  exists blocks,
    trace w' = (trace w ++ concat (map render blocks))%list /\
    Forall2 (fun key b =>
               Forall (fetch_event (scraper.client Demo.incremental) key) (fst b)
               /\ politeness ∉ fst b) ["AAH-2"; "AAH-3"] blocks /\
    scraper.Errors result'
    = scraper.Errors result + count_outcomes (fun o => negb (stored o)) blocks /\
    Z.of_nat (length (List.filter is_politeness (concat (map render blocks))))
    = Z.of_nat (length ["AAH-2"; "AAH-3"])
      - (scraper.Errors result' - scraper.Errors result).
Proof.
  intros result result' env w w'.
  assert (Hrun : scraper.fetch_loop env Demo.project_json Demo.incremental
                   ["AAH-2"; "AAH-3"] result w = (result', w')).
  { unfold w'. apply pair_eta. vm_compute. reflexivity. }
  exact (fetch_loop_politeness env Demo.project_json Demo.incremental
           ["AAH-2"; "AAH-3"] result result' w w' Hrun).
Defined.

(** C5 as stated fails: the fetch of AAH-2 is answered 404 and the fetch
    of AAH-3 follows it at once; the only sleep of 500 ms is the one after
    AAH-3 was stored. *)
Lemma fetch_loop_no_delay_after_failure :
  let env := Demo.scripted [Response 404 "" "Issue Does Not Exist";
                            Response 200 "" "issue-3"] [] in
  let run := scraper.fetch_loop env Demo.project_json Demo.incremental
               ["AAH-2"; "AAH-3"]
               {| scraper.IssuesProcessed := 2; scraper.APICalls := 0;
                  scraper.CacheHits := 0; scraper.Errors := 0;
                  scraper.Duration := 0 |}
               (Demo.world Demo.empty_fs) in
  scraper.Errors (fst run) = 1 /\ scraper.APICalls (fst run) = 1 /\
  trace (snd run) =
    [EvHTTP (issue_request Demo.client "AAH-2");
     EvHTTP (issue_request Demo.client "AAH-3");
     EvSleep (500 * Millisecond)].
Proof. cbv zeta. repeat split; vm_compute; reflexivity. Qed.

(** The same after a failed write: the OS refuses the by_id file of AAH-3
    and the loop goes on to AAH-1 with no delay. *)
Example fetch_loop_no_delay_after_write_failure :
  let env := Demo.scripted [Response 200 "" "issue-3";
                            Response 200 "" "issue-1"] [0%nat] in
  let run := scraper.fetch_loop env Demo.project_json Demo.incremental
               ["AAH-3"; "AAH-1"]
               {| scraper.IssuesProcessed := 2; scraper.APICalls := 0;
                  scraper.CacheHits := 0; scraper.Errors := 0;
                  scraper.Duration := 0 |}
               (Demo.world Demo.empty_fs) in
  scraper.Errors (fst run) = 1 /\ scraper.APICalls (fst run) = 2 /\
  trace (snd run) =
    [EvHTTP (issue_request Demo.client "AAH-3");
     EvHTTP (issue_request Demo.client "AAH-1");
     EvSleep (500 * Millisecond)].
Proof. cbv zeta. repeat split; vm_compute; reflexivity. Qed.

(** The round trips of the fetch loop are for the keys it was given. *)
Lemma fetch_blocks_requests c toFetch blocks :
  Forall2 (fun key b => Forall (fetch_event c key) (fst b)) toFetch blocks ->
  Forall (fun e => forall req, e = EvHTTP req ->
                   exists key, In key toFetch /\ req = issue_request c key)
    (concat (map render blocks)).
Proof.
  induction 1 as [|key b keys blocks Hb _ IH]; [constructor|].
  cbn [map concat]. apply Forall_app. split.
  - unfold render. apply Forall_app. split.
    + eapply Forall_impl; [exact Hb|].
      intros e He req ->. cbn in He. exists key. split; [left; reflexivity|].
      congruence.
    + destruct (stored (snd b)); repeat constructor.
      intros req Hreq. discriminate Hreq.
  - eapply Forall_impl; [exact IH|].
    intros e He req Hreq. destruct (He req Hreq) as (key' & Hin & ->).
    exists key'. split; [right; exact Hin|reflexivity].
Qed.

(** C3. In a run of [ScrapeProject] that returns a result, the plan is made
    from the enumerated keys and the existence probe alone. In incremental
    mode the cache hits are the enumerated keys the probe finds in the
    cache, and no round trip of the run asks for the issue of such a key;
    in full-sync mode every enumerated key is to be fetched, whatever the
    cache holds, and no cache hit is counted. *)
Theorem ScrapeProject_plan
    (env : Env) (json : Json) (s : scraper.Scraper) (fuel : nat)
    (project : string) (w w' : World) (r : scraper.ScrapeResult) :
  scraper.ScrapeProject env json s fuel project w = (Some (Ok r), w') ->
  exists keys evs,
    fst (GetAllIssuesInProject env json (scraper.client s) fuel project
           "updated DESC" (scraper.Limit (scraper.config s))
           (snd (Now env w)))
    = Some (Ok keys) /\
    trace w' = (trace w ++ evs)%list /\
    (scraper.FullSync (scraper.config s) = false ->
     scraper.CacheHits r
     = Z.of_nat (length (List.filter
                           (fun key => fst (cache.Exists key w)) keys)) /\
     forall key, In key keys -> fst (cache.Exists key w) = true ->
       Forall (fun e => forall req, e = EvHTTP req ->
                 req_url req
                 <> baseURL (scraper.client s) +:+ issue_path key) evs) /\
    (scraper.FullSync (scraper.config s) = true -> scraper.CacheHits r = 0) /\
    (forall result w0,
       fst (fst (scraper.plan_loop s keys [] result w0))
       = if scraper.FullSync (scraper.config s) then keys
         else List.filter
                (fun key => negb (fst (cache.Exists key w0))) keys).
Proof.
  intros Hrun.
  apply ScrapeProject_phases in Hrun
    as (keys & w1 & result1 & r1 & w2 & evs & Henum & Ht1 & Hev & _ & _
        & Hhits1 & _ & _ & Hfetch & _ & Hhits & _ & _ & Ht').
  apply fetch_loop_blocks in Hfetch
    as (blocks & Ht2 & Hall & _ & _ & Hhits' & _).
  apply fetch_blocks_requests in Hall.
  exists keys, (evs ++ concat (map render blocks))%list.
  rewrite Henum. split; [reflexivity|].
  split; [rewrite Ht', Ht2, Ht1, <- app_assoc; reflexivity|].
  split; [|split].
  - intros Hinc. rewrite Hinc in *. split.
    + rewrite Hhits, Hhits', Hhits1. reflexivity.
    + intros key Hin Hhit. apply Forall_app. split.
      * eapply Forall_impl; [exact Hev|].
        intros e He req -> Hurl. cbn in He. rewrite He in Hurl.
        symmetry in Hurl. exact (issue_url_not_search _ _ Hurl).
      * eapply Forall_impl; [exact Hall|].
        intros e He req Hreq Hurl.
        destruct (He req Hreq) as (key' & Hin' & ->).
        cbn in Hurl. apply issue_url_inj in Hurl. subst key'.
        unfold to_fetch in Hin'. apply List.filter_In in Hin' as [_ Hmiss].
        change (exists_in (fs w) key = true) in Hhit.
        rewrite Hhit in Hmiss. discriminate Hmiss.
  - intros Hfull. rewrite Hfull in *.
    rewrite Hhits, Hhits', Hhits1. reflexivity.
  - intros result w0.
    destruct (plan_loop_spec s keys [] result w0) as (result' & Hplan & _).
    rewrite Hplan. reflexivity.
Qed.

Lemma ScrapeProject_plan_witness :
  let env := Demo.incremental_server in
  let json := Demo.project_json in
  let s := Demo.incremental in
  let w := Demo.world Demo.holds_AAH_1 in
  let r := {| scraper.IssuesProcessed := 3; scraper.APICalls := 1;
              scraper.CacheHits := 1; scraper.Errors := 1;
              scraper.Duration := 5 * Second |} in
  let w' := snd (scraper.ScrapeProject env json s 3 "AAH" w) in
  exists keys evs,
    fst (GetAllIssuesInProject env json (scraper.client s) 3 "AAH"
           "updated DESC" (scraper.Limit (scraper.config s))
           (snd (Now env w)))
    = Some (Ok keys) /\
    trace w' = (trace w ++ evs)%list /\
    (scraper.FullSync (scraper.config s) = false ->
     scraper.CacheHits r
     = Z.of_nat (length (List.filter
                           (fun key => fst (cache.Exists key w)) keys)) /\
     forall key, In key keys -> fst (cache.Exists key w) = true ->
       Forall (fun e => forall req, e = EvHTTP req ->
                 req_url req
                 <> baseURL (scraper.client s) +:+ issue_path key) evs) /\
    (scraper.FullSync (scraper.config s) = true -> scraper.CacheHits r = 0) /\
    (forall result w0,
       fst (fst (scraper.plan_loop s keys [] result w0))
       = if scraper.FullSync (scraper.config s) then keys
         else List.filter
                (fun key => negb (fst (cache.Exists key w0))) keys).
Proof.
  intros env json s w r w'.
  assert (Hrun : scraper.ScrapeProject env json s 3 "AAH" w
                 = (Some (Ok r), w')).
  { unfold w'. apply pair_eta. vm_compute. reflexivity. }
  exact (ScrapeProject_plan env json s 3 "AAH" w w' r Hrun).
Defined.

(** In full-sync mode the same cache and the same server: AAH-1 is fetched
    again and no cache hit is counted. *)
Example ScrapeProject_full_sync_run :
  let env := Demo.scripted [Response 200 "" "page"; Response 200 "" "issue-1";
                            Response 404 "" "Issue Does Not Exist";
                            Response 200 "" "issue-3"] [] in
  let run := scraper.ScrapeProject env Demo.project_json Demo.full_sync
               3 "AAH" (Demo.world Demo.holds_AAH_1) in
  exists duration,
    fst run = Some (Ok {| scraper.IssuesProcessed := 3; scraper.APICalls := 2;
                          scraper.CacheHits := 0; scraper.Errors := 1;
                          scraper.Duration := duration |}) /\
    trace (snd run) =
      [EvHTTP (search_request Demo.client Demo.jql 0);
       EvHTTP (issue_request Demo.client "AAH-1");
       politeness;
       EvHTTP (issue_request Demo.client "AAH-2");
       EvHTTP (issue_request Demo.client "AAH-3");
       politeness].
Proof. cbv zeta. eexists. split; vm_compute; reflexivity. Qed.

(* ===================================================================== *)
(** * Further properties of the client *)

Lemma last_default_irrelevant {A} (x : A) (l : list A) (d d' : A) :
  List.last (x :: l) d = List.last (x :: l) d'.
Proof.
  revert x. induction l as [|y l IH]; intros x; [reflexivity|].
  change (List.last (y :: l) d = List.last (y :: l) d'). apply IH.
Qed.

Lemma SetBatchSize_fold sizes :
  forall c,
    batchSize (fold_left SetBatchSize sizes c)
    = List.last (List.filter valid_batch sizes) (batchSize c) /\
    baseURL (fold_left SetBatchSize sizes c) = baseURL c /\
    token (fold_left SetBatchSize sizes c) = token c.
Proof.
  induction sizes as [|size sizes IH]; intros c; [auto|].
  cbn [fold_left List.filter]. destruct (IH (SetBatchSize c size)) as (Hb & Hu & Ht).
  rewrite Hb, Hu, Ht. unfold SetBatchSize, valid_batch.
  destruct ((0 <? size) && (size <=? 100)); cbn [batchSize baseURL token];
    [|auto].
  split; [|auto].
  destruct (List.filter _ sizes) as [|x l]; [reflexivity|].
  change (List.last (size :: x :: l) (batchSize c))
    with (List.last (x :: l) (batchSize c)).
  apply last_default_irrelevant.
Qed.

Lemma last_filter_valid sizes :
  forall d, 1 <= d <= 100 ->
    1 <= List.last (List.filter valid_batch sizes) d <= 100.
Proof.
  induction sizes as [|size sizes IH]; intros d Hd; [exact Hd|].
  cbn [List.filter]. destruct (valid_batch size) eqn:Hv; [|auto].
  unfold valid_batch in Hv. apply andb_true_iff in Hv as [H1 H2].
  apply Z.ltb_lt in H1. apply Z.leb_le in H2.
  destruct (List.filter valid_batch sizes) as [|x l] eqn:Hl; [cbn; lia|].
  change (List.last (size :: x :: l) d) with (List.last (x :: l) d).
  apply IH. exact Hd.
Qed.

(** X2. Whatever sizes are set on a new client, in whatever order, its
    batch size stays between 1 and 100: it is the last of the sizes that
    lies in that range, or the default 10 when none does; sizes outside
    the range change nothing, and the URL and the token are never
    touched. *)
Theorem SetBatchSize_keeps_range (url tok : string) (sizes : list Z) :
  let c := fold_left SetBatchSize sizes (New url tok) in
  1 <= batchSize c <= 100 /\
  batchSize c = List.last (List.filter valid_batch sizes) 10 /\
  baseURL c = url /\ token c = tok.
Proof.
  cbv zeta. destruct (SetBatchSize_fold sizes (New url tok)) as (Hb & Hu & Ht).
  rewrite Hb, Hu, Ht. cbn [New batchSize baseURL token].
  split; [apply last_filter_valid; lia|auto].
Qed.

Example SetBatchSize_ignores :
  map (fun size => batchSize (SetBatchSize (New "u" "t") size))
      [0; -5; 1; 50; 100; 101]
  = [10; 10; 1; 50; 100; 10].
Proof. reflexivity. Qed.

(** *** The shape of a run of the request primitive *)

Lemma attempt_post_last maxRetries a o j n evs res :
  attempt_post maxRetries a o j n evs res -> ~ (S j < n)%nat ->
  n = S j /\ length evs = S (2 * j).
Proof.
  unfold attempt_post. intros Hpost Hlast.
  destruct o as [cause|cause|status retryAfter body];
    repeat match type of Hpost with
           | context [if ?b then _ else _] => destruct b
           end;
    tauto.
Qed.

Lemma attempt_post_wait maxRetries a o j n evs res :
  attempt_post maxRetries a o j n evs res -> (S j < n)%nat ->
  exists d, evs !! S (2 * j) = Some (EvSleep d).
Proof.
  unfold attempt_post. intros Hpost Hmore.
  destruct o as [cause|cause|status retryAfter body];
    repeat match type of Hpost with
           | context [if ?b then _ else _] => destruct b
           end;
    try (destruct Hpost as [[Hn _] _]; lia);
    destruct Hpost as [Hs _]; eauto.
Qed.

(** X3. A run of the request primitive that makes [n] round trips emits
    [2n-1] events: the round trips, all of the one request, with exactly
    one wait of the retry loop between two of them. It never sleeps before
    the first round trip or after the last, and it makes no round trip
    exactly when the request cannot be created. The cache, the clock and
    the file system are left alone. *)
Theorem doRequest_trace_shape
    (env : Env) (c : Client) (method path : string)
    (query : list (string * string)) (w : World) :
  let req := mkRequest c method path query in
  let run := doRequest env c method path query w in
  exists n evs,
    n_http (snd run) = (n_http w + n)%nat /\
    trace (snd run) = (trace w ++ evs)%list /\
    length evs = (2 * n - 1)%nat /\
    (forall j, (j < n)%nat -> evs !! (2 * j)%nat = Some (EvHTTP req)) /\
    (forall j, (S j < n)%nat ->
       exists d, evs !! (2 * j + 1)%nat = Some (EvSleep d) /\ retry_wait d) /\
    (n = 0%nat <->
     new_request env method (baseURL c +:+ path) query <> None) /\
    fs (snd run) = fs w /\ n_clock (snd run) = n_clock w /\
    n_os (snd run) = n_os w.
Proof.
  intros req run. subst run.
  destruct (doRequest env c method path query w) as [res w'] eqn:Hrun.
  cbn [fst snd].
  pose proof (doRequest_frame env c method path query w res w' Hrun)
    as (evs' & Ht' & Hev' & Hfs & Hc & Ho & _).
  unfold doRequest, doRequestWithRetry in Hrun.
  change (Z.to_nat (3 + 1)) with 4%nat in Hrun.
  destruct (new_request env method (baseURL c +:+ path) query) eqn:Hnew.
  - cbn [retry_loop] in Hrun. rewrite Hnew in Hrun. inversion Hrun; subst.
    exists 0%nat, []. rewrite app_nil_r.
    repeat split; auto; try lia; try discriminate; intros; lia.
  - apply retry_loop_attempts in Hrun
      as (n & evs & Hn & Ht & Hle & Hpos & Hall); [|exact Hnew|reflexivity].
    fold req in Hall.
    assert (evs' = evs) as -> by (rewrite Ht in Ht'; eapply app_inv_head; eauto).
    assert (Hn0 : n <> 0%nat) by (apply Hpos; lia).
    exists n, evs. split; [exact Hn|]. split; [exact Ht|].
    split; [|split; [|split; [|split]]]; auto.
    + destruct (Hall (n - 1)%nat ltac:(lia)) as [_ Hpost].
      apply attempt_post_last in Hpost as [_ Hlen]; lia.
    + intros j Hj. apply Hall, Hj.
    + intros j Hj. destruct (Hall j ltac:(lia)) as [_ Hpost].
      apply attempt_post_wait in Hpost as [d Hd]; [|exact Hj].
      replace (2 * j + 1)%nat with (S (2 * j)) by lia.
      exists d. split; [exact Hd|].
      rewrite Forall_forall in Hev'.
      apply list_elem_of_lookup_2 in Hd. apply Hev' in Hd. exact Hd.
    + split; [intros ->; contradiction|intros H; contradiction].
Qed.

(** X4. [doRequestWithRetry] with a budget [maxRetries >= 0] makes at most
    [maxRetries + 1] round trips; with a negative budget it makes none and
    returns "max retries exceeded" wrapping no cause; and when the request
    cannot be created it returns that failure at once, whatever the
    budget allows, without a round trip or a sleep. *)
Theorem doRequestWithRetry_budget
    (env : Env) (c : Client) (method path : string)
    (query : list (string * string)) (maxRetries : Z) (w : World) :
  let run := doRequestWithRetry env c method path query maxRetries w in
  (n_http (snd run) <= n_http w + Z.to_nat (maxRetries + 1))%nat /\
  (maxRetries < 0 ->
   run = (Err (Wrapped "max retries exceeded" None), w)) /\
  (forall cause,
     0 <= maxRetries ->
     new_request env method (baseURL c +:+ path) query = Some cause ->
     run = (Err (Wrapped "failed to create request" (Some (Cause cause))), w)).
Proof.
  cbv zeta. unfold doRequestWithRetry. split; [|split].
  - destruct (retry_loop env c method path query maxRetries
                (Z.to_nat (maxRetries + 1)) 0 None w) as [res w'] eqn:Hrun.
    cbn [snd].
    destruct (new_request env method (baseURL c +:+ path) query) eqn:Hnew.
    + destruct (Z.to_nat (maxRetries + 1)); cbn [retry_loop] in Hrun;
        rewrite ?Hnew in Hrun; inversion Hrun; subst; lia.
    + destruct (Z.le_gt_cases 0 (maxRetries + 1)) as [Hge|Hlt].
      * apply retry_loop_attempts in Hrun
          as (n & evs & Hn & _ & Hle & _); [lia|exact Hnew|lia].
      * replace (Z.to_nat (maxRetries + 1)) with 0%nat in Hrun by lia.
        inversion Hrun; subst. lia.
  - intros Hneg. replace (Z.to_nat (maxRetries + 1)) with 0%nat by lia.
    reflexivity.
  - intros cause Hpos Hnew.
    destruct (Z.to_nat (maxRetries + 1)) eqn:Hn; [lia|].
    cbn [retry_loop]. rewrite Hnew. reflexivity.
Qed.

Lemma doRequestWithRetry_budget_witness :
  let env := {| new_request := fun _ _ _ => Some "invalid URL escape";
                http_do := fun _ _ => DoFails "unreachable";
                clock := fun _ => 0; os_fail := fun _ => None |} in
  doRequestWithRetry (Demo.scripted [] []) Demo.client "GET" "/x" [] (-1)
    (Demo.world Demo.empty_fs)
  = (Err (Wrapped "max retries exceeded" None), Demo.world Demo.empty_fs) /\
  doRequestWithRetry env Demo.client "GET" "/%zz" [] 3
    (Demo.world Demo.empty_fs)
  = (Err (Wrapped "failed to create request"
            (Some (Cause "invalid URL escape"))),
     Demo.world Demo.empty_fs).
Proof.
  intros env. split.
  - apply (doRequestWithRetry_budget (Demo.scripted [] []) Demo.client
             "GET" "/x" [] (-1) (Demo.world Demo.empty_fs)). lia.
  - apply (doRequestWithRetry_budget env Demo.client "GET" "/%zz" [] 3
             (Demo.world Demo.empty_fs)); [lia|reflexivity].
Defined.

(* ===================================================================== *)
(** * Further properties of the cache *)

(** ** Strings *)

Lemma app_cons_string c a b : String c a +:+ b = String c (a +:+ b).
Proof. reflexivity. Qed.

Lemma app_nil_string b : "" +:+ b = b.
Proof. reflexivity. Qed.

Lemma length_app_string a b :
  String.length (a +:+ b) = (String.length a + String.length b)%nat.
Proof.
  induction a as [|c a IH]; [reflexivity|].
  rewrite app_cons_string. cbn [String.length]. rewrite IH. reflexivity.
Qed.

Lemma substring_app_l k t : substring 0 (String.length k) (k +:+ t) = k.
Proof.
  induction k as [|c k IH].
  - rewrite app_nil_string. destruct t; reflexivity.
  - rewrite app_cons_string. cbn [String.length substring]. rewrite IH.
    reflexivity.
Qed.

Lemma substring_all s : substring 0 (String.length s) s = s.
Proof.
  induction s as [|c s IH]; [reflexivity|].
  cbn [String.length substring]. rewrite IH. reflexivity.
Qed.

Lemma substring_app_r k t :
  substring (String.length k) (String.length t) (k +:+ t) = t.
Proof.
  induction k as [|c k IH].
  - rewrite app_nil_string. apply substring_all.
  - rewrite app_cons_string. cbn [String.length substring]. exact IH.
Qed.

Lemma substring_split n :
  forall s, (n <= String.length s)%nat ->
    substring 0 n s +:+ substring n (String.length s - n) s = s.
Proof.
  induction n as [|n IH]; intros s Hn.
  - rewrite Nat.sub_0_r, substring_all.
    destruct s; reflexivity.
  - destruct s as [|c s]; cbn [String.length] in Hn; [lia|].
    cbn [String.length substring Nat.sub]. rewrite app_cons_string.
    rewrite IH by lia. reflexivity.
Qed.

Lemma app_inj_r_string t a b : a +:+ t = b +:+ t -> a = b.
Proof.
  revert b. induction a as [|c a IH]; intros [|c' b] H.
  - reflexivity.
  - apply (f_equal String.length) in H.
    rewrite app_nil_string, app_cons_string in H. cbn [String.length] in H.
    rewrite length_app_string in H. lia.
  - apply (f_equal String.length) in H.
    rewrite app_nil_string, app_cons_string in H. cbn [String.length] in H.
    rewrite length_app_string in H. lia.
  - rewrite !app_cons_string in H. inversion H; subst.
    f_equal. apply IH. assumption.
Qed.

Lemma HasSuffix_app k suffix : cache.HasSuffix (k +:+ suffix) suffix = true.
Proof.
  unfold cache.HasSuffix. rewrite length_app_string.
  replace (String.length k + String.length suffix - String.length suffix)%nat
    with (String.length k) by lia.
  rewrite substring_app_r, String.eqb_refl, andb_true_r.
  apply Nat.leb_le. lia.
Qed.

Lemma TrimSuffix_app k suffix : cache.TrimSuffix (k +:+ suffix) suffix = k.
Proof.
  unfold cache.TrimSuffix. rewrite HasSuffix_app, length_app_string.
  replace (String.length k + String.length suffix - String.length suffix)%nat
    with (String.length k) by lia.
  apply substring_app_l.
Qed.

Lemma HasSuffix_inv s suffix :
  cache.HasSuffix s suffix = true -> cache.TrimSuffix s suffix +:+ suffix = s.
Proof.
  intros H. unfold cache.TrimSuffix. rewrite H.
  unfold cache.HasSuffix in H. apply andb_true_iff in H as [Hlen Heq].
  apply Nat.leb_le in Hlen. apply String.eqb_eq in Heq.
  pose proof (substring_split (String.length s - String.length suffix) s
                ltac:(lia)) as Hsplit.
  replace (String.length s - (String.length s - String.length suffix))%nat
    with (String.length suffix) in Hsplit by lia.
  rewrite Heq in Hsplit. exact Hsplit.
Qed.

Lemma HasPrefix_spec s prefix :
  cache.HasPrefix s prefix = true <-> exists rest, s = prefix +:+ rest.
Proof.
  unfold cache.HasPrefix. revert s.
  induction prefix as [|c prefix IH]; intros s.
  - destruct s; cbn; split; eauto.
  - destruct s as [|c' s]; cbn [String.prefix].
    + split; [discriminate|]. intros [rest H].
      rewrite app_cons_string in H. discriminate H.
    + destruct (ascii_dec c c') as [<-|Hne].
      * rewrite IH. split; intros [rest H]; exists rest.
        -- rewrite app_cons_string. f_equal. exact H.
        -- rewrite app_cons_string in H. inversion H. reflexivity.
      * split; [discriminate|]. intros [rest H].
        rewrite app_cons_string in H. congruence.
Qed.

Example HasPrefix_project :
  map (fun key => cache.HasPrefix key ("AAH" +:+ "-"))
      ["AAH-1"; "AAHX-1"; "AAH"; "XAAH-2"; "AAH-"]
  = [true; false; false; false; true].
Proof. reflexivity. Qed.

Example TrimSuffix_examples :
  map (fun name => (cache.HasSuffix name ".json", cache.TrimSuffix name ".json"))
      ["AAH-1.json"; "notes.txt"; ".json"; "json"; "a.json.json"]
  = [(true, "AAH-1"); (false, "notes.txt"); (true, ""); (false, "json");
     (true, "a.json")].
Proof. reflexivity. Qed.

(** ** What a write touches *)

Lemma id_name_inj issue id :
  id +:+ ".json" = id_name issue -> id = ID (to_Issue issue).
Proof. unfold id_name. apply app_inj_r_string. Qed.

Lemma WriteIssue_no_round_trip env json d issue duration w :
  n_http (snd (cache.WriteIssue env json d issue duration w)) = n_http w.
Proof.
  unfold cache.WriteIssue, bind, Now.
  destruct (marshal_cached json _) as [data|e]; [|reflexivity].
  unfold cache.WriteFile_by_id, cache.Remove_by_key, cache.Symlink_by_key,
    cache.os_call, cache.get_fs, cache.set_fs, bind, ret, emit.
  generalize (ID (to_Issue issue) +:+ ".json")
    (Key (to_Issue issue) +:+ ".json") (cache.getDataPath d).
  intros idn kn dp. simpl.
  destruct (os_fail env (n_os w)); simpl; [reflexivity|].
  destruct (os_fail env (S (n_os w))); simpl.
  - destruct (os_fail env (S (S (n_os w)))); simpl; [reflexivity|].
    destruct (by_key (fs w) !! kn); reflexivity.
  - destruct (by_key (fs w) !! kn); simpl;
      destruct (os_fail env (S (S (n_os w)))); simpl; try reflexivity;
      match goal with
      | |- context [match ?m !! ?k with _ => _ end] => destruct (m !! k)
      end; reflexivity.
Qed.

Lemma WriteIssue_other_entries env json d issue duration w :
  (forall name, name <> key_name issue ->
     by_key (fs (snd (cache.WriteIssue env json d issue duration w))) !! name
     = by_key (fs w) !! name) /\
  (forall name, name <> id_name issue ->
     by_id (fs (snd (cache.WriteIssue env json d issue duration w))) !! name
     = by_id (fs w) !! name).
Proof.
  set (run := cache.WriteIssue env json d issue duration w).
  destruct (marshal_cached json
              (envelope (clock env (n_clock w)) issue duration))
    as [data|e] eqn:Hm.
  - destruct (os_fail env (n_os w)) as [cause|] eqn:Hos.
    + destruct (WriteIssue_write_refused env json d issue duration w
                  data cause Hm Hos) as (_ & Hfs & _).
      fold run in Hfs. rewrite Hfs. auto.
    + destruct (WriteIssue_written env json d issue duration w data Hm Hos)
        as (_ & Hid & _ & Hkey & _).
      fold run in Hid, Hkey. rewrite Hid, Hkey. split.
      * intros name Hne. cbv zeta.
        destruct (os_fail env (S (n_os w)));
          destruct (os_fail env (S (S (n_os w))));
          try destruct (_ !! key_name issue);
          rewrite ?lookup_insert_ne, ?lookup_delete_ne by congruence;
          reflexivity.
      * intros name Hne. rewrite lookup_insert_ne by congruence.
        reflexivity.
  - destruct (WriteIssue_marshal_fails env json d issue duration w e Hm)
      as (_ & Hfs & _).
    fold run in Hfs. rewrite Hfs. auto.
Qed.

(** X5. [WriteIssue] touches two entries of the cache and no other,
    whether it succeeds or fails: the by_id file of the issue's id and the
    by_key entry of the issue's key. Every other by_key entry is as it
    was, and [GetIssueByID] on any other id returns what it returned
    before. It makes no round trip. *)
Theorem WriteIssue_touches_own_entries
    (env : Env) (json : Json) (d : cache.DiskCache)
    (issue : IssueWithHistory) (duration : Z) (w : World) :
  let run := cache.WriteIssue env json d issue duration w in
  (forall name, name <> key_name issue ->
     by_key (fs (snd run)) !! name = by_key (fs w) !! name) /\
  (forall name, name <> id_name issue ->
     by_id (fs (snd run)) !! name = by_id (fs w) !! name) /\
  (forall id, id <> ID (to_Issue issue) ->
     fst (cache.GetIssueByID json id (snd run))
     = fst (cache.GetIssueByID json id w)) /\
  n_http (snd run) = n_http w.
Proof.
  intros run.
  pose proof (WriteIssue_other_entries env json d issue duration w) as Hmaps.
  fold run in Hmaps.
  destruct Hmaps as [Hkeys Hids].
  split; [exact Hkeys|]. split; [exact Hids|]. split.
  - intros id Hne.
    unfold cache.GetIssueByID, cache.get_fs, bind, ret, cache.read_by_id.
    cbn [fst]. rewrite Hids; [reflexivity|].
    intros Heq. apply Hne. apply id_name_inj. exact Heq.
  - apply WriteIssue_no_round_trip.
Qed.

Example WriteIssue_keeps_other_issues :
  let env := Demo.scripted [] [] in
  let json := Demo.json [] [] [] in
  let run := cache.WriteIssue env json Demo.disk
               (Demo.mk_history "10002" "AAH-2") 0
               (Demo.world Demo.holds_AAH_1) in
  by_key (fs (snd run)) !! "AAH-1.json" = Some (Link "../by_id/10001.json") /\
  by_id (fs (snd run)) !! "10001.json" = Some "envelope of an earlier run" /\
  by_key (fs (snd run)) !! "AAH-2.json" = Some (Link "../by_id/10002.json").
Proof. cbv zeta. repeat split; vm_compute; reflexivity. Qed.

Lemma WriteIssue_ok_inv env json d issue duration w :
  is_ok (fst (cache.WriteIssue env json d issue duration w)) = true ->
  exists data,
    marshal_cached json (envelope (clock env (n_clock w)) issue duration)
    = Ok data /\
    os_fail env (n_os w) = None.
Proof.
  intros Hok.
  destruct (marshal_cached json
              (envelope (clock env (n_clock w)) issue duration))
    as [data|e] eqn:Hm.
  - destruct (os_fail env (n_os w)) as [cause|] eqn:Hos; [|eauto].
    destruct (WriteIssue_write_refused env json d issue duration w
                data cause Hm Hos) as (Hres & _).
    rewrite Hres in Hok. discriminate Hok.
  - destruct (WriteIssue_marshal_fails env json d issue duration w e Hm)
      as (Hres & _).
    rewrite Hres in Hok. discriminate Hok.
Qed.

(** X6. After a successful [WriteIssue] the key exists in the cache when
    the OS refused neither the removal of the old entry nor the new link.
    When it carried out the removal and then refused the link, the write
    still succeeds and the key does not exist in the cache, whether or not
    it did before: the by_id file is there, the entry that led to it is
    gone. *)
Theorem WriteIssue_then_Exists
    (env : Env) (json : Json) (d : cache.DiskCache)
    (issue : IssueWithHistory) (duration : Z) (w : World) :
  let run := cache.WriteIssue env json d issue duration w in
  let key := Key (to_Issue issue) in
  is_ok (fst run) = true ->
  os_fail env (S (n_os w)) = None ->
  (os_fail env (S (S (n_os w))) = None ->
   fst (cache.Exists key (snd run)) = true) /\
  (os_fail env (S (S (n_os w))) <> None ->
   fst (cache.Exists key (snd run)) = false /\
   is_Some (by_id (fs (snd run)) !! id_name issue)).
Proof.
  intros run key Hok Hrm.
  apply WriteIssue_ok_inv in Hok as (data & Hm & Hos).
  destruct (WriteIssue_written env json d issue duration w data Hm Hos)
    as (_ & Hid & _ & Hkey & _).
  fold run in Hid, Hkey. rewrite Hrm in Hkey. cbv zeta in Hkey.
  rewrite lookup_delete_eq in Hkey.
  unfold cache.Exists, cache.get_fs, bind, ret. cbn [fst].
  fold (key_name issue). unfold cache.read_by_key. split.
  - intros Hln. rewrite Hln in Hkey. rewrite Hkey, lookup_insert_eq.
    unfold key_link. rewrite key_link_target.
    unfold cache.read_by_id. rewrite Hid, lookup_insert_eq.
    apply bool_decide_eq_true. eauto.
  - intros Hln. destruct (os_fail env (S (S (n_os w)))); [|contradiction].
    rewrite Hkey, lookup_delete_eq. split.
    + apply bool_decide_eq_false. intros [x Hx]. discriminate Hx.
    + rewrite Hid, lookup_insert_eq. eauto.
Qed.

Lemma WriteIssue_then_Exists_witness :
  let json := Demo.json [] [] [] in
  let issue := Demo.mk_history "10001" "AAH-1" in
  let linked := cache.WriteIssue (Demo.scripted [] []) json Demo.disk issue 0
                  (Demo.world Demo.empty_fs) in
  let refused := cache.WriteIssue (Demo.scripted [] [2%nat]) json Demo.disk
                   issue 0 (Demo.world Demo.holds_AAH_1) in
  fst (cache.Exists "AAH-1" (snd linked)) = true /\
  fst (cache.Exists "AAH-1" (Demo.world Demo.holds_AAH_1)) = true /\
  is_ok (fst refused) = true /\
  fst (cache.Exists "AAH-1" (snd refused)) = false.
Proof.
  intros json issue linked refused.
  split; [|split; [|split]].
  - apply (WriteIssue_then_Exists (Demo.scripted [] []) json Demo.disk issue 0
             (Demo.world Demo.empty_fs)); reflexivity.
  - vm_compute. reflexivity.
  - vm_compute. reflexivity.
  - apply (WriteIssue_then_Exists (Demo.scripted [] [2%nat]) json Demo.disk
             issue 0 (Demo.world Demo.holds_AAH_1));
      [vm_compute; reflexivity | reflexivity | discriminate].
Defined.


(** A by_key link whose by_id file is missing: the key does not exist and
    reads as not found. *)
Example Exists_dangling_link :
  let t := {| by_id := ∅;
              by_key := <["AAH-7.json" := Link "../by_id/10007.json"]> ∅ |} in
  fst (cache.Exists "AAH-7" (Demo.world t)) = false /\
  fst (cache.GetIssue (Demo.json [] [] []) "AAH-7" (Demo.world t))
  = Err ErrNotFound.
Proof. cbv zeta. split; vm_compute; reflexivity. Qed.

(** X8. A key that was given up for another stays usable. When an issue
    is written under its new key, a by_key entry left from an earlier
    write of the same id under another key is neither removed nor
    changed, and [GetIssue] on the old key returns the envelope just
    written, as [GetIssueByID] does. *)
Theorem WriteIssue_old_key_follows
    (env : Env) (json : Json) (d : cache.DiskCache)
    (issue : IssueWithHistory) (duration : Z) (w : World) (oldKey : string) :
  let run := cache.WriteIssue env json d issue duration w in
  is_ok (fst run) = true ->
  oldKey <> Key (to_Issue issue) ->
  by_key (fs w) !! (oldKey +:+ ".json") = Some (key_link issue) ->
  by_key (fs (snd run)) !! (oldKey +:+ ".json") = Some (key_link issue) /\
  fst (cache.GetIssue json oldKey (snd run))
  = fst (cache.GetIssueByID json (ID (to_Issue issue)) (snd run)) /\
  exists data,
    marshal_cached json (envelope (clock env (n_clock w)) issue duration)
    = Ok data /\
    fst (cache.GetIssue json oldKey (snd run))
    = cache.readIssueFile json (Some data).
Proof.
  intros run Hok Hne Hold.
  assert (Hname : oldKey +:+ ".json" <> key_name issue).
  { intros Heq. apply Hne. unfold key_name in Heq.
    eapply app_inj_r_string. exact Heq. }
  destruct (WriteIssue_other_entries env json d issue duration w)
    as [Hkeys _].
  fold run in Hkeys.
  assert (Hentry : by_key (fs (snd run)) !! (oldKey +:+ ".json")
                   = Some (key_link issue))
    by (rewrite (Hkeys _ Hname); exact Hold).
  split; [exact Hentry|].
  apply WriteIssue_ok_inv in Hok as (data & Hm & Hos).
  destruct (WriteIssue_written env json d issue duration w data Hm Hos)
    as (_ & Hid & _).
  fold run in Hid.
  assert (Hread : cache.read_by_key (fs (snd run)) (oldKey +:+ ".json")
                  = Some data).
  { unfold cache.read_by_key. rewrite Hentry. unfold key_link.
    rewrite key_link_target. unfold cache.read_by_id.
    rewrite Hid. apply lookup_insert_eq. }
  unfold cache.GetIssue, cache.GetIssueByID, cache.get_fs, bind, ret.
  cbn [fst]. rewrite Hread. fold (id_name issue).
  unfold cache.read_by_id. rewrite Hid, lookup_insert_eq.
  split; [reflexivity|]. exists data. auto.
Qed.

Lemma WriteIssue_old_key_follows_witness :
  let env := Demo.scripted [] [] in
  let issue := Demo.mk_history "10001" "AAH-1" in
  let e := envelope (0 * Second) issue 0 in
  let json := Demo.json [] [] [e] in
  let moved := {| by_id := <["10001.json" := "envelope of an earlier run"]> ∅;
                  by_key := <["OLD-9.json" := Link "../by_id/10001.json"]> ∅ |} in
  let run := cache.WriteIssue env json Demo.disk issue 0 (Demo.world moved) in
  by_key (fs (snd run)) !! ("OLD-9" +:+ ".json") = Some (key_link issue) /\
  fst (cache.GetIssue json "OLD-9" (snd run))
  = fst (cache.GetIssueByID json (ID (to_Issue issue)) (snd run)) /\
  exists data,
    marshal_cached json (envelope (clock env 0) issue 0) = Ok data /\
    fst (cache.GetIssue json "OLD-9" (snd run))
    = cache.readIssueFile json (Some data).
Proof.
  intros env issue e json moved run.
  refine (WriteIssue_old_key_follows env json Demo.disk issue 0
            (Demo.world moved) "OLD-9" _ _ _).
  - vm_compute. reflexivity.
  - discriminate.
  - vm_compute. reflexivity.
Defined.

(** ** The time of the last fetch *)

Section LastFetched.
Context (json : Json) (mod_time : FS -> string -> Z).


End LastFetched.

(** X10. After a successful [WriteIssue] that established the by_key
    link, [GetLastFetched] on the issue's key returns the clock reading
    the write took, provided that reading is not the zero time and the
    envelope decodes to what was encoded: the file's modification time is
    not consulted. *)
Theorem GetLastFetched_after_WriteIssue
    (env : Env) (json : Json) (mod_time : FS -> string -> Z)
    (d : cache.DiskCache) (issue : IssueWithHistory) (duration : Z)
    (w : World) :
  let run := cache.WriteIssue env json d issue duration w in
  let e := envelope (clock env (n_clock w)) issue duration in
  is_ok (fst run) = true ->
  by_key (fs (snd run)) !! key_name issue = Some (key_link issue) ->
  (forall data, marshal_cached json e = Ok data ->
                unmarshal_cached json data = Ok e) ->
  clock env (n_clock w) <> cache.zero_time ->
  fst (cache.GetLastFetched json mod_time (Key (to_Issue issue)) (snd run))
  = Ok (clock env (n_clock w)).
Proof.
  intros run e Hok Hlink Hcodec Hnonzero.
  apply WriteIssue_ok_inv in Hok as (data & Hm & Hos).
  destruct (WriteIssue_written env json d issue duration w data Hm Hos)
    as (_ & Hid & _).
  fold run in Hid.
  unfold cache.GetLastFetched, cache.GetIssue, cache.get_fs, bind, ret.
  cbn [fst snd]. fold (key_name issue).
  rewrite (read_by_key_link _ _ Hlink).
  unfold cache.read_by_id. rewrite Hid, lookup_insert_eq.
  cbn [cache.readIssueFile]. rewrite (Hcodec data Hm).
  cbn [e envelope CacheMetadata_ FetchedAt].
  destruct (Z.eqb_spec (clock env (n_clock w)) cache.zero_time);
    [contradiction|reflexivity].
Qed.

Lemma GetLastFetched_after_WriteIssue_witness :
  let env := Demo.with_clock [1700000000 * Second] (Demo.scripted [] []) in
  let issue := Demo.mk_history "10001" "AAH-1" in
  let json := Demo.json [] [] [envelope (1700000000 * Second) issue 0] in
  let run := cache.WriteIssue env json Demo.disk issue 0
               (Demo.world Demo.empty_fs) in
  fst (cache.GetLastFetched json (fun _ _ => 0) "AAH-1" (snd run))
  = Ok (1700000000 * Second).
Proof.
  intros env issue json run.
  refine (GetLastFetched_after_WriteIssue env json (fun _ _ => 0) Demo.disk
            issue 0 (Demo.world Demo.empty_fs) _ _ _ _).
  - vm_compute. reflexivity.
  - vm_compute. reflexivity.
  - intros data Hm. inversion Hm; subst. vm_compute. reflexivity.
  - vm_compute. discriminate.
Defined.

(** ** Listing the keys *)

Lemma list_keys_spec entries :
  forall keys,
    cache.list_keys entries keys
    = (keys ++ map (fun name => cache.TrimSuffix name ".json")
                 (List.filter (fun name => cache.HasSuffix name ".json")
                    entries))%list.
Proof.
  induction entries as [|name rest IH]; intros keys.
  - cbn. rewrite app_nil_r. reflexivity.
  - cbn [cache.list_keys List.filter].
    destruct (cache.HasSuffix name ".json"); rewrite IH; [|reflexivity].
    cbn [map]. rewrite <- app_assoc. reflexivity.
Qed.

Lemma project_keys_spec project allKeys :
  forall projectKeys,
    cache.project_keys project allKeys projectKeys
    = (projectKeys
         ++ List.filter (fun key => cache.HasPrefix key (project +:+ "-"))
              allKeys)%list.
Proof.
  induction allKeys as [|key rest IH]; intros projectKeys.
  - cbn. rewrite app_nil_r. reflexivity.
  - cbn [cache.project_keys List.filter].
    destruct (cache.HasPrefix key (project +:+ "-")); rewrite IH;
      [|reflexivity].
    rewrite <- app_assoc. reflexivity.
Qed.

Lemma ReadDir_by_key_In t name :
  In name (cache.ReadDir_by_key t) <-> is_Some (by_key t !! name).
Proof.
  unfold cache.ReadDir_by_key. rewrite <- list_elem_of_In.
  rewrite merge_sort_Permutation.
  change (map fst (map_to_list (by_key t)))
    with (fst <$> map_to_list (by_key t)).
  rewrite list_elem_of_fmap. split.
  - intros ([name' node] & -> & Hin). apply elem_of_map_to_list in Hin.
    cbn. eauto.
  - intros [node Hnode]. exists (name, node). split; [reflexivity|].
    apply elem_of_map_to_list. exact Hnode.
Qed.





Lemma listed_names t :
  let names := List.filter (fun name => cache.HasSuffix name ".json")
                 (cache.ReadDir_by_key t) in
  cache.list_keys (cache.ReadDir_by_key t) []
  = map (fun name => cache.TrimSuffix name ".json") names /\
  forall name, In name names ->
    cache.TrimSuffix name ".json" +:+ ".json" = name.
Proof.
  cbv zeta. split; [apply list_keys_spec|].
  intros name Hin. apply List.filter_In in Hin as [_ Hs].
  apply HasSuffix_inv. exact Hs.
Qed.

Lemma list_keys_In t key :
  In key (cache.list_keys (cache.ReadDir_by_key t) [])
  <-> is_Some (by_key t !! (key +:+ ".json")).
Proof.
  destruct (listed_names t) as [-> Hnames].
  rewrite List.in_map_iff. split.
  - intros (name & <- & Hin). rewrite (Hnames name Hin).
    apply List.filter_In in Hin as [Hin _].
    apply ReadDir_by_key_In. exact Hin.
  - intros Hsome. exists (key +:+ ".json"). split.
    + apply TrimSuffix_app.
    + apply List.filter_In. split.
      * apply ReadDir_by_key_In. exact Hsome.
      * apply HasSuffix_app.
Qed.


Example ListIssues_run :
  let t := {| by_id := <["10001.json" := "envelope"]> ∅;
              by_key := <["AAH-10.json" := Link "../by_id/10010.json"]>
                        (<["AAH-1.json" := Link "../by_id/10001.json"]>
                         (<["README" := File "notes"]>
                          (<["BBB-2.json" := File "{}"]> ∅))) |} in
  fst (cache.ListIssues (Demo.world t)) = Ok ["AAH-1"; "AAH-10"; "BBB-2"] /\
  fst (cache.ListIssuesForProject "AAH" (Demo.world t))
  = Ok ["AAH-1"; "AAH-10"] /\
  fst (cache.Exists "AAH-10" (Demo.world t)) = false.
Proof. cbv zeta. repeat split; vm_compute; reflexivity. Qed.

Lemma app_assoc_string a b c : (a +:+ b) +:+ c = a +:+ b +:+ c.
Proof.
  induction a as [|x a IH]; [reflexivity|].
  rewrite !app_cons_string, IH. reflexivity.
Qed.

(** X12. [ListIssuesForProject] returns the keys [ListIssues] returns that
    begin with the project followed by a hyphen, in the same order and
    once each; a key of a project whose name merely begins with the
    project's name is left out. *)
Theorem ListIssuesForProject_filters (project : string) (w : World) :
  exists allKeys keys,
    cache.ListIssues w = (Ok allKeys, w) /\
    cache.ListIssuesForProject project w = (Ok keys, w) /\
    keys = List.filter (fun key => cache.HasPrefix key (project +:+ "-"))
             allKeys /\
    (forall key,
       In key keys <->
       In key allKeys /\ exists rest, key = project +:+ "-" +:+ rest) /\
    (forall other rest,
       other <> "" -> String.get 0 other <> Some "-"%char ->
       ~ In (project +:+ other +:+ "-" +:+ rest) keys).
Proof.
  exists (cache.list_keys (cache.ReadDir_by_key (fs w)) []). eexists.
  split; [reflexivity|].
  split; [reflexivity|].
  rewrite project_keys_spec. cbn [app].
  split; [reflexivity|]. split.
  - intros key. rewrite List.filter_In, HasPrefix_spec.
    split; intros [Hin [rest Hrest]]; (split; [exact Hin|]); exists rest.
    + rewrite Hrest. apply app_assoc_string.
    + rewrite Hrest. symmetry. apply app_assoc_string.
  - intros other rest Hne Hdash Hin.
    apply List.filter_In in Hin as [_ Hpre].
    apply HasPrefix_spec in Hpre as [rest' Heq].
    rewrite (app_assoc_string project "-" rest') in Heq.
    apply append_inj_l in Heq.
    destruct other as [|c other]; [contradiction|].
    rewrite app_cons_string in Heq. cbn in Heq. inversion Heq; subst.
    apply Hdash. reflexivity.
Qed.

(** X13. A [WriteIssue] that succeeds without the warning adds the key to
    the listing and removes none: [ListIssues] then returns the issue's
    key and the keys it returned before, and no other. *)
Theorem WriteIssue_then_ListIssues
    (env : Env) (json : Json) (d : cache.DiskCache)
    (issue : IssueWithHistory) (duration : Z) (w : World) :
  let run := cache.WriteIssue env json d issue duration w in
  is_ok (fst run) = true ->
  trace (snd run) = trace w ->
  exists before after,
    cache.ListIssues w = (Ok before, w) /\
    cache.ListIssues (snd run) = (Ok after, snd run) /\
    forall key,
      In key after <-> key = Key (to_Issue issue) \/ In key before.
Proof.
  intros run Hok Hquiet.
  apply WriteIssue_ok_inv in Hok as (data & Hm & Hos).
  destruct (WriteIssue_written env json d issue duration w data Hm Hos)
    as (_ & _ & _ & Hkey & Ht).
  fold run in Hkey, Ht. rewrite Hquiet in Ht.
  pose proof (WriteIssue_other_entries env json d issue duration w)
    as [Hothers _].
  fold run in Hothers.
  assert (Hlink : by_key (fs (snd run)) !! key_name issue
                  = Some (key_link issue)).
  { rewrite Hkey. cbv zeta.
    destruct (os_fail env (S (S (n_os w)))).
    { apply (f_equal (@length Event)) in Ht.
      rewrite length_app in Ht. cbn in Ht. lia. }
    destruct (os_fail env (S (n_os w))).
    - destruct (by_key (fs w) !! key_name issue) eqn:Hold.
      + apply (f_equal (@length Event)) in Ht.
        rewrite length_app in Ht. cbn in Ht. lia.
      + apply lookup_insert_eq.
    - rewrite lookup_delete_eq. apply lookup_insert_eq. }
  eexists. eexists. split; [reflexivity|]. split; [reflexivity|].
  intros key. unfold cache.get_fs. cbn [fst].
  rewrite !list_keys_In.
  destruct (String.eqb_spec key (Key (to_Issue issue))) as [-> | Hne].
  - fold (key_name issue). rewrite Hlink. split; eauto.
  - rewrite Hothers.
    + split; [auto|]. intros [Heq | Hin]; [contradiction|exact Hin].
    + unfold key_name. intros Heq. apply Hne.
      apply app_inj_r_string in Heq. exact Heq.
Qed.

Lemma WriteIssue_then_ListIssues_witness :
  let env := Demo.scripted [] [] in
  let json := Demo.json [] [] [] in
  let issue := Demo.mk_history "10002" "AAH-2" in
  let w := Demo.world Demo.holds_AAH_1 in
  let run := cache.WriteIssue env json Demo.disk issue 0 w in
  exists before after,
    cache.ListIssues w = (Ok before, w) /\
    cache.ListIssues (snd run) = (Ok after, snd run) /\
    forall key,
      In key after <-> key = Key (to_Issue issue) \/ In key before.
Proof.
  intros env json issue w run.
  assert (Hok : is_ok (fst run) = true) by (vm_compute; reflexivity).
  assert (Hquiet : trace (snd run) = trace w) by (vm_compute; reflexivity).
  exact (WriteIssue_then_ListIssues env json Demo.disk issue 0 w Hok Hquiet).
Defined.

(** ** Validation *)



Example ValidateCache_dangling_link :
  let t := {| by_id := ∅;
              by_key := <["AAH-1.json" := Link "../by_id/10001.json"]> ∅ |} in
  let json := Demo.json [] [] [] in
  fst (scraper.validate_loop json ["AAH-1"] 0 (Demo.world t)) = 1 /\
  fst (scraper.ValidateCache json (Demo.world t)) = None.
Proof. cbv zeta. split; vm_compute; reflexivity. Qed.

(** ** Further properties of the orchestrator *)

(** X15. [ScrapeProject] returns an error only when the enumeration does:
    the error is that of the enumeration wrapped in "failed to search
    issues", no issue was requested, and the cache and the count of
    file-system calls are as they were. A run in which the enumeration
    returned its keys returns a result, whatever fetches and writes failed
    afterwards. *)
Theorem ScrapeProject_fails_only_on_enumeration
    (env : Env) (json : Json) (s : scraper.Scraper) (fuel : nat)
    (project : string) (w w' : World) (res : Result scraper.ScrapeResult) :
  scraper.ScrapeProject env json s fuel project w = (Some res, w') ->
  let found :=
    fst (GetAllIssuesInProject env json (scraper.client s) fuel project
           "updated DESC" (scraper.Limit (scraper.config s))
           (snd (Now env w))) in
  match res with
  | Err e' =>
      exists e evs,
        found = Some (Err e) /\
        e' = Wrapped "failed to search issues" (Some e) /\
        fs w' = fs w /\ n_os w' = n_os w /\
        trace w' = (trace w ++ evs)%list /\
        Forall (search_event (scraper.client s)) evs
  | Ok r => exists keys, found = Some (Ok keys)
  end.
Proof.
  intros Hrun. cbv zeta.
  unfold scraper.ScrapeProject in Hrun.
  unfold bind at 1 in Hrun. unfold bind at 1 in Hrun.
  destruct (GetAllIssuesInProject env json (scraper.client s) fuel project
              "updated DESC" (scraper.Limit (scraper.config s))
              (snd (Now env w)))
    as [found w1] eqn:Henum.
  change (Now env w) with
    (clock env (n_clock w), snd (Now env w)) in Hrun.
  cbv iota in Hrun. rewrite Henum in Hrun. cbn [fst].
  destruct found as [[keys|e]|]; try discriminate Hrun.
  - unfold bind at 1 in Hrun.
    destruct (scraper.plan_loop s keys [] _ w1) as [planned w2].
    unfold bind at 1 in Hrun.
    destruct (scraper.fetch_loop env json s _ _ w2) as [r1 w3].
    unfold bind, Now, ret in Hrun. inversion Hrun; subst. eauto.
  - unfold ret in Hrun. inversion Hrun; subst. clear Hrun.
    unfold GetAllIssuesInProject in Henum.
    apply page_loop_frame in Henum as (evs & Ht & Hev & Hfs & Hos).
    exists e, evs. cbn in Ht, Hfs, Hos. auto 10.
Qed.

Lemma ScrapeProject_fails_only_on_enumeration_witness :
  let env := Demo.scripted [Response 500 "" "Internal Server Error"] [] in
  let json := Demo.project_json in
  let s := Demo.incremental in
  let w := Demo.world Demo.holds_AAH_1 in
  let w' := snd (scraper.ScrapeProject env json s 3 "AAH" w) in
  let failure :=
    wrap_err "search failed" (ErrAPIStatus 500 "Internal Server Error") in
  exists e evs,
    fst (GetAllIssuesInProject env json (scraper.client s) 3 "AAH"
           "updated DESC" (scraper.Limit (scraper.config s))
           (snd (Now env w)))
    = Some (Err e) /\
    Wrapped "failed to search issues" (Some failure)
    = Wrapped "failed to search issues" (Some e) /\
    fs w' = fs w /\ n_os w' = n_os w /\
    trace w' = (trace w ++ evs)%list /\
    Forall (search_event (scraper.client s)) evs.
Proof.
  intros env json s w w' failure.
  assert (Hrun : scraper.ScrapeProject env json s 3 "AAH" w
                 = (Some (Err (wrap_err "failed to search issues" failure)),
                    w')).
  { unfold w'. apply pair_eta. vm_compute. reflexivity. }
  exact (ScrapeProject_fails_only_on_enumeration env json s 3 "AAH" w w'
           _ Hrun).
Defined.

(** ** What a run leaves in by_id *)

Lemma WriteIssue_by_id_kept env json d issue duration w :
  dom (by_id (fs w))
  ⊆ dom (by_id (fs (snd (cache.WriteIssue env json d issue duration w)))).
Proof.
  destruct (marshal_cached json
              (envelope (clock env (n_clock w)) issue duration))
    as [data|e] eqn:Hm.
  - destruct (os_fail env (n_os w)) as [cause|] eqn:Hos.
    + destruct (WriteIssue_write_refused env json d issue duration w
                  data cause Hm Hos) as (_ & Hfs & _).
      rewrite Hfs. reflexivity.
    + destruct (WriteIssue_written env json d issue duration w data Hm Hos)
        as (_ & Hid & _).
      rewrite Hid. rewrite dom_insert. set_solver.
  - destruct (WriteIssue_marshal_fails env json d issue duration w e Hm)
      as (_ & Hfs & _).
    rewrite Hfs. reflexivity.
Qed.

Lemma fetch_loop_by_id_kept env json s toFetch :
  forall result w,
    dom (by_id (fs w))
    ⊆ dom (by_id (fs (snd (scraper.fetch_loop env json s toFetch result w)))).
Proof.
  induction toFetch as [|key rest IH]; intros result w; [reflexivity|].
  cbn [scraper.fetch_loop]. unfold bind at 1.
  destruct (GetIssueWithHistory env json (scraper.client s) key w)
    as [got w1] eqn:Hget.
  apply GetIssueWithHistory_frame in Hget as (_ & _ & _ & Hfs & _).
  rewrite <- Hfs.
  destruct got as [[issue duration]|e]; [|apply IH].
  unfold bind at 1.
  pose proof (WriteIssue_by_id_kept env json (scraper.cache_ s) issue
                duration w1) as Hkept.
  destruct (cache.WriteIssue env json (scraper.cache_ s) issue duration w1)
    as [written w2].
  cbn [snd] in Hkept. etrans; [exact Hkept|].
  destruct written as [path|e]; [|apply IH].
  unfold bind, Sleep, emit.
  match goal with
  | |- context [scraper.fetch_loop env json s rest ?r ?w0] =>
      etrans; [|exact (IH r w0)]
  end.
  reflexivity.
Qed.

(** X16. Nothing a scrape does removes a file of by_id: after
    [ScrapeProject] and after [ScrapeIssue], whatever they return, by_id
    holds every file name it held before. *)
Theorem scrape_keeps_by_id_files
    (env : Env) (json : Json) (s : scraper.Scraper) (w : World) :
  (forall fuel project,
     dom (by_id (fs w))
     ⊆ dom (by_id
              (fs (snd (scraper.ScrapeProject env json s fuel project w))))) /\
  (forall key,
     dom (by_id (fs w))
     ⊆ dom (by_id (fs (snd (scraper.ScrapeIssue env json s key w))))).
Proof.
  split.
  - intros fuel project.
    unfold scraper.ScrapeProject. unfold bind at 1. unfold bind at 1.
    change (Now env w) with (clock env (n_clock w), snd (Now env w)).
    cbv iota.
    destruct (GetAllIssuesInProject env json (scraper.client s) fuel project
                "updated DESC" (scraper.Limit (scraper.config s))
                (snd (Now env w)))
      as [found w1] eqn:Henum.
    unfold GetAllIssuesInProject in Henum.
    apply page_loop_frame in Henum as (_ & _ & _ & Hfs & _).
    cbn in Hfs. rewrite <- Hfs.
    destruct found as [[keys|e]|]; try reflexivity.
    unfold bind at 1.
    match goal with
    | |- context [scraper.plan_loop s keys [] ?r0 w1] =>
        destruct (plan_loop_spec s keys [] r0 w1) as (result1 & Hplan & _)
    end.
    rewrite Hplan. cbn [app fst snd]. unfold bind at 1.
    pose proof (fetch_loop_by_id_kept env json s
                  (to_fetch (scraper.FullSync (scraper.config s)) (fs w1) keys)
                  result1 w1) as Hkept.
    destruct (scraper.fetch_loop env json s _ result1 w1) as [r1 w2].
    exact Hkept.
  - intros key. unfold scraper.ScrapeIssue. unfold bind at 1.
    destruct (GetIssueWithHistory env json (scraper.client s) key w)
      as [got w1] eqn:Hget.
    apply GetIssueWithHistory_frame in Hget as (_ & _ & _ & Hfs & _).
    rewrite <- Hfs.
    destruct got as [[issue duration]|e]; [|reflexivity].
    unfold bind.
    pose proof (WriteIssue_by_id_kept env json (scraper.cache_ s) issue
                  duration w1) as Hkept.
    destruct (cache.WriteIssue env json (scraper.cache_ s) issue duration w1)
      as [written w2].
    destruct written; exact Hkept.
Qed.

(** ** The configuration *)

Lemma New_fields client cache cfg :
  scraper.client (scraper.New client cache cfg) = client /\
  scraper.cache_ (scraper.New client cache cfg) = cache /\
  scraper.FullSync (scraper.config (scraper.New client cache cfg))
  = scraper.FullSync cfg /\
  scraper.Limit (scraper.config (scraper.New client cache cfg))
  = scraper.Limit cfg.
Proof.
  unfold scraper.New.
  destruct (scraper.Workers cfg =? 0); cbn;
    destruct (scraper.BatchSize cfg =? 0); cbn; auto.
Qed.

Lemma bind_ext {A B} (m : M A) (k k' : A -> M B) w :
  (forall a w1, k a w1 = k' a w1) -> bind m k w = bind m k' w.
Proof. intros H. unfold bind. destruct (m w). apply H. Qed.

Lemma bind_ext2 {A B} (m m' : M A) (k k' : A -> M B) w :
  m w = m' w -> (forall a w1, k a w1 = k' a w1) ->
  bind m k w = bind m' k' w.
Proof. intros Hm H. unfold bind. rewrite Hm. destruct (m' w). apply H. Qed.

Lemma plan_loop_config s s' issueKeys :
  scraper.FullSync (scraper.config s) = scraper.FullSync (scraper.config s') ->
  forall toFetch result w,
    scraper.plan_loop s issueKeys toFetch result w
    = scraper.plan_loop s' issueKeys toFetch result w.
Proof.
  intros Hfull.
  induction issueKeys as [|key rest IH]; intros toFetch result w;
    [reflexivity|].
  cbn [scraper.plan_loop]. rewrite <- Hfull.
  destruct (scraper.FullSync (scraper.config s)); [apply IH|].
  apply bind_ext. intros present w1.
  destruct (negb present); apply IH.
Qed.

Lemma fetch_loop_config env json s s' toFetch :
  scraper.client s = scraper.client s' ->
  scraper.cache_ s = scraper.cache_ s' ->
  forall result w,
    scraper.fetch_loop env json s toFetch result w
    = scraper.fetch_loop env json s' toFetch result w.
Proof.
  intros Hc Hd.
  induction toFetch as [|key rest IH]; intros result w; [reflexivity|].
  cbn [scraper.fetch_loop]. rewrite <- Hc, <- Hd.
  apply bind_ext. intros [[issue duration]|e] w1; [|apply IH].
  apply bind_ext. intros [path|e] w2; [|apply IH].
  apply bind_ext. intros _ w3. apply IH.
Qed.

(** X17. [ScrapeProject] reads two fields of its configuration, the mode
    and the limit. [Workers] and [BatchSize], and the defaults [New] gives
    them, change nothing of a run: scrapers made from the same client and
    cache whose configurations agree on the mode and the limit return the
    same result and leave the same world. *)
Theorem ScrapeProject_ignores_Workers_BatchSize
    (env : Env) (json : Json) (client : Client) (cache : cache.DiskCache)
    (cfg cfg' : scraper.Config) (fuel : nat) (project : string) (w : World) :
  scraper.FullSync cfg = scraper.FullSync cfg' ->
  scraper.Limit cfg = scraper.Limit cfg' ->
  scraper.ScrapeProject env json (scraper.New client cache cfg) fuel project w
  = scraper.ScrapeProject env json (scraper.New client cache cfg') fuel
      project w.
Proof.
  intros Hfull Hlimit.
  destruct (New_fields client cache cfg) as (Hc & Hd & Hf & Hl).
  destruct (New_fields client cache cfg') as (Hc' & Hd' & Hf' & Hl').
  set (s := scraper.New client cache cfg) in *.
  set (s' := scraper.New client cache cfg') in *.
  unfold scraper.ScrapeProject.
  rewrite Hc, Hc', Hl, Hl', <- Hlimit.
  apply bind_ext. intros start w0.
  apply bind_ext. intros [[keys|e]|] w1; try reflexivity.
  apply bind_ext2; [apply plan_loop_config; congruence|].
  intros planned w2.
  apply bind_ext2; [apply fetch_loop_config; congruence|].
  reflexivity.
Qed.

Lemma ScrapeProject_ignores_Workers_BatchSize_witness :
  let cfg := {| scraper.Workers := 1; scraper.FullSync := false;
                scraper.BatchSize := 50; scraper.Limit := 0 |} in
  let cfg' := {| scraper.Workers := 8; scraper.FullSync := false;
                 scraper.BatchSize := 0; scraper.Limit := 0 |} in
  let w := Demo.world Demo.holds_AAH_1 in
  scraper.ScrapeProject Demo.incremental_server Demo.project_json
    (scraper.New Demo.client Demo.disk cfg) 3 "AAH" w
  = scraper.ScrapeProject Demo.incremental_server Demo.project_json
      (scraper.New Demo.client Demo.disk cfg') 3 "AAH" w.
Proof.
  intros cfg cfg' w.
  exact (ScrapeProject_ignores_Workers_BatchSize Demo.incremental_server
           Demo.project_json Demo.client Demo.disk cfg cfg' 3 "AAH" w
           eq_refl eq_refl).
Defined.

(** ** One issue *)




(** ** Termination of the enumeration *)

Section Terminates.
Context (env : Env) (json : Json) (c : Client).

(** A request that succeeds returns the body of a 2xx response to it. *)
Lemma retry_loop_ok method path query maxRetries remaining :
  forall attempt lastErr w body w',
    retry_loop env c method path query maxRetries remaining attempt lastErr w
    = (Ok body, w') ->
    exists n status retryAfter,
      http_do env n (mkRequest c method path query)
      = Response status retryAfter body /\
      200 <= status < 300.
Proof.
  induction remaining as [|remaining IH];
    intros attempt lastErr w body w' Hrun.
  - discriminate Hrun.
  - cbn [retry_loop] in Hrun.
    destruct (new_request env method (baseURL c +:+ path) query);
      [discriminate Hrun|].
    unfold bind at 1 in Hrun. unfold round_trip in Hrun.
    destruct (http_do env (n_http w) (mkRequest c method path query))
      as [cause|cause|status retryAfter body'] eqn:Hdo.
    + unfold bind in Hrun.
      destruct (attempt <? maxRetries); cbn in Hrun;
        eapply IH; exact Hrun.
    + unfold bind in Hrun.
      destruct (attempt <? maxRetries); cbn in Hrun;
        eapply IH; exact Hrun.
    + destruct (Z.leb_spec 200 status); cbn [andb] in Hrun.
      * destruct (Z.ltb_spec status 300).
        -- inversion Hrun; subst. exists (n_http w), status, retryAfter.
           split; [exact Hdo|lia].
        -- destruct (status =? 429); [|discriminate Hrun].
           destruct (attempt >=? maxRetries); [discriminate Hrun|].
           unfold bind in Hrun. cbn in Hrun. eapply IH; exact Hrun.
      * destruct (status =? 429); [|discriminate Hrun].
        destruct (attempt >=? maxRetries); [discriminate Hrun|].
        unfold bind in Hrun. cbn in Hrun. eapply IH; exact Hrun.
Qed.

Lemma Search_ok jql startAt w page w' :
  Search env json c jql (batchSize c) startAt w = (Ok page, w') ->
  exists n status retryAfter body,
    http_do env n (search_request c jql startAt)
    = Response status retryAfter body /\
    200 <= status < 300 /\
    unmarshal_search json body = Ok page.
Proof.
  unfold Search, bind, doRequest, doRequestWithRetry. intros Hrun.
  match type of Hrun with
  | context [retry_loop ?e ?c ?m ?p ?q ?mr ?rem ?a ?l ?w0] =>
      destruct (retry_loop e c m p q mr rem a l w0) as [r w1] eqn:Hdo
  end.
  destruct r as [body|e]; [|discriminate Hrun].
  apply retry_loop_ok in Hdo as (n & status & retryAfter & Hdo & H2xx).
  destruct (unmarshal_search json body) as [result|e] eqn:Hjson;
    [|discriminate Hrun].
  inversion Hrun; subst. exists n, status, retryAfter, body. auto.
Qed.

(** Fuel beyond what a finished run used changes nothing. *)
Lemma page_loop_more_fuel jql limit fuel :
  forall allKeys startAt w res w' extra,
    page_loop env json c fuel jql limit allKeys startAt w = (Some res, w') ->
    page_loop env json c (fuel + extra) jql limit allKeys startAt w
    = (Some res, w').
Proof.
  induction fuel as [|fuel IH]; intros allKeys startAt w res w' extra Hrun.
  - discriminate Hrun.
  - cbn [page_loop Nat.add] in *. unfold bind at 1 in Hrun.
    unfold bind at 1.
    destruct (Search env json c jql (batchSize c) startAt w) as [r w1].
    destruct r as [page|e]; [|exact Hrun].
    destruct (collect limit allKeys (Issues page)) as [keys reached].
    destruct reached; [exact Hrun|].
    destruct (_ >=? _); [exact Hrun|].
    unfold bind in *. destruct (Sleep (500 * Millisecond) w1) as [u w2].
    apply IH. exact Hrun.
Qed.

(** The loop returns when the pages keep coming. *)
Lemma page_loop_returns jql limit T :
  (forall n startAt status retryAfter body page,
     http_do env n (search_request c jql startAt)
     = Response status retryAfter body ->
     unmarshal_search json body = Ok page ->
     Total page <= T /\ (startAt < Total page -> Issues page <> [])) ->
  forall fuel allKeys startAt w,
    T - startAt < Z.of_nat fuel -> (0 < fuel)%nat ->
    exists res,
      fst (page_loop env json c fuel jql limit allKeys startAt w) = Some res.
Proof.
  intros Hserver.
  induction fuel as [|fuel IH]; intros allKeys startAt w Hfuel Hpos; [lia|].
  cbn [page_loop]. unfold bind at 1.
  destruct (Search env json c jql (batchSize c) startAt w) as [r w1] eqn:Hs.
  destruct r as [page|e]; [|cbn; eauto].
  apply Search_ok in Hs
    as (n & status & retryAfter & body & Hdo & _ & Hjson).
  destruct (Hserver n startAt status retryAfter body page Hdo Hjson)
    as [Htotal Hnonempty].
  destruct (collect limit allKeys (Issues page)) as [keys reached].
  destruct reached; [cbn; eauto|].
  destruct (Z.geb_spec (startAt + Z.of_nat (length (Issues page)))
              (Total page)) as [Hstop|Hmore]; [cbn; eauto|].
  unfold bind. destruct (Sleep (500 * Millisecond) w1) as [u w2].
  assert (Hlen : 0 < Z.of_nat (length (Issues page))).
  { destruct (Issues page) as [|i rest] eqn:Hi; [|cbn [length]; lia].
    exfalso. apply Hnonempty; [cbn [length] in Hmore; lia|reflexivity]. }
  apply IH; lia.
Qed.

End Terminates.

(** X19. The enumeration returns, within [T + 1] searches, when the
    server keeps the pages coming: every answer to a search that parses
    reports a total of at most [T] and holds an issue as long as the
    offset asked for is below that total. A failed search ends the loop,
    and every other page moves the offset on. The fuel of the model plays
    no part beyond that bound: with any positive fuel above [T] the run is
    the same. *)
Theorem GetAllIssuesInProject_returns
    (env : Env) (json : Json) (c : Client) (project orderBy : string)
    (limit T : Z) (w : World) :
  let jql :=
    "project = " +:+ project +:+ " ORDER BY " +:+
    (if String.eqb orderBy "" then "updated DESC" else orderBy) in
  (forall n startAt status retryAfter body page,
     http_do env n (search_request c jql startAt)
     = Response status retryAfter body ->
     unmarshal_search json body = Ok page ->
     Total page <= T /\ (startAt < Total page -> Issues page <> [])) ->
  exists res w',
    forall fuel, T < Z.of_nat fuel -> (0 < fuel)%nat ->
      GetAllIssuesInProject env json c fuel project orderBy limit w
      = (Some res, w').
Proof.
  intros jql Hserver.
  set (fuel0 := S (Z.to_nat T)).
  destruct (page_loop_returns env json c jql limit T Hserver fuel0 [] 0 w)
    as [res Hres]; [unfold fuel0; lia|unfold fuel0; lia|].
  apply pair_eta in Hres.
  exists res. eexists. intros fuel Hfuel Hpos.
  unfold GetAllIssuesInProject. fold jql.
  replace fuel with (fuel0 + (fuel - fuel0))%nat by (unfold fuel0; lia).
  apply page_loop_more_fuel. exact Hres.
Qed.

Lemma GetAllIssuesInProject_returns_witness :
  let env := Demo.scripted [Response 200 "" "page"] [] in
  let json := Demo.project_json in
  let w := Demo.world Demo.empty_fs in
  exists res w',
    forall fuel, 3 < Z.of_nat fuel -> (0 < fuel)%nat ->
      GetAllIssuesInProject env json Demo.client fuel "AAH" "" 0 w
      = (Some res, w').
Proof.
  intros env json w.
  apply (GetAllIssuesInProject_returns env json Demo.client "AAH" "" 0 3 w).
  intros n startAt status retryAfter body page _ Hjson.
  cbn in Hjson. unfold Demo.decode in Hjson. cbn [Demo.assoc] in Hjson.
  destruct (String.eqb body "page"); [|discriminate Hjson].
  inversion Hjson; subst. split; [cbn; lia|discriminate].
Defined.

Example GetAllIssuesInProject_returns_run :
  fst (GetAllIssuesInProject (Demo.scripted [Response 200 "" "page"] [])
         Demo.project_json Demo.client 4 "AAH" "" 0
         (Demo.world Demo.empty_fs))
  = Some (Ok ["AAH-1"; "AAH-2"; "AAH-3"]).
Proof. vm_compute. reflexivity. Qed.

(** ** What the client sends *)

Section ClientRuns.
Context (env : Env) (json : Json) (c : Client).

Lemma client_run_refl w : client_run c w w.
Proof. exists []. rewrite app_nil_r. auto. Qed.

Lemma client_run_trans w1 w2 w3 :
  client_run c w1 w2 -> client_run c w2 w3 -> client_run c w1 w3.
Proof.
  intros (evs & Ht & Hev & Hfs & Hos) (evs' & Ht' & Hev' & Hfs' & Hos').
  exists (evs ++ evs')%list. rewrite Ht', Ht, <- app_assoc.
  split; [reflexivity|]. split; [apply Forall_app; auto|].
  split; congruence.
Qed.

Lemma client_run_Sleep d w : client_run c w (snd (Sleep d w)).
Proof. exists [EvSleep d]. cbn. repeat split. repeat constructor. Qed.

Lemma client_run_Now w : client_run c w (snd (Now env w)).
Proof. exists []. cbn. rewrite app_nil_r. auto. Qed.

Lemma doRequest_client_run path query w :
  client_run c w (snd (doRequest env c "GET" path query w)).
Proof.
  destruct (doRequest env c "GET" path query w) as [res w'] eqn:Hrun.
  apply doRequest_frame in Hrun as (evs & Ht & Hev & Hfs & _ & Hos & _).
  exists evs. cbn [snd]. repeat split; try assumption.
  eapply Forall_impl; [exact Hev|].
  intros [r|d|p cause]; cbn; [|auto|auto].
  intros ->. cbn. eauto.
Qed.

Lemma Search_client_run jql maxResults startAt w :
  client_run c w (snd (Search env json c jql maxResults startAt w)).
Proof.
  unfold Search, bind.
  match goal with
  | |- context [doRequest env c "GET" ?p ?q w] =>
      pose proof (doRequest_client_run p q w) as Hrun;
      destruct (doRequest env c "GET" p q w) as [[body|e] w1]
  end; [|exact Hrun].
  destruct (unmarshal_search json body); exact Hrun.
Qed.

Lemma page_loop_client_run jql limit fuel :
  forall allKeys startAt w,
    client_run c w
      (snd (page_loop env json c fuel jql limit allKeys startAt w)).
Proof.
  induction fuel as [|fuel IH]; intros allKeys startAt w;
    [apply client_run_refl|].
  cbn [page_loop]. unfold bind at 1.
  pose proof (Search_client_run jql (batchSize c) startAt w) as Hrun.
  destruct (Search env json c jql (batchSize c) startAt w) as [[page|e] w1];
    [|exact Hrun].
  destruct (collect limit allKeys (Issues page)) as [keys reached].
  destruct reached; [exact Hrun|].
  destruct (_ >=? _); [exact Hrun|].
  unfold bind.
  pose proof (client_run_Sleep (500 * Millisecond) w1) as Hsleep.
  destruct (Sleep (500 * Millisecond) w1) as [u w2].
  eapply client_run_trans; [exact Hrun|].
  eapply client_run_trans; [exact Hsleep|]. apply IH.
Qed.

End ClientRuns.

(** X20. The client reads and never writes: every round trip of [Search],
    [GetIssue], [GetIssueWithHistory], [GetAllIssuesInProject] and
    [TestConnection] is a GET below the base URL that carries the bearer
    token of the client and the two JSON headers, whatever the server
    answers; and none of them touches the cache or calls the file
    system. *)
Theorem client_sends_authenticated_GETs
    (env : Env) (json : Json) (c : Client) (w : World) :
  (forall jql maxResults startAt,
     client_run c w (snd (Search env json c jql maxResults startAt w))) /\
  (forall key, client_run c w (snd (GetIssue env json c key w))) /\
  (forall key, client_run c w (snd (GetIssueWithHistory env json c key w))) /\
  (forall fuel project orderBy limit,
     client_run c w
       (snd (GetAllIssuesInProject env json c fuel project orderBy limit w))) /\
  client_run c w (snd (TestConnection env c w)).
Proof.
  split; [intros; apply Search_client_run|].
  split; [|split; [|split]].
  - intros key. unfold GetIssue, bind.
    pose proof (doRequest_client_run env c (issue_path key) [] w) as Hrun.
    destruct (doRequest env c "GET" (issue_path key) [] w)
      as [[body|e] w1]; [|exact Hrun].
    destruct (unmarshal_issue json body); exact Hrun.
  - intros key. unfold GetIssueWithHistory. unfold bind at 1.
    pose proof (client_run_Now env c w) as Hnow.
    destruct (Now env w) as [start w0]. cbn [snd] in Hnow.
    eapply client_run_trans; [exact Hnow|]. unfold bind at 1.
    pose proof (doRequest_client_run env c (issue_path key)
                  [("expand", "changelog")] w0) as Hrun.
    destruct (doRequest env c "GET" (issue_path key) _ w0)
      as [[body|e] w1]; [|exact Hrun].
    destruct (unmarshal_history json body); [|exact Hrun].
    eapply client_run_trans; [exact Hrun|].
    exists []. cbn. rewrite app_nil_r. auto.
  - intros fuel project orderBy limit. apply page_loop_client_run.
  - unfold TestConnection, bind.
    pose proof (doRequest_client_run env c "/rest/api/2/myself" [] w) as Hrun.
    destruct (doRequest env c "GET" "/rest/api/2/myself" [] w)
      as [[body|e] w1]; exact Hrun.
Qed.
